(** * The interactive fitting widget of iminuit (src/iminuit/qtwidget.py)

    A shallow embedding of the widget's logic: the continuous slider
    [FloatSlider], the parameter panel [Parameter] and the session window
    [MainWindow], over an explicit model of the minimizer object they share.

    Numbers are Python floats, that is IEEE 754 binary64 values, modelled by
    Rocq's primitive floats, so every definition evaluates exactly as the
    Python code does.  Methods mutate objects and may raise; they are
    written in a small state-and-exception monad over the "world" that owns
    the objects. *)

From Stdlib Require Import ZArith List Bool Lia QArith Qround.
From Stdlib Require Import Floats Uint63.
Import ListNotations.
Close Scope Q_scope.

Set Warnings "-inexact-float".
Set Implicit Arguments.
Unset Strict Implicit.

(** ** Python numbers *)

Module Py.

Open Scope float_scope.

(** The exceptions the widget code can raise. *)
Inductive Exn :=
| ZeroDivisionError   (* float division by zero *)
| ValueError          (* int(nan) *)
| OverflowError       (* int(inf) *)
| PlotError.          (* raised by the caller-supplied plot routine *)

(** [x >= y] and [x > y] on floats are the mirrored [<=] and [<]. *)
Definition geb (x y : float) : bool := y <=? x.
Definition gtb (x y : float) : bool := y <? x.

(** [np.isfinite]. *)
Definition isfinite (x : float) : bool := is_finite x.

(** [int(x)] for a float: truncation toward zero; on nan Python raises
    [ValueError] and on an infinity [OverflowError]. *)
Definition int (x : float) : Exn + Z :=
  match Prim2SF x with
  | S754_zero _ => inr 0%Z
  | S754_finite s m e =>
      let a := if (0 <=? e)%Z then Z.shiftl (Zpos m) e
               else Z.shiftr (Zpos m) (- e) in
      inr (if s then (- a)%Z else a)
  | S754_infinity _ => inl OverflowError
  | S754_nan => inl ValueError
  end.

(** [float(n)] for the integers the slider uses (0 .. 10^8), exact. *)
Definition float_of_int (n : Z) : float := of_uint63 (Uint63.of_Z n).

(** The exact rational value of a finite float: [m * 2^e], signed. *)
Definition to_Q (x : float) : option Q :=
  match Prim2SF x with
  | S754_zero _ => Some 0%Q
  | S754_finite s m e =>
      let a := if (0 <=? e)%Z then inject_Z (Z.shiftl (Zpos m) e)
               else Qmake (Zpos m) (Z.to_pos (2 ^ (- e))) in
      Some (if s then (- a)%Q else a)
  | _ => None
  end.

(** The integer part of a rational: rounding toward zero. *)
Definition Qtrunc (q : Q) : Z := Z.quot (Qnum q) (Zpos (Qden q)).

(** [round(x)] of the exact value [q]: nearest integer, ties to even. *)
Definition round_Q (q : Q) : Z :=
  let f := Qfloor q in
  match Qcompare (q - inject_Z f) (1 # 2) with
  | Lt => f
  | Gt => (f + 1)%Z
  | Eq => if Z.even f then f else (f + 1)%Z
  end.

Definition round (x : float) : option Z := option_map round_Q (to_Q x).

(** [sys.float_info.max]. *)
Definition float_max : float := 0x1.fffffffffffffp+1023.

End Py.

(** ** State and exceptions *)

(** The outcome of running a method in world [w]: it returns a value and
    the mutated world, or it raises, leaving the world as mutated so far. *)
Inductive Res (W A : Type) : Type :=
| Ok (a : A) (w : W)
| Raised (e : Py.Exn) (w : W).
Arguments Ok {W A} a w.
Arguments Raised {W A} e w.

Definition M (W A : Type) : Type := W -> Res W A.

Definition ret {W A} (a : A) : M W A := fun w => Ok a w.

Definition bind {W A B} (c : M W A) (k : A -> M W B) : M W B :=
  fun w => match c w with
           | Ok a w' => k a w'
           | Raised e w' => Raised e w'
           end.

Definition raise {W A} (e : Py.Exn) : M W A := fun w => Raised e w.
Definition gets {W A} (f : W -> A) : M W A := fun w => Ok (f w) w.
Definition modify {W} (f : W -> W) : M W unit := fun w => Ok tt (f w).

Declare Scope py_scope.
Delimit Scope py_scope with py.
Notation "x <- c ;; k" := (bind c (fun x => k))
  (at level 61, c at next level, right associativity) : py_scope.
Notation "c ;; k" := (bind c (fun _ => k))
  (at level 61, right associativity) : py_scope.
Open Scope py_scope.

(** A slot run by the toolkit for a signal: an exception of the slot goes
    to [sys.excepthook] and does not reach the code that emitted the
    signal, which goes on from the state the slot left. *)
Definition contained {W A} (c : M W A) : M W unit :=
  fun w => match c w with
           | Ok _ w' => Ok tt w'
           | Raised _ w' => Ok tt w'
           end.

(** The world an outcome ends in, whether it returned or raised. *)
Definition final {W A} (r : Res W A) : W :=
  match r with Ok _ w => w | Raised _ w => w end.

Definition returned {W A} (r : Res W A) : bool :=
  match r with Ok _ _ => true | Raised _ _ => false end.

(** [for i, x in enumerate(xs): body i]: the body runs for 0 .. n-1 and
    an exception ends the loop. *)
Fixpoint for_range {W} (i n : nat) (body : nat -> M W unit) : M W unit :=
  match n with
  | O => ret tt
  | S n' => body i ;; for_range (S i) n' body
  end.

(** Running a method of an inner object [V] inside the world [W] that
    holds it: read the object, run, write it back. *)
Definition zoom {W V A} (get : W -> V) (put : V -> W -> W) (c : M V A) : M W A :=
  fun w => match c (get w) with
           | Ok a v => Ok a (put v w)
           | Raised e v => Raised e (put v w)
           end.

(** Specifications: from a world satisfying [P], the method returns into
    [Q] or raises into [X]. *)
Definition hoare {W A} (P : W -> Prop) (c : M W A)
    (Q : A -> W -> Prop) (X : W -> Prop) : Prop :=
  forall w, P w ->
    match c w with
    | Ok a w' => Q a w'
    | Raised _ w' => X w'
    end.

(** [c] keeps [P], however it ends. *)
Definition preserves {W A} (P : W -> Prop) (c : M W A) : Prop :=
  hoare P c (fun _ => P) P.

(** ** FloatSlider

    A [QSlider] subclass.  Of the toolkit base class the model keeps what
    the code relies on: the integer value, bounded to the range 0 .. 10^8
    set in [__init__]; the [blockSignals] flag, which suppresses every
    signal of the object; and that [QSlider.setValue] emits [valueChanged]
    when, and only when, the integer value changes.  [__init__] connects
    [valueChanged] to [_emit_float_value_changed].  Slots run
    [contained]: what they raise does not come back through the signal. *)

Module FloatSlider.

Open Scope float_scope.

Record t := mk {
  int_value : Z;              (* the value of the underlying QSlider *)
  signalsBlocked : bool;
  enabled : bool;
  tracking : bool;
  _min : float;
  _max : float;
  _value : float;
  _label : option float       (* the number the paired label shows, to 3 digits *)
}.

Definition with_int_value p s :=
  mk p (signalsBlocked s) (enabled s) (tracking s) (_min s) (_max s) (_value s) (_label s).
Definition with_signalsBlocked b s :=
  mk (int_value s) b (enabled s) (tracking s) (_min s) (_max s) (_value s) (_label s).
Definition with_enabled b s :=
  mk (int_value s) (signalsBlocked s) b (tracking s) (_min s) (_max s) (_value s) (_label s).
Definition with_tracking b s :=
  mk (int_value s) (signalsBlocked s) (enabled s) b (_min s) (_max s) (_value s) (_label s).
Definition with_min x s :=
  mk (int_value s) (signalsBlocked s) (enabled s) (tracking s) x (_max s) (_value s) (_label s).
Definition with_max x s :=
  mk (int_value s) (signalsBlocked s) (enabled s) (tracking s) (_min s) x (_value s) (_label s).
Definition with_value x s :=
  mk (int_value s) (signalsBlocked s) (enabled s) (tracking s) (_min s) (_max s) x (_label s).
Definition with_label x s :=
  mk (int_value s) (signalsBlocked s) (enabled s) (tracking s) (_min s) (_max s) (_value s) x.

(** The slider without its moving parts: what stays when only the value
    moves (the window and the enabled and tracking flags). *)
Definition steady (s : t) : t :=
  mk 0 false (enabled s) (tracking s) (_min s) (_max s) 0 None.

(** The number [v] brought into the window of [s]. *)
Definition clamp (s : t) (v : float) : float :=
  if v <? _min s then _min s else if _max s <? v then _max s else v.

(** [__init__]: integer range 0 .. 10^8 at 5*10^7, window [0, 1] at 0.5. *)
Definition __init__ : t :=
  mk 50000000 false true true 0 1 0.5 None.

Definition int_maximum : Z := 100000000.

Section Methods.

(** The slider lives in a world [W]; [self] reads the object and [store]
    writes it back.  [floatValueChanged] runs the slots connected to the
    signal of that name. *)
Context {W : Type}.
Variable self : W -> t.
Variable store : t -> W -> W.
Variable floatValueChanged : float -> M W unit.

Definition update (f : t -> t) : M W unit :=
  modify (fun w => store (f (self w)) w).

Definition blockSignals (b : bool) : M W unit :=
  update (with_signalsBlocked b).

(** [self.floatValueChanged.emit(x)]. *)
Definition emit_floatValueChanged (x : float) : M W unit :=
  b <- gets (fun w => signalsBlocked (self w)) ;;
  if b then ret tt else contained (floatValueChanged x).

Definition _int_to_float (value : Z) : M W float :=
  s <- gets self ;;
  ret (_min s + (Py.float_of_int value / 1e8) * (_max s - _min s)).

Definition _float_to_int (value : float) : M W Z :=
  s <- gets self ;;
  let d := _max s - _min s in
  if d =? 0 then raise Py.ZeroDivisionError
  else match Py.int ((value - _min s) / d * 1e8) with
       | inl e => raise e
       | inr p => ret p
       end.

Definition _emit_float_value_changed (value : option Z) : M W unit :=
  match value with
  | Some p => x <- _int_to_float p ;; update (with_value x)
  | None => ret tt
  end ;;
  v <- gets (fun w => _value (self w)) ;;
  update (with_label (Some v)) ;;
  emit_floatValueChanged v.

(** [super().setValue(p)], the toolkit's method. *)
Definition QSlider_setValue (p : Z) : M W unit :=
  let p' := Z.max 0 (Z.min int_maximum p) in
  s <- gets self ;;
  if (int_value s =? p')%Z then ret tt
  else
    update (with_int_value p') ;;
    if signalsBlocked s then ret tt
    else contained (_emit_float_value_changed (Some p')).

Definition setValue (value : float) : M W unit :=
  s <- gets self ;;
  if value <? _min s then
    update (with_value (_min s)) ;;
    QSlider_setValue 0 ;;
    _emit_float_value_changed None
  else if Py.gtb value (_max s) then
    update (with_value (_max s)) ;;
    QSlider_setValue int_maximum ;;
    _emit_float_value_changed None
  else
    update (with_value value) ;;
    blockSignals true ;;
    p <- _float_to_int value ;;
    QSlider_setValue p ;;
    blockSignals false.

Definition setMinimum (min_value : float) : M W unit :=
  s <- gets self ;;
  if _max s <=? min_value then ret tt
  else
    update (with_min min_value) ;;
    v <- gets (fun w => _value (self w)) ;;
    setValue v.

Definition setMaximum (max_value : float) : M W unit :=
  s <- gets self ;;
  if Py.geb (_min s) max_value then ret tt
  else
    update (with_max max_value) ;;
    v <- gets (fun w => _value (self w)) ;;
    setValue v.

Definition value : M W float := gets (fun w => _value (self w)).

Definition setEnabled (b : bool) : M W unit := update (with_enabled b).
Definition setTracking (b : bool) : M W unit := update (with_tracking b).

End Methods.

(** A slider on its own: the world is the slider and the list of values
    its [floatValueChanged] signal has delivered, latest first. *)
Record Alone := mkAlone { slider : t; delivered : list float }.

Definition alone_store (s : t) (w : Alone) : Alone := mkAlone s (delivered w).
Definition alone_slot (x : float) : M Alone unit :=
  modify (fun w => mkAlone (slider w) (x :: delivered w)).

Definition setValue1 := setValue slider alone_store alone_slot.
Definition setMinimum1 := setMinimum slider alone_store alone_slot.
Definition setMaximum1 := setMaximum slider alone_store alone_slot.
Definition _float_to_int1 := _float_to_int (W:=Alone) slider.
Definition value1 := value (W:=Alone) slider.

(** A fresh slider given the window [lo, hi]. *)
Definition fresh (lo hi : float) : Res Alone unit :=
  (setMinimum1 lo ;; setMaximum1 hi) (mkAlone __init__ []).

End FloatSlider.

(** ** Toolkit controls and the minimizer *)

(** Python list access by position.  The widget builds one panel per
    parameter of the minimizer, so every index it uses is in range; out of
    range the model reads a default and writes nothing. *)
Fixpoint set_nth {A} (i : nat) (x : A) (l : list A) : list A :=
  match l, i with
  | [], _ => []
  | _ :: t, O => x :: t
  | h :: t, S i' => h :: set_nth i' x t
  end.

(** [QDoubleSpinBox]: a number with two decimals kept inside the range of
    the box ([setDecimals] is never called).  [notified] counts the
    [valueChanged] notifications the box has emitted. *)
Module SpinBox.

Open Scope float_scope.

Record t := mk {
  value : float;
  minimum : float;
  maximum : float;
  singleStep : float;
  signalsBlocked : bool;
  notified : nat
}.

(** A new box: value 0 in the range 0 .. 99.99, step 1, two decimals. *)
Definition new : t := mk 0 0 99.99 1 false 0.

(** [QDoubleSpinBoxPrivate::round] with the two decimals the code leaves
    in place: [QString::number(x, 'f', 2).toDouble()].  The digits are
    those of the exact value rounded to hundredths, a tie away from zero;
    the string is read back as the nearest float.  An infinity and nan
    come back as they are. *)
Definition magnitude (m : positive) (e : Z) : Q :=
  if (0 <=? e)%Z then inject_Z (Z.shiftl (Zpos m) e)
  else Qmake (Zpos m) (Z.to_pos (2 ^ (- e))).

Definition hundredths (q : Q) : Z := Qfloor (q * 100 + (1 # 2))%Q.

Definition of_hundredths (s : bool) (n : Z) : float :=
  match n with
  | Zpos _ =>
      let '(m, e, l) := SFdiv_core_binary prec emax n 0 100 0 in
      SF2Prim (binary_round_aux prec emax s m e l)
  | _ => if s then -0 else 0
  end.

Definition round (x : float) : float :=
  match Prim2SF x with
  | S754_finite s m e => of_hundredths s (hundredths (magnitude m e))
  | _ => x
  end.
Arguments round : simpl never.

(** [QAbstractSpinBoxPrivate::variantCompare(a, b)] on doubles: 0 when
    they are equal, -1 when [a < b] and 1 otherwise, nan included. *)
Definition variantCompare (a b : float) : Z :=
  if a =? b then 0%Z else if a <? b then (-1)%Z else 1%Z.

(** [QAbstractSpinBoxPrivate::bound], the box not wrapping. *)
Definition bound (s : t) (x : float) : float :=
  let v := if (variantCompare x (minimum s) <? 0)%Z then minimum s else x in
  if (0 <? variantCompare v (maximum s))%Z then maximum s else v.

(** [QAbstractSpinBoxPrivate::setValue(v, EmitIfChanged)]: the value
    becomes [v] kept within the range, and [valueChanged] goes out when
    that is another number than before and the signals are open. *)
Definition store (v : float) (s : t) : t :=
  let v' := bound s v in
  mk v' (minimum s) (maximum s) (singleStep s) (signalsBlocked s)
     (if signalsBlocked s || (v' =? value s) then notified s else S (notified s)).

Definition setValue (x : float) (s : t) : t := store (round x) s.

(** [QAbstractSpinBoxPrivate::setRange]. *)
Definition range (lo hi : float) (s : t) : t :=
  let hi' := if (variantCompare lo hi <? 0)%Z then hi else lo in
  let s' := mk (value s) lo hi' (singleStep s) (signalsBlocked s) (notified s) in
  if bound s' (value s) =? value s then s' else store (value s) s'.

Definition setRange (lo hi : float) (s : t) : t := range (round lo) (round hi) s.

Definition setMinimum (lo : float) (s : t) : t :=
  let m := round lo in
  range m (if (0 <? variantCompare (maximum s) m)%Z then maximum s else m) s.
Definition setMaximum (hi : float) (s : t) : t :=
  let m := round hi in
  range (if (variantCompare (minimum s) m <? 0)%Z then minimum s else m) m s.

(** [setSingleStep] ignores a step that is not [>= 0]. *)
Definition setSingleStep (x : float) (s : t) : t :=
  if 0 <=? x
  then mk (value s) (minimum s) (maximum s) x (signalsBlocked s) (notified s)
  else s.

Definition blockSignals (b : bool) (s : t) : t :=
  mk (value s) (minimum s) (maximum s) (singleStep s) b (notified s).

(** [blockSignals(True); setValue(x); blockSignals(False)]: the field
    takes [x], to two decimals and within its range, without notifying. *)
Definition quietly_set (x : float) (s : t) : t :=
  blockSignals false (setValue x (blockSignals true s)).

End SpinBox.

(** The minimizer object, an external collaborator: per-parameter values,
    limits and fixed flags that the widget reads and writes by position,
    and the rest of its state ([internal]), which only its own methods
    look at. *)
Module Minuit.

Record t := mk {
  values : list float;
  limits : list (float * float);
  fixed : list bool;
  internal : Z
}.

Definition with_values v m := mk v (limits m) (fixed m) (internal m).
Definition with_limits l m := mk (values m) l (fixed m) (internal m).
Definition with_fixed f m := mk (values m) (limits m) f (internal m).

Definition value_at (m : t) (i : nat) : float := nth i (values m) 0%float.
Definition limits_at (m : t) (i : nat) : float * float :=
  nth i (limits m) (neg_infinity, infinity).
Definition fixed_at (m : t) (i : nat) : bool := nth i (fixed m) false.

Definition set_value i x m := with_values (set_nth i x (values m)) m.
Definition set_limits i x m := with_limits (set_nth i x (limits m)) m.
Definition set_fixed i x m := with_fixed (set_nth i x (fixed m)) m.

(** The number of parameters. *)
Definition npar (m : t) : nat := length (values m).

End Minuit.

(** The entries of the algorithm chooser. *)
Inductive Algo := Migrad | Scipy | Simplex.

(** What [make_widget] receives besides the minimizer's data: the
    minimizer's methods, whether [minuit.visualize(plot, **kwargs)] returns
    normally ([true]) or raises, and the [raise_on_exception] flag. *)
Record External := mkExternal {
  migrad : Minuit.t -> Minuit.t;
  scipy : Minuit.t -> Minuit.t;
  simplex : Minuit.t -> Minuit.t;
  reset : Minuit.t -> Minuit.t;
  visualize : Minuit.t -> bool;
  raise_on_exception : bool
}.

Definition _make_finite (x : float) : float :=
  let sign := if (x <? 0)%float then (-1)%float else 1%float in
  if (abs x =? infinity)%float then (sign * Py.float_max)%float else x.

Definition _guess_initial_step (val vmin vmax : float) : float :=
  if Py.isfinite vmin && Py.isfinite vmax then (1e-2 * (vmax - vmin))%float
  else 1e-2%float.

(** ** Parameter: the panel of one parameter (module [Panel]) *)

Module Panel.

Open Scope float_scope.

Record t := mk {
  par : nat;                     (* the parameter, by its position *)
  slider : FloatSlider.t;        (* with its value label *)
  tmin : SpinBox.t;
  tmax : SpinBox.t;
  fix_checked : bool;            (* self.fix.isChecked() *)
  fit_checked : bool;            (* self.fit.isChecked() *)
  step : float;
  original_value : float;
  original_limits : float * float
}.

Definition with_slider x p :=
  mk (par p) x (tmin p) (tmax p) (fix_checked p) (fit_checked p)
     (step p) (original_value p) (original_limits p).
Definition with_tmin x p :=
  mk (par p) (slider p) x (tmax p) (fix_checked p) (fit_checked p)
     (step p) (original_value p) (original_limits p).
Definition with_tmax x p :=
  mk (par p) (slider p) (tmin p) x (fix_checked p) (fit_checked p)
     (step p) (original_value p) (original_limits p).
Definition with_fix x p :=
  mk (par p) (slider p) (tmin p) (tmax p) x (fit_checked p)
     (step p) (original_value p) (original_limits p).
Definition with_fit x p :=
  mk (par p) (slider p) (tmin p) (tmax p) (fix_checked p) x
     (step p) (original_value p) (original_limits p).
Definition with_step x p :=
  mk (par p) (slider p) (tmin p) (tmax p) (fix_checked p) (fit_checked p)
     x (original_value p) (original_limits p).
Definition with_original x l p :=
  mk (par p) (slider p) (tmin p) (tmax p) (fix_checked p) (fit_checked p)
     (step p) x l.

(** The panel without the moving parts of its slider. *)
Definition steady (p : t) : t := with_slider (FloatSlider.steady (slider p)) p.

(** The panel before [__init__] has filled it in. *)
Definition blank (i : nat) : t :=
  mk i FloatSlider.__init__ SpinBox.new SpinBox.new false false 0 0 (0, 0).

Section Methods.

(** The panel lives in a world [W] that also holds the shared minimizer;
    [callback] is the session's change handler. *)
Context {W : Type}.
Variable self : W -> t.
Variable store : t -> W -> W.
Variable minuit : W -> Minuit.t.
Variable store_minuit : Minuit.t -> W -> W.
Variable callback : M W unit.

Definition update (f : t -> t) : M W unit :=
  modify (fun w => store (f (self w)) w).
Definition update_minuit (f : Minuit.t -> Minuit.t) : M W unit :=
  modify (fun w => store_minuit (f (minuit w)) w).

Definition on_val_change (val : float) : M W unit :=
  p <- gets self ;;
  update_minuit (Minuit.set_value (par p) val) ;;
  callback.

(** The slider of the panel, its signal connected to [on_val_change]. *)
Definition the_slider : W -> FloatSlider.t := fun w => slider (self w).
Definition store_slider (s : FloatSlider.t) : W -> W :=
  fun w => store (with_slider s (self w)) w.

Definition slider_setValue := FloatSlider.setValue the_slider store_slider on_val_change.
Definition slider_setMinimum := FloatSlider.setMinimum the_slider store_slider on_val_change.
Definition slider_setMaximum := FloatSlider.setMaximum the_slider store_slider on_val_change.
Definition slider_blockSignals := FloatSlider.blockSignals the_slider store_slider.
Definition slider_setEnabled := FloatSlider.setEnabled the_slider store_slider.

Definition on_min_change : M W unit :=
  p <- gets self ;;
  let tmin_ := SpinBox.value (tmin p) in
  if Py.geb tmin_ (SpinBox.value (tmax p)) then
    update (fun p => with_tmin (SpinBox.blockSignals true (tmin p)) p) ;;
    m <- gets minuit ;;
    update (fun p => with_tmin (SpinBox.setValue (fst (Minuit.limits_at m (par p))) (tmin p)) p) ;;
    update (fun p => with_tmin (SpinBox.blockSignals false (tmin p)) p)
  else
    slider_setMinimum tmin_ ;;
    m <- gets minuit ;;
    let lim := Minuit.limits_at m (par p) in
    update_minuit (Minuit.set_limits (par p) (tmin_, snd lim)).

Definition on_max_change : M W unit :=
  p <- gets self ;;
  let tmax_ := SpinBox.value (tmax p) in
  if tmax_ <=? SpinBox.value (tmin p) then
    update (fun p => with_tmax (SpinBox.blockSignals true (tmax p)) p) ;;
    m <- gets minuit ;;
    update (fun p => with_tmax (SpinBox.setValue (snd (Minuit.limits_at m (par p))) (tmax p)) p) ;;
    update (fun p => with_tmax (SpinBox.blockSignals false (tmax p)) p)
  else
    slider_setMaximum tmax_ ;;
    m <- gets minuit ;;
    let lim := Minuit.limits_at m (par p) in
    update_minuit (Minuit.set_limits (par p) (fst lim, tmax_)).

Definition on_fix_toggled : M W unit :=
  p <- gets self ;;
  update_minuit (Minuit.set_fixed (par p) (fix_checked p)) ;;
  if fix_checked p then update (with_fit false) else ret tt.

Definition on_fit_toggled : M W unit :=
  p <- gets self ;;
  slider_setEnabled (negb (fit_checked p)) ;;
  (if fit_checked p then
     update (with_fix false) ;;
     update_minuit (Minuit.set_fixed (par p) false)
   else ret tt) ;;
  callback.

Definition reset (val : option float) (limits : bool) : M W unit :=
  p <- gets self ;;
  (if limits then
     slider_blockSignals true ;;
     slider_setMinimum (fst (original_limits p)) ;;
     slider_blockSignals true ;;
     slider_setMaximum (snd (original_limits p)) ;;
     update (fun p => with_tmin (SpinBox.blockSignals true (tmin p)) p) ;;
     update (fun p => with_tmin (SpinBox.setValue (fst (original_limits p)) (tmin p)) p) ;;
     update (fun p => with_tmin (SpinBox.blockSignals false (tmin p)) p) ;;
     update (fun p => with_tmax (SpinBox.blockSignals true (tmax p)) p) ;;
     update (fun p => with_tmax (SpinBox.setValue (snd (original_limits p)) (tmax p)) p) ;;
     update (fun p => with_tmax (SpinBox.blockSignals false (tmax p)) p)
   else ret tt) ;;
  let val := match val with Some v => v | None => original_value p end in
  slider_blockSignals true ;;
  slider_setValue val ;;
  update (fun p => with_slider (FloatSlider.with_label (Some val) (slider p)) p) ;;
  slider_blockSignals false.

End Methods.

(** [reset] run on the panel alone: no minimizer, no callback. *)
Definition local_reset (val : option float) (limits : bool) : M t unit :=
  reset (W:=t) (fun p => p) (fun p _ => p)
    (fun _ => Minuit.mk [] [] [] 0) (fun _ p => p) (ret tt) val limits.

(** [__init__]: the panel is its own world while it is built; the
    minimizer is only read, and the slider's signal has no slot yet. *)
Section Init.

Variable minuit : Minuit.t.
Variable i : nat.

Definition init_update (f : t -> t) : M t unit := modify f.
Definition init_slot (x : float) : M t unit := ret tt.
Definition init_store_slider (s : FloatSlider.t) (p : t) : t := with_slider s p.

Definition __init__ : Res t unit :=
  (init_update (fun p => with_tmin (SpinBox.setRange (_make_finite neg_infinity) (_make_finite infinity) (tmin p)) p) ;;
   init_update (fun p => with_tmax (SpinBox.setRange (_make_finite neg_infinity) (_make_finite infinity) (tmax p)) p) ;;
   init_update (with_fix (Minuit.fixed_at minuit i)) ;;
   init_update (with_fit false) ;;
   let val := Minuit.value_at minuit i in
   let '(vmin, vmax) := Minuit.limits_at minuit i in
   let step_ := _guess_initial_step val vmin vmax in
   init_update (with_step step_) ;;
   let vmin2 := if Py.isfinite vmin then vmin else val - 100 * step_ in
   let vmax2 := if Py.isfinite vmax then vmax else val + 100 * step_ in
   init_update (fun p => with_tmin (SpinBox.setValue vmin2 (tmin p)) p) ;;
   init_update (fun p => with_tmin (SpinBox.setSingleStep (1e-1 * (vmax2 - vmin2)) (tmin p)) p) ;;
   init_update (fun p => with_tmax (SpinBox.setValue vmax2 (tmax p)) p) ;;
   init_update (fun p => with_tmax (SpinBox.setSingleStep (1e-1 * (vmax2 - vmin2)) (tmax p)) p) ;;
   init_update (with_original val (vmin2, vmax2)) ;;
   FloatSlider.setMinimum slider init_store_slider init_slot vmin2 ;;
   FloatSlider.setMaximum slider init_store_slider init_slot vmax2 ;;
   FloatSlider.setValue slider init_store_slider init_slot val ;;
   init_update (fun p => with_slider (FloatSlider.with_label (Some val) (slider p)) p) ;;
   init_update (fun p => with_tmin (SpinBox.setMinimum (_make_finite vmin) (tmin p)) p) ;;
   init_update (fun p => with_tmax (SpinBox.setMaximum (_make_finite vmax) (tmax p)) p))
  (blank i).

End Init.

End Panel.

(** ** MainWindow: the session *)

(** What the plot canvas shows after [plot_with_frame]. *)
Inductive Overlay :=
| Blank                                         (* figure cleared *)
| Traceback                                     (* the plot routine raised *)
| FcnText (from_fit : bool) (status : bool).    (* "FCN = ...", and whether
                                                   "success"/"FAILURE" is shown *)

Module MainWindow.

Open Scope float_scope.

(** The window together with the variable [minuit] of the enclosing
    [make_widget], which every method shares.  [fit_calls] is a record of
    the optimizer runs, latest first: the algorithm and the fixed flags
    the minimizer had when it ran. *)
Record t := mk {
  minuit : Minuit.t;
  parameters : list Panel.t;
  algo_choice : Algo;
  update_button : bool;
  results_text : option Minuit.t;     (* the state whose summary is shown *)
  canvas : Overlay;
  original_values : list float;
  original_limits : list (float * float);
  fit_calls : list (Algo * list bool)
}.

Definition with_minuit x w :=
  mk x (parameters w) (algo_choice w) (update_button w) (results_text w)
     (canvas w) (original_values w) (original_limits w) (fit_calls w).
Definition with_parameters x w :=
  mk (minuit w) x (algo_choice w) (update_button w) (results_text w)
     (canvas w) (original_values w) (original_limits w) (fit_calls w).
Definition with_algo_choice x w :=
  mk (minuit w) (parameters w) x (update_button w) (results_text w)
     (canvas w) (original_values w) (original_limits w) (fit_calls w).
Definition with_update_button x w :=
  mk (minuit w) (parameters w) (algo_choice w) x (results_text w)
     (canvas w) (original_values w) (original_limits w) (fit_calls w).
Definition with_results_text x w :=
  mk (minuit w) (parameters w) (algo_choice w) (update_button w) x
     (canvas w) (original_values w) (original_limits w) (fit_calls w).
Definition with_canvas x w :=
  mk (minuit w) (parameters w) (algo_choice w) (update_button w) (results_text w)
     x (original_values w) (original_limits w) (fit_calls w).
Definition with_originals v l w :=
  mk (minuit w) (parameters w) (algo_choice w) (update_button w) (results_text w)
     (canvas w) v l (fit_calls w).
Definition with_fit_calls x w :=
  mk (minuit w) (parameters w) (algo_choice w) (update_button w) (results_text w)
     (canvas w) (original_values w) (original_limits w) x.

(** The [i]-th panel of the window, and writing it back. *)
Definition panel (i : nat) (w : t) : Panel.t := nth i (parameters w) (Panel.blank i).
Definition store_panel (i : nat) (p : Panel.t) (w : t) : t :=
  with_parameters (set_nth i p (parameters w)) w.

Section Methods.

Variable E : External.

Definition update_minuit (f : Minuit.t -> Minuit.t) : M t unit :=
  modify (fun w => with_minuit (f (minuit w)) w).

Definition run (a : Algo) (f : Minuit.t -> Minuit.t) : M t unit :=
  modify (fun w => with_fit_calls ((a, Minuit.fixed (minuit w)) :: fit_calls w) w) ;;
  update_minuit f.

Definition fit : M t bool :=
  a <- gets algo_choice ;;
  match a with
  | Migrad => run Migrad (migrad E) ;; ret true
  | Scipy => run Scipy (scipy E) ;; ret true
  | Simplex => run Simplex (simplex E) ;; ret false
  end.

Definition plot_with_frame (from_fit report_success : bool) : M t unit :=
  m <- gets minuit ;;
  if visualize E m then
    modify (with_canvas (FcnText from_fit (from_fit && report_success)))
  else if raise_on_exception E then raise Py.PlotError
  else modify (with_canvas Traceback).

Definition show_results : M t unit :=
  modify (fun w => with_results_text (Some (minuit w)) w).

(** [x.reset(val=minuit.values[i])] inside [do_fit].  The panel's callback
    is [on_parameter_change], which itself calls [do_fit]; [reset] raises
    its slider's signal only while the signal is blocked, so it never
    reaches the callback (lemma [reset_callback_irrelevant] below), and
    the definition ties the knot with a callback that does nothing. *)
Definition panel_reset (i : nat) (val : option float) (limits : bool) : M t unit :=
  Panel.reset (panel i) (store_panel i) minuit with_minuit (ret tt) val limits.

(** The first lines of [do_fit]: run the fit, refresh every panel. *)
Definition do_fit_refresh : M t bool :=
  report_success <- fit ;;
  n <- gets (fun w => length (parameters w)) ;;
  for_range 0 n (fun i =>
    m <- gets minuit ;;
    panel_reset i (Some (Minuit.value_at m i)) false) ;;
  ret report_success.

Definition on_parameter_change (from_fit report_success : bool) : M t unit :=
  fr <-
    (if negb from_fit then
       ps <- gets parameters ;;
       if existsb Panel.fit_checked ps then
         saved <- gets (fun w => Minuit.fixed (minuit w)) ;;
         for_range 0 (length ps) (fun i =>
           x <- gets (panel i) ;;
           update_minuit (Minuit.set_fixed i (negb (Panel.fit_checked x)))) ;;
         report_success <- do_fit_refresh ;;
         show_results ;;
         update_minuit (Minuit.with_fixed saved) ;;
         ret (true, report_success)
       else ret (from_fit, report_success)
     else
       show_results ;;
       ret (from_fit, report_success)) ;;
  modify (with_canvas Blank) ;;
  plot_with_frame (fst fr) (snd fr).

(** [do_fit(plot)]; it returns [report_success] when [plot] is false and
    [None] otherwise. *)
Definition do_fit (plot : bool) : M t (option bool) :=
  report_success <- do_fit_refresh ;;
  if negb plot then ret (Some report_success)
  else on_parameter_change true report_success ;; ret None.

(** The methods of panel [i], with the session's handler as callback. *)
Definition callback : M t unit := on_parameter_change false false.

Definition on_val_change i := Panel.on_val_change (panel i) minuit with_minuit callback.
Definition on_min_change i := Panel.on_min_change (panel i) (store_panel i) minuit with_minuit callback.
Definition on_max_change i := Panel.on_max_change (panel i) (store_panel i) minuit with_minuit callback.
Definition on_fix_toggled i := Panel.on_fix_toggled (panel i) (store_panel i) minuit with_minuit.
Definition on_fit_toggled i := Panel.on_fit_toggled (panel i) (store_panel i) minuit with_minuit callback.
Definition reset_of i := Panel.reset (panel i) (store_panel i) minuit with_minuit callback.

Definition on_update_button_clicked : M t unit :=
  w <- gets (fun w => w) ;;
  for_range 0 (length (parameters w)) (fun i =>
    FloatSlider.setTracking (Panel.the_slider (panel i)) (Panel.store_slider (panel i) (store_panel i))
      (update_button w)).

Definition on_reset_button_clicked : M t unit :=
  update_minuit (reset E) ;;
  w <- gets (fun w => w) ;;
  update_minuit (Minuit.with_values (original_values w)) ;;
  update_minuit (Minuit.with_limits (original_limits w)) ;;
  for_range 0 (length (parameters w)) (fun i =>
    m <- gets minuit ;;
    panel_reset i (Some (Minuit.value_at m i)) true) ;;
  on_parameter_change false false.

(** [__init__]: one panel per parameter, in the minimizer's order; then
    the snapshot for "Reset" and the first plot. *)
Fixpoint build_panels (m : Minuit.t) (i n : nat) : M (list Panel.t) unit :=
  match n with
  | O => ret tt
  | S n' =>
      fun ps =>
        match Panel.__init__ m i with
        | Ok _ p => build_panels m (S i) n' (ps ++ [p])
        | Raised e _ => Raised e ps
        end
  end.

Definition __init__ (m : Minuit.t) : Res t unit :=
  match build_panels m 0 (Minuit.npar m) [] with
  | Raised e ps => Raised e (mk m ps Migrad true None Blank [] [] [])
  | Ok _ ps =>
      (modify (fun w => with_originals (Minuit.values (minuit w)) (Minuit.limits (minuit w)) w) ;;
       plot_with_frame false true)
      (mk m ps Migrad true None Blank [] [] [])
  end.

(** *** What the user does *)

(** A click on a checkable button flips it, then runs its slot. *)
Definition click_fix (i : nat) : M t unit :=
  modify (fun w => store_panel i (Panel.with_fix (negb (Panel.fix_checked (panel i w))) (panel i w)) w) ;;
  on_fix_toggled i.

Definition click_fit (i : nat) : M t unit :=
  modify (fun w => store_panel i (Panel.with_fit (negb (Panel.fit_checked (panel i w))) (panel i w)) w) ;;
  on_fit_toggled i.

(** Typing [x] into a limit field stores it, to two decimals and within
    the field's range, and runs the slot when the field's value changed. *)
Definition edit_tmin (i : nat) (x : float) : M t unit :=
  p <- gets (panel i) ;;
  let b := SpinBox.setValue x (Panel.tmin p) in
  modify (store_panel i (Panel.with_tmin b p)) ;;
  if (SpinBox.notified b =? SpinBox.notified (Panel.tmin p))%nat then ret tt
  else on_min_change i.

Definition edit_tmax (i : nat) (x : float) : M t unit :=
  p <- gets (panel i) ;;
  let b := SpinBox.setValue x (Panel.tmax p) in
  modify (store_panel i (Panel.with_tmax b p)) ;;
  if (SpinBox.notified b =? SpinBox.notified (Panel.tmax p))%nat then ret tt
  else on_max_change i.

Definition click_fit_button : M t (option bool) := do_fit true.
Definition click_reset_button : M t unit := on_reset_button_clicked.
Definition choose_algo (a : Algo) : M t unit := modify (with_algo_choice a).

(** The toggle events of the panels, and running a sequence of them; an
    exception ends the run. *)
Inductive Toggle := ToggleFix (i : nat) | ToggleFit (i : nat).

Definition toggle (ev : Toggle) : M t unit :=
  match ev with
  | ToggleFix i => click_fix i
  | ToggleFit i => click_fit i
  end.

Fixpoint toggles (evs : list Toggle) : M t unit :=
  match evs with
  | [] => ret tt
  | ev :: evs' => toggle ev ;; toggles evs'
  end.

End Methods.

(** For stating what [fit] does: the method it calls for each choice, and
    the flag it returns. *)
Definition algorithm (E : External) (a : Algo) : Minuit.t -> Minuit.t :=
  match a with
  | Migrad => migrad E
  | Scipy => scipy E
  | Simplex => simplex E
  end.

Definition reports (a : Algo) : bool :=
  match a with
  | Simplex => false
  | _ => true
  end.

(** The fixed flags after the loop of [on_parameter_change] that fixes
    every parameter whose panel is not selected for the fit. *)
Fixpoint opted_out (i n : nat) (ps : list Panel.t) (f : list bool) : list bool :=
  match n with
  | O => f
  | S n' =>
      opted_out (S i) n' ps
        (set_nth i (negb (Panel.fit_checked (nth i ps (Panel.blank i)))) f)
  end.

(** The minimizer's methods leave the fixed flags, or the limits, alone. *)
Definition keeps_fixed (E : External) : Prop :=
  forall a m, Minuit.fixed (algorithm E a m) = Minuit.fixed m.

Definition keeps_limits (E : External) : Prop :=
  forall a m, Minuit.limits (algorithm E a m) = Minuit.limits m.

(** Panel [i] is the panel of parameter [i]. *)
Definition indexed (w : t) : Prop :=
  forall i, i < length (parameters w) -> Panel.par (panel i w) = i.

(** Mutual exclusion: no panel has both "fix" and "fit" checked, and a
    parameter whose panel is checked for the fit is not fixed in the
    minimizer. *)
Definition exclusive (w : t) : Prop :=
  forall i, i < length (parameters w) ->
    Panel.fix_checked (panel i w) && Panel.fit_checked (panel i w) = false /\
    (Panel.fit_checked (panel i w) = true -> Minuit.fixed_at (minuit w) i = false).

(** Everything of the window but its panels. *)
Definition rest (w : t) : t := with_parameters [] w.

End MainWindow.

(** ** More of what the user does *)

Module Events.

Import MainWindow.

Section Events.

Variable E : External.

(** Dragging the slider of panel [i] to the integer position [p]: the
    toolkit moves the integer value and emits [valueChanged(p)], which
    [__init__] connected to [_emit_float_value_changed]; the panel
    connected [floatValueChanged] to [on_val_change].  A disabled slider
    takes no input. *)
Definition drag_slider (i : nat) (p : Z) : M t unit :=
  s <- gets (fun w => Panel.slider (panel i w)) ;;
  if FloatSlider.enabled s then
    FloatSlider.QSlider_setValue (Panel.the_slider (panel i))
      (Panel.store_slider (panel i) (store_panel i)) (on_val_change E i) p
  else ret tt.

(** A click on "Continuous" flips the button, then runs its slot. *)
Definition click_update_button : M t unit :=
  modify (fun w => with_update_button (negb (update_button w)) w) ;;
  on_update_button_clicked.

(** Everything the user can do in the window. *)
Inductive Event :=
| Drag (i : nat) (p : Z)
| EditMin (i : nat) (x : float)
| EditMax (i : nat) (x : float)
| ClickFix (i : nat)
| ClickFit (i : nat)
| ClickFitButton
| ClickReset
| ClickContinuous
| ChooseAlgo (a : Algo).

Definition event (ev : Event) : M t unit :=
  match ev with
  | Drag i p => drag_slider i p
  | EditMin i x => edit_tmin E i x
  | EditMax i x => edit_tmax E i x
  | ClickFix i => click_fix i
  | ClickFit i => click_fit E i
  | ClickFitButton => click_fit_button E ;; ret tt
  | ClickReset => click_reset_button E
  | ClickContinuous => click_update_button
  | ChooseAlgo a => choose_algo a
  end.

(** A session: the events one after the other, each from the state the
    one before left, whether its handler returned or raised. *)
Fixpoint session (evs : list Event) (w : t) : t :=
  match evs with
  | [] => w
  | ev :: evs' => session evs' (final (event ev w))
  end.

End Events.

End Events.

(** ** The spec's formulas and sample inputs *)

Module Spec.

Open Scope float_scope.

(** The spec's conversion: [position = round((value-min)/(max-min) * 1e8)],
    the nearest integer. *)
Definition position (s : FloatSlider.t) (value : float) : option Z :=
  Py.round ((value - FloatSlider._min s) / (FloatSlider._max s - FloatSlider._min s) * 1e8).

End Spec.

Module Sample.

Import FloatSlider.
Open Scope float_scope.

(** A slider as [__init__] leaves it: window [0, 1] at 0.5. *)
Definition slider0 : Alone := mkAlone __init__ [].

(** A slider given the window [-2, 0.1] and then the value 0. *)
Definition slider1 : Alone :=
  final ((setMinimum1 (-2) ;; setMaximum1 0.1 ;; setValue1 0) slider0).

(** A slider given the window [-2, 1], at 0.5. *)
Definition slider2 : Alone := final (fresh (-2) 1).

(** A minimizer with one free parameter at 5, without limits, whose
    [migrad] moves it to 10; the plot routine draws. *)
Definition minuit1 : Minuit.t :=
  Minuit.mk [5] [(neg_infinity, infinity)] [false] 0.

Definition external1 : External :=
  mkExternal (Minuit.with_values [10]) (fun m => m) (fun m => m) (fun m => m)
    (fun _ => true) false.

(** The window [make_widget] opens on it. *)
Definition window1 : MainWindow.t := final (MainWindow.__init__ external1 minuit1).

(** The same window after "Simplex" is chosen and the panel's "fit"
    button is clicked. *)
Definition window1_simplex : MainWindow.t :=
  final ((MainWindow.choose_algo Simplex ;; MainWindow.click_fit external1 0) window1).

(** A minimizer with two parameters, the second within [0, 1] and
    fixed; its methods change nothing. *)
Definition minuit2 : Minuit.t :=
  Minuit.mk [5; 0.5] [(neg_infinity, infinity); (0, 1)] [false; true] 0.

Definition external2 : External :=
  mkExternal (fun m => m) (fun m => m) (fun m => m) (fun m => m) (fun _ => true) false.

Definition window2 : MainWindow.t := final (MainWindow.__init__ external2 minuit2).

End Sample.

(** More sample inputs. *)
Module Cases.

Open Scope float_scope.

(** A minimizer whose Migrad yields nan for its single parameter. *)
Definition external_nan : External :=
  mkExternal (Minuit.with_values [nan]) (fun m => m) (fun m => m) (fun m => m)
    (fun _ => true) false.

(** The window of [Sample.minuit1] with that minimizer, its panel
    checked for the fit. *)
Definition window_nan : MainWindow.t :=
  MainWindow.store_panel 0
    (Panel.with_fit true (MainWindow.panel 0 Sample.window1)) Sample.window1.

(** A minimizer with one parameter at 5 within the limits [2, 8]. *)
Definition minuit3 : Minuit.t := Minuit.mk [5] [(2, 8)] [false] 0.

Definition window3 : MainWindow.t := final (MainWindow.__init__ Sample.external1 minuit3).

End Cases.

(** * Properties *)

(** ** Lists *)

Module ListFacts.

Section SetNth.

Context {A : Type}.

Lemma length_set_nth (i : nat) (x : A) l : length (set_nth i x l) = length l.
Proof.
  revert i. induction l as [|h t IH]; intros [|i]; simpl; auto.
Qed.

Lemma nth_set_nth_same (i : nat) (x d : A) l :
  i < length l -> nth i (set_nth i x l) d = x.
Proof.
  revert i. induction l as [|h t IH]; intros [|i] H; simpl in *; try lia; auto.
  apply IH. lia.
Qed.

Lemma nth_set_nth_other (i j : nat) (x d : A) l :
  i <> j -> nth j (set_nth i x l) d = nth j l d.
Proof.
  revert i j. induction l as [|h t IH]; intros [|i] [|j] H; simpl; auto; try lia.
Qed.

Lemma set_nth_set_nth (i : nat) (x y : A) l :
  set_nth i y (set_nth i x l) = set_nth i y l.
Proof.
  revert i. induction l as [|h t IH]; intros [|i]; simpl; auto.
  rewrite IH. reflexivity.
Qed.

Lemma set_nth_nth (i : nat) (d : A) l : set_nth i (nth i l d) l = l.
Proof.
  revert i. induction l as [|h t IH]; intros [|i]; simpl; auto.
  rewrite IH. reflexivity.
Qed.

Lemma map_set_nth {B} (f : A -> B) (i : nat) (x d : A) l :
  f x = f (nth i l d) -> map f (set_nth i x l) = map f l.
Proof.
  revert i. induction l as [|h t IH]; intros [|i] H; simpl in *; auto.
  - rewrite H. reflexivity.
  - rewrite IH; auto.
Qed.

Lemma set_nth_beyond (i : nat) (x : A) l : length l <= i -> set_nth i x l = l.
Proof.
  revert i. induction l as [|h t IH]; intros [|i] H; simpl in *; auto; try lia.
  rewrite IH by lia. reflexivity.
Qed.

Lemma nth_set_nth_default (i : nat) (x : A) l : nth i (set_nth i x l) x = x.
Proof.
  revert i. induction l as [|h t IH]; intros [|i]; simpl; auto.
Qed.

End SetNth.

End ListFacts.

(** ** Rules for specifications *)

Module Logic.

Section Rules.

Context {W : Type}.

Lemma hoare_ret {A} (P : W -> Prop) (a : A) (Q : A -> W -> Prop) X :
  (forall w, P w -> Q a w) -> hoare P (ret a) Q X.
Proof. intros H w Hw. simpl. auto. Qed.

Lemma hoare_bind {A B} (P : W -> Prop) (c : M W A) (k : A -> M W B)
    (R : A -> W -> Prop) (Q : B -> W -> Prop) X :
  hoare P c R X -> (forall a, hoare (R a) (k a) Q X) ->
  hoare P (bind c k) Q X.
Proof.
  intros Hc Hk w Hw. unfold bind. specialize (Hc w Hw).
  destruct (c w) as [a w'|e w']; [apply (Hk a w' Hc) | exact Hc].
Qed.

Lemma hoare_gets {A} (P : W -> Prop) (f : W -> A) (Q : A -> W -> Prop) X :
  (forall w, P w -> Q (f w) w) -> hoare P (gets f) Q X.
Proof. intros H w Hw. simpl. auto. Qed.

Lemma hoare_modify (P : W -> Prop) (f : W -> W) (Q : unit -> W -> Prop) X :
  (forall w, P w -> Q tt (f w)) -> hoare P (modify f) Q X.
Proof. intros H w Hw. simpl. auto. Qed.

Lemma hoare_raise {A} (P : W -> Prop) e (Q : A -> W -> Prop) (X : W -> Prop) :
  (forall w, P w -> X w) -> hoare P (raise e) Q X.
Proof. intros H w Hw. simpl. auto. Qed.

Lemma hoare_conseq {A} (P P' : W -> Prop) (c : M W A)
    (Q Q' : A -> W -> Prop) (X X' : W -> Prop) :
  hoare P' c Q' X' ->
  (forall w, P w -> P' w) -> (forall a w, Q' a w -> Q a w) ->
  (forall w, X' w -> X w) ->
  hoare P c Q X.
Proof.
  intros H HP HQ HX w Hw. specialize (H w (HP w Hw)).
  destruct (c w); auto.
Qed.

Lemma hoare_pre {A} (P : W -> Prop) (c : M W A) Q X :
  (forall w, P w -> hoare (fun w' => w' = w) c Q X) -> hoare P c Q X.
Proof. intros H w Hw. exact (H w Hw w eq_refl). Qed.

(** The rules for [preserves]. *)
Lemma preserves_ret {A} (P : W -> Prop) (a : A) : preserves P (ret a).
Proof. apply hoare_ret. auto. Qed.

Lemma preserves_bind {A B} (P : W -> Prop) (c : M W A) (k : A -> M W B) :
  preserves P c -> (forall a, preserves P (k a)) -> preserves P (bind c k).
Proof. intros Hc Hk. eapply hoare_bind; [exact Hc | exact Hk]. Qed.

Lemma preserves_gets {A} (P : W -> Prop) (f : W -> A) : preserves P (gets f).
Proof. apply hoare_gets. auto. Qed.

Lemma preserves_raise {A} (P : W -> Prop) e : preserves P (@raise W A e).
Proof. apply hoare_raise. auto. Qed.

Lemma preserves_modify (P : W -> Prop) (f : W -> W) :
  (forall w, P w -> P (f w)) -> preserves P (modify f).
Proof. intros H. apply hoare_modify. exact H. Qed.

Lemma preserves_if {A} (P : W -> Prop) (b : bool) (c1 c2 : M W A) :
  preserves P c1 -> preserves P c2 -> preserves P (if b then c1 else c2).
Proof. destruct b; auto. Qed.

Lemma preserves_contained {A} (P : W -> Prop) (c : M W A) :
  preserves P c -> preserves P (contained c).
Proof. intros H w Hw. specialize (H w Hw). unfold contained. destruct (c w); exact H. Qed.

Lemma final_contained {A} (c : M W A) w : final (contained c w) = final (c w).
Proof. unfold contained. destruct (c w); reflexivity. Qed.

Lemma preserves_for_range (P : W -> Prop) (body : nat -> M W unit) n :
  (forall j, preserves P (body j)) -> forall i, preserves P (for_range i n body).
Proof.
  intros Hb. induction n as [|n IH]; intros i; simpl.
  - apply preserves_ret.
  - apply preserves_bind; [apply Hb | intros u; apply IH].
Qed.

Lemma preserves_final {A} (P : W -> Prop) (c : M W A) w :
  preserves P c -> P w -> P (final (c w)).
Proof. intros H Hw. specialize (H w Hw). destruct (c w); exact H. Qed.

(** A loop whose body takes [I j] to [I (S j)]. *)
Lemma hoare_for_range (I : nat -> W -> Prop) (X : W -> Prop)
    (body : nat -> M W unit) n :
  forall i,
  (forall j, i <= j < n + i -> hoare (I j) (body j) (fun _ => I (S j)) X) ->
  hoare (I i) (for_range i n body) (fun _ => I (n + i)) X.
Proof.
  induction n as [|n IH]; intros i Hb; simpl.
  - apply hoare_ret. auto.
  - eapply hoare_bind; [apply Hb; lia|]. intros u. simpl.
    eapply hoare_conseq; [apply (IH (S i)) | auto | | auto].
    + intros j Hj. apply Hb. lia.
    + intros u' w Hw. simpl in *. replace (S (n + i)) with (n + S i) by lia. exact Hw.
Qed.

Lemma preserves_for_range_upto (P : W -> Prop) (body : nat -> M W unit) n :
  forall i,
  (forall j, i <= j < n + i -> preserves P (body j)) ->
  preserves P (for_range i n body).
Proof.
  induction n as [|n IH]; intros i Hb; simpl.
  - apply preserves_ret.
  - apply preserves_bind; [apply Hb; lia | intros u; apply IH].
    intros j Hj. apply Hb. lia.
Qed.

Lemma final_bind_modify {B} (f : W -> W) (k : unit -> M W B) w :
  final (bind (modify f) k w) = final (k tt (f w)).
Proof. reflexivity. Qed.

(** Methods that cannot raise. *)
Definition total {A} (c : M W A) : Prop := forall w, returned (c w) = true.

Lemma total_ret {A} (a : A) : total (ret a).
Proof. intros w. reflexivity. Qed.

Lemma total_gets {A} (f : W -> A) : total (gets f).
Proof. intros w. reflexivity. Qed.

Lemma total_modify (f : W -> W) : total (modify f).
Proof. intros w. reflexivity. Qed.

Lemma total_contained {A} (c : M W A) : total (contained c).
Proof. intros w. unfold contained. destruct (c w); reflexivity. Qed.

Lemma total_bind {A B} (c : M W A) (k : A -> M W B) :
  total c -> (forall a, total (k a)) -> total (bind c k).
Proof.
  intros Hc Hk w. unfold bind. specialize (Hc w).
  destruct (c w); [apply Hk | discriminate].
Qed.

Lemma total_if {A} (b : bool) (c d : M W A) :
  total c -> total d -> total (if b then c else d).
Proof. destruct b; auto. Qed.

Lemma returned_bind_total {A B} (c : M W A) (k : A -> M W B) w :
  (forall a, total (k a)) -> returned (bind c k w) = returned (c w).
Proof. intros Hk. unfold bind. destruct (c w); [apply Hk | reflexivity]. Qed.

End Rules.

Create HintDb preserve.
#[export] Hint Resolve preserves_ret preserves_bind preserves_gets
  preserves_raise preserves_if : preserve.

End Logic.

(** ** Order on floats *)

Module FloatFacts.

Open Scope float_scope.

Lemma SFcompare_antisym (x y : spec_float) :
  SFcompare y x = option_map CompOpp (SFcompare x y).
Proof.
  destruct x as [sx|sx| |sx mx ex], y as [sy|sy| |sy my ey]; simpl;
    try reflexivity;
    try (destruct sx; reflexivity); try (destruct sy; reflexivity);
    try (destruct sx, sy; reflexivity).
  destruct sx, sy; simpl; try reflexivity;
    rewrite (Z.compare_antisym ey ex);
    destruct (ey ?= ex)%Z; simpl; try reflexivity;
    rewrite (Pos.compare_cont_antisym mx my Eq); simpl;
    try rewrite CompOpp_involutive; reflexivity.
Qed.

(** [a <= b] excludes [b < a]. *)
Lemma leb_not_gtb (a b : float) : (a <=? b) = true -> (b <? a) = false.
Proof.
  rewrite FloatAxioms.leb_spec, FloatAxioms.ltb_spec. unfold SFleb, SFltb.
  rewrite (SFcompare_antisym (Prim2SF a) (Prim2SF b)).
  destruct (SFcompare (Prim2SF a) (Prim2SF b)) as [[ | | ]|]; simpl; congruence.
Qed.

(** [a < b] excludes [b <= a]. *)
Lemma ltb_not_geb (a b : float) : (a <? b) = true -> (b <=? a) = false.
Proof.
  rewrite FloatAxioms.leb_spec, FloatAxioms.ltb_spec. unfold SFleb, SFltb.
  rewrite (SFcompare_antisym (Prim2SF a) (Prim2SF b)).
  destruct (SFcompare (Prim2SF a) (Prim2SF b)) as [[ | | ]|]; simpl; congruence.
Qed.

Lemma SFcompare_refl (x : spec_float) : x <> S754_nan -> SFcompare x x = Some Eq.
Proof.
  destruct x as [s|s| |s m e]; simpl; intros H; try congruence.
  - destruct s; reflexivity.
  - destruct s; rewrite Z.compare_refl, Pos.compare_cont_refl; reflexivity.
Qed.

Lemma not_nan_SF (x : float) : (x =? x) = true -> Prim2SF x <> S754_nan.
Proof.
  rewrite FloatAxioms.eqb_spec. unfold SFeqb. intros H E. rewrite E in H. discriminate.
Qed.

(** The right-hand side of a true [<] is a number. *)
Lemma ltb_not_nan_r (a b : float) : (a <? b) = true -> (b =? b) = true.
Proof.
  rewrite FloatAxioms.ltb_spec, FloatAxioms.eqb_spec. unfold SFltb, SFeqb.
  destruct (Prim2SF b) as [s|s| |s m e] eqn:E.
  - reflexivity.
  - destruct s; reflexivity.
  - destruct (Prim2SF a); simpl; discriminate.
  - intros _. rewrite SFcompare_refl; [reflexivity | discriminate].
Qed.

Lemma is_finite_SF (x : float) :
  is_finite x = true ->
  (exists s, Prim2SF x = S754_zero s) \/ (exists s m e, Prim2SF x = S754_finite s m e).
Proof.
  unfold is_finite, is_nan, is_infinity.
  rewrite negb_true_iff, orb_false_iff, negb_false_iff.
  intros [Hn Hi]. rewrite FloatAxioms.eqb_spec in Hi.
  rewrite FloatAxioms.abs_spec in Hi.
  apply not_nan_SF in Hn.
  destruct (Prim2SF x) as [s|s| |s m e]; eauto; try congruence.
  simpl in Hi. vm_compute in Hi. discriminate.
Qed.

(** The integer position 0 maps back onto the lower bound when the width
    of the window is a finite number. *)
Lemma low_image (lo hi : float) :
  (lo =? lo) = true -> is_finite (hi - lo) = true ->
  (lo + (Py.float_of_int 0 / 1e8) * (hi - lo) =? lo) = true.
Proof.
  intros Hn Hf. change (Py.float_of_int 0 / 1e8) with 0.
  rewrite FloatAxioms.eqb_spec, FloatAxioms.add_spec, FloatAxioms.mul_spec.
  apply not_nan_SF in Hn.
  change (Prim2SF 0) with (S754_zero false).
  unfold SF64add, SF64mul, SFeqb.
  destruct (@is_finite_SF _ Hf) as [[s E]|[s [m [e E]]]]; rewrite E; simpl;
    destruct (Prim2SF lo) as [sl|sl| |sl ml el] eqn:El; try congruence;
    try (destruct sl, s; simpl; reflexivity);
    try (rewrite SFcompare_refl; [reflexivity | discriminate]).
Qed.

(** [int] is the integer part of the exact value. *)
Lemma int_trunc (x : float) (q : Q) :
  Py.to_Q x = Some q -> Py.int x = inr (Py.Qtrunc q).
Proof.
  unfold Py.to_Q, Py.int, Py.Qtrunc.
  destruct (Prim2SF x) as [s|s| |s m e]; try discriminate.
  - intros H; injection H as <-. reflexivity.
  - intros H; injection H as <-.
    destruct (0 <=? e)%Z eqn:He.
    + destruct s; simpl; rewrite ?Z.quot_1_r; reflexivity.
    + apply Z.leb_gt in He.
      assert (Hp : (0 < 2 ^ (- e))%Z) by (apply Z.pow_pos_nonneg; lia).
      assert (Hs : Z.shiftr (Z.pos m) (- e) = (Z.pos m ÷ 2 ^ (- e))%Z).
      { rewrite Z.shiftr_div_pow2 by lia.
        symmetry. apply Z.quot_div_nonneg; lia. }
      destruct s; simpl; rewrite Z2Pos.id by exact Hp.
      * change (Z.neg m) with (- Z.pos m)%Z.
        rewrite Z.quot_opp_l by lia. rewrite Hs. reflexivity.
      * rewrite Hs. reflexivity.
Qed.

End FloatFacts.

(** ** The slider inside a world *)

Module SliderLogic.

Import FloatSlider Logic.
Open Scope float_scope.

Ltac keeps_with leaf :=
  repeat first
    [ leaf
    | apply preserves_ret | apply preserves_gets | apply preserves_raise
    | apply preserves_bind | apply preserves_if | apply preserves_contained
    | match goal with
      | |- preserves _ (match ?x with _ => _ end) => destruct x
      | |- forall _, _ => intro
      end ].

(** What [setValue] keeps: any property of the world that moving the
    slider's value keeps and that the connected slot keeps. *)
Section Frame.

Context {W : Type}.
Variable self : W -> t.
Variable store : t -> W -> W.
Variable slot : float -> M W unit.
Variable P : W -> Prop.
Hypothesis Hstore :
  forall f w, (forall s, steady (f s) = steady s) -> P w -> P (store (f (self w)) w).
Hypothesis Hslot : forall x, preserves P (slot x).

Lemma update_keeps f :
  (forall s, steady (f s) = steady s) -> preserves P (update self store f).
Proof. intros Hf. apply preserves_modify. intros w Hw. apply Hstore; assumption. Qed.

Lemma emit_keeps x : preserves P (emit_floatValueChanged self slot x).
Proof. unfold emit_floatValueChanged. keeps_with ltac:(apply Hslot). Qed.

Lemma _emit_float_value_changed_keeps p :
  preserves P (_emit_float_value_changed self store slot p).
Proof.
  unfold _emit_float_value_changed, _int_to_float.
  keeps_with ltac:(first [(apply update_keeps; intros []; reflexivity) | apply emit_keeps]).
Qed.

Lemma QSlider_setValue_keeps p : preserves P (QSlider_setValue self store slot p).
Proof.
  unfold QSlider_setValue.
  keeps_with ltac:(first [(apply update_keeps; intros []; reflexivity) | apply _emit_float_value_changed_keeps]).
Qed.

Lemma setValue_keeps v : preserves P (setValue self store slot v).
Proof.
  unfold setValue, _float_to_int, blockSignals.
  keeps_with ltac:(first [ (apply update_keeps; intros []; reflexivity) | apply QSlider_setValue_keeps
                         | apply _emit_float_value_changed_keeps ]).
Qed.

End Frame.

(** What every method of the slider keeps: any property of the world that
    does not look at the slider. *)
Section FrameAll.

Context {W : Type}.
Variable self : W -> t.
Variable store : t -> W -> W.
Variable slot : float -> M W unit.
Variable P : W -> Prop.
Hypothesis Hstore : forall s w, P w -> P (store s w).
Hypothesis Hslot : forall x, preserves P (slot x).

Lemma setValue_keeps_all v : preserves P (setValue self store slot v).
Proof. apply setValue_keeps; [intros f w _ Hw; apply Hstore, Hw | exact Hslot]. Qed.

Lemma setMinimum_keeps_all v : preserves P (setMinimum self store slot v).
Proof.
  unfold setMinimum.
  keeps_with ltac:(first [ apply setValue_keeps_all
                         | apply preserves_modify; intros w Hw; apply Hstore, Hw ]).
Qed.

Lemma setMaximum_keeps_all v : preserves P (setMaximum self store slot v).
Proof.
  unfold setMaximum.
  keeps_with ltac:(first [ apply setValue_keeps_all
                         | apply preserves_modify; intros w Hw; apply Hstore, Hw ]).
Qed.

End FrameAll.

(** With its signals blocked, a slider held by an object [V] of the world
    runs as it would on [V] alone: no slot is reached. *)
Section Zoom.

Context {W V : Type}.
Variable get : W -> V.
Variable put : V -> W -> W.

(** The worlds [D] in which the object is really there: what is written
    can be read back. *)
Variable D : W -> Prop.
Hypothesis D_put : forall v w, D w -> D (put v w).
Hypothesis get_put : forall v w, D w -> get (put v w) = v.
Hypothesis put_put : forall v v' w, put v' (put v w) = put v' w.
Hypothesis put_get : forall w, put (get w) w = w.

Lemma zoom_bind {A B} (c : M W A) (l : M V A) (k : A -> M W B) (kl : A -> M V B) w :
  D w ->
  c w = zoom get put l w ->
  (forall a v, l (get w) = Ok a v -> k a (put v w) = zoom get put (kl a) (put v w)) ->
  bind c k w = zoom get put (bind l kl) w.
Proof.
  unfold bind, zoom. intros Hd Hc Hk. rewrite Hc. unfold zoom.
  destruct (l (get w)) as [a v|e v] eqn:E; [|reflexivity].
  rewrite (Hk a v eq_refl). unfold zoom. rewrite get_put by exact Hd.
  destruct (kl a v); rewrite put_put; reflexivity.
Qed.

Lemma zoom_ret {A} (a : A) w : ret a w = zoom get put (ret a) w.
Proof. unfold zoom, ret. rewrite put_get. reflexivity. Qed.

Lemma zoom_gets {A} (f : V -> A) w :
  gets (fun w => f (get w)) w = zoom get put (gets f) w.
Proof. unfold zoom, gets. rewrite put_get. reflexivity. Qed.

Lemma zoom_modify (f : V -> V) w :
  modify (fun w => put (f (get w)) w) w = zoom get put (modify f) w.
Proof. reflexivity. Qed.

Variable selfV : V -> t.
Variable storeV : t -> V -> V.
Hypothesis selfV_storeV : forall s v, selfV (storeV s v) = s.

Definition selfW : W -> t := fun w => selfV (get w).
Definition storeW : t -> W -> W := fun s w => put (storeV s (get w)) w.

Variable slotW : float -> M W unit.
Variable slotV : float -> M V unit.

(** [sim c l]: from a world whose slider is blocked, the method [c] of the
    world runs as [l] on the object.  [stays l]: [l] returns with the
    slider still blocked. *)
Definition blockedV (v : V) : Prop := signalsBlocked (selfV v) = true.
Definition sim {A} (c : M W A) (l : M V A) : Prop :=
  forall w, D w -> blockedV (get w) -> c w = zoom get put l w.
Definition stays {A} (l : M V A) : Prop :=
  hoare blockedV l (fun _ => blockedV) blockedV.

Lemma sim_bind {A B} (c : M W A) (l : M V A) (k : A -> M W B) (kl : A -> M V B) :
  sim c l -> stays l -> (forall a, sim (k a) (kl a)) -> sim (bind c k) (bind l kl).
Proof.
  intros Hc Hs Hk w Hd Hw. apply zoom_bind; [exact Hd | apply Hc; assumption|].
  intros a v E. apply Hk; [apply D_put, Hd|]. rewrite get_put by exact Hd.
  specialize (Hs (get w) Hw). rewrite E in Hs. exact Hs.
Qed.

Lemma sim_ret {A} (a : A) : sim (ret a) (ret a).
Proof. intros w _ _. apply zoom_ret. Qed.

Lemma sim_raise {A} e : sim (@raise W A e) (raise e).
Proof. intros w _ _. unfold zoom, raise. rewrite put_get. reflexivity. Qed.

Lemma sim_gets {A} (f : t -> A) :
  sim (gets (fun w => f (selfW w))) (gets (fun v => f (selfV v))).
Proof. intros w _ _. apply (zoom_gets (fun v => f (selfV v))). Qed.

Lemma sim_update f : sim (update selfW storeW f) (update selfV storeV f).
Proof. intros w _ _. reflexivity. Qed.

Lemma sim_if {A} (b : bool) (c1 c2 : M W A) (l1 l2 : M V A) :
  sim c1 l1 -> sim c2 l2 -> sim (if b then c1 else c2) (if b then l1 else l2).
Proof. destruct b; auto. Qed.

Lemma sim_contained {A} (c : M W A) (l : M V A) :
  sim c l -> sim (contained c) (contained l).
Proof.
  intros H w Hd Hw. unfold contained. rewrite (H w Hd Hw). unfold zoom.
  destruct (l (get w)); reflexivity.
Qed.

Lemma stays_contained {A} (l : M V A) : stays l -> stays (contained l).
Proof.
  intros H v Hv. specialize (H v Hv). unfold contained. destruct (l v); exact H.
Qed.

Lemma stays_ret {A} (a : A) : stays (ret a).
Proof. apply Logic.hoare_ret. auto. Qed.

Lemma stays_raise {A} e : stays (@raise V A e).
Proof. apply Logic.hoare_raise. auto. Qed.

Lemma stays_gets {A} (f : V -> A) : stays (gets f).
Proof. apply Logic.hoare_gets. auto. Qed.

Lemma stays_bind {A B} (l : M V A) (kl : A -> M V B) :
  stays l -> (forall a, stays (kl a)) -> stays (bind l kl).
Proof. intros H1 H2. eapply Logic.hoare_bind; [exact H1 | exact H2]. Qed.

Lemma stays_if {A} (b : bool) (l1 l2 : M V A) :
  stays l1 -> stays l2 -> stays (if b then l1 else l2).
Proof. destruct b; auto. Qed.

Lemma stays_update f :
  (forall s, signalsBlocked (f s) = signalsBlocked s) ->
  stays (update selfV storeV f).
Proof.
  intros Hf. apply Logic.hoare_modify. unfold blockedV. intros v Hv.
  rewrite selfV_storeV, Hf. exact Hv.
Qed.

Lemma stays_block : stays (blockSignals selfV storeV true).
Proof.
  apply Logic.hoare_modify. unfold blockedV. intros v _.
  rewrite selfV_storeV. reflexivity.
Qed.

Lemma sim_emit x :
  sim (emit_floatValueChanged selfW slotW x) (emit_floatValueChanged selfV slotV x).
Proof.
  intros w _ Hw. unfold emit_floatValueChanged, bind, gets, zoom, selfW.
  unfold blockedV in Hw. rewrite Hw. unfold ret. rewrite put_get. reflexivity.
Qed.

Lemma stays_emit x : stays (emit_floatValueChanged selfV slotV x).
Proof.
  intros v Hv. unfold emit_floatValueChanged, bind, gets.
  unfold blockedV in Hv. rewrite Hv. exact Hv.
Qed.

Ltac sim_steps :=
  repeat first
    [ apply sim_ret | apply sim_raise | apply sim_update | apply sim_emit
    | apply sim_contained | apply stays_contained
    | apply (sim_gets (fun s => s)) | apply (sim_gets _value)
    | apply sim_if
    | apply sim_bind
    | apply stays_ret | apply stays_raise | apply stays_gets | apply stays_emit
    | apply stays_block | apply stays_if | apply stays_bind
    | apply stays_update; intros []; reflexivity
    | match goal with
      | |- sim (match ?x with _ => _ end) _ => destruct x
      | |- stays (match ?x with _ => _ end) => destruct x
      | |- forall _, _ => intro
      end ].

Lemma sim__emit_float_value_changed p :
  sim (_emit_float_value_changed selfW storeW slotW p)
      (_emit_float_value_changed selfV storeV slotV p).
Proof. unfold _emit_float_value_changed, _int_to_float. sim_steps. Qed.

Lemma stays__emit_float_value_changed p :
  stays (_emit_float_value_changed selfV storeV slotV p).
Proof. unfold _emit_float_value_changed, _int_to_float. sim_steps. Qed.

Lemma sim_QSlider_setValue p :
  sim (QSlider_setValue selfW storeW slotW p) (QSlider_setValue selfV storeV slotV p).
Proof.
  unfold QSlider_setValue.
  repeat first [ apply sim__emit_float_value_changed | progress sim_steps ].
Qed.

Lemma stays_QSlider_setValue p : stays (QSlider_setValue selfV storeV slotV p).
Proof.
  unfold QSlider_setValue.
  repeat first [ apply stays__emit_float_value_changed | progress sim_steps ].
Qed.

Lemma setValue_sim v :
  sim (setValue selfW storeW slotW v) (setValue selfV storeV slotV v).
Proof.
  unfold setValue, _float_to_int, blockSignals.
  repeat first [ apply sim__emit_float_value_changed | apply sim_QSlider_setValue
               | apply stays_QSlider_setValue | progress sim_steps ].
Qed.

Lemma setMinimum_sim v :
  sim (setMinimum selfW storeW slotW v) (setMinimum selfV storeV slotV v).
Proof.
  unfold setMinimum. repeat first [ apply setValue_sim | progress sim_steps ].
Qed.

Lemma setMaximum_sim v :
  sim (setMaximum selfW storeW slotW v) (setMaximum selfV storeV slotV v).
Proof.
  unfold setMaximum. repeat first [ apply setValue_sim | progress sim_steps ].
Qed.

(** The same without the assumption that the slider is blocked. *)
Definition simU {A} (c : M W A) (l : M V A) : Prop :=
  forall w, D w -> c w = zoom get put l w.

Lemma simU_bind {A B} (c : M W A) (l : M V A) (k : A -> M W B) (kl : A -> M V B) :
  simU c l -> (forall a, simU (k a) (kl a)) -> simU (bind c k) (bind l kl).
Proof.
  intros Hc Hk w Hd. apply zoom_bind; [exact Hd | apply Hc, Hd|].
  intros a v _. apply Hk, D_put, Hd.
Qed.

Lemma sim_bindU {A B} (c : M W A) (l : M V A) (k : A -> M W B) (kl : A -> M V B) :
  sim c l -> (forall a, simU (k a) (kl a)) -> sim (bind c k) (bind l kl).
Proof.
  intros Hc Hk w Hd Hw. apply zoom_bind; [exact Hd | apply Hc; assumption|].
  intros a v _. apply Hk, D_put, Hd.
Qed.

Lemma simU_block {B} (k : M W B) (kl : M V B) :
  sim k kl ->
  simU (bind (blockSignals selfW storeW true) (fun _ => k))
       (bind (blockSignals selfV storeV true) (fun _ => kl)).
Proof.
  intros Hk w Hd. apply zoom_bind; [exact Hd | reflexivity|].
  intros [] v E. apply Hk; [apply D_put, Hd|]. rewrite get_put by exact Hd.
  injection E as <-. unfold blockedV. rewrite selfV_storeV. reflexivity.
Qed.

Lemma simU_ret {A} (a : A) : simU (ret a) (ret a).
Proof. intros w _. apply zoom_ret. Qed.

Lemma simU_gets {A} (f : V -> A) : simU (gets (fun w => f (get w))) (gets f).
Proof. intros w _. apply zoom_gets. Qed.

Lemma simU_modify (f : V -> V) : simU (modify (fun w => put (f (get w)) w)) (modify f).
Proof. intros w _. reflexivity. Qed.

End Zoom.

End SliderLogic.

(** ** The panel inside a world *)

Module PanelLogic.

Import Logic SliderLogic.
Open Scope float_scope.

Section Reset.

Context {W : Type}.
Variable self : W -> Panel.t.
Variable store : Panel.t -> W -> W.
Variable minuit : W -> Minuit.t.
Variable store_minuit : Minuit.t -> W -> W.
Variable callback : M W unit.
Variable D : W -> Prop.
Hypothesis D_put : forall v w, D w -> D (store v w).
Hypothesis get_put : forall v w, D w -> self (store v w) = v.
Hypothesis put_put : forall v v' w, store v' (store v w) = store v' w.
Hypothesis put_get : forall w, store (self w) w = w.

(** [reset] never reaches the callback: in any world it runs as it does
    on the panel alone. *)
Lemma reset_zoom val limits w :
  D w ->
  Panel.reset self store minuit store_minuit callback val limits w
  = zoom self store (Panel.local_reset val limits) w.
Proof.
  revert w. change (simU self store D
    (Panel.reset self store minuit store_minuit callback val limits)
    (Panel.local_reset val limits)).
  unfold Panel.local_reset, Panel.reset.
  apply simU_bind; [exact D_put | exact get_put | exact put_put
                   | apply (simU_gets put_get (fun p => p)) | intros p].
  assert (Hss : forall s v, Panel.slider (Panel.with_slider s v) = s) by reflexivity.
  apply simU_bind; [exact D_put | exact get_put | exact put_put | | intros u].
  - destruct limits; [|apply simU_ret, put_get].
    apply (simU_block D_put get_put put_put Hss).
    apply sim_bindU; [exact D_put | exact get_put | exact put_put
                     | apply (setMinimum_sim D_put get_put put_put put_get Hss) | intros u].
    apply (simU_block D_put get_put put_put Hss).
    apply sim_bindU; [exact D_put | exact get_put | exact put_put
                     | apply (setMaximum_sim D_put get_put put_put put_get Hss) | intros u1].
    repeat (apply simU_bind; [exact D_put | exact get_put | exact put_put
                             | (unfold simU; intros; reflexivity) | intros ?]).
    (unfold simU; intros; reflexivity).
  - apply (simU_block D_put get_put put_put Hss).
    apply sim_bindU; [exact D_put | exact get_put | exact put_put
                     | apply (setValue_sim D_put get_put put_put put_get Hss) | intros u1].
    apply simU_bind; [exact D_put | exact get_put | exact put_put | (unfold simU; intros; reflexivity) | intros u2].
    (unfold simU; intros; reflexivity).
Qed.

End Reset.

(** [reset] on the panel alone. *)

Ltac run_local :=
  unfold Panel.local_reset, Panel.reset, Panel.slider_blockSignals,
    Panel.slider_setValue, Panel.slider_setMinimum, Panel.slider_setMaximum,
    Panel.update, Panel.the_slider, Panel.store_slider,
    FloatSlider.setValue, FloatSlider.setMinimum, FloatSlider.setMaximum,
    FloatSlider.QSlider_setValue, FloatSlider._emit_float_value_changed,
    FloatSlider.emit_floatValueChanged, FloatSlider._float_to_int,
    FloatSlider._int_to_float, FloatSlider.blockSignals, FloatSlider.update,
    bind, gets, modify, ret, raise, Py.gtb, Py.geb; simpl.

Ltac split_ifs :=
  repeat (match goal with
          | |- context [if ?b then _ else _] => destruct b eqn:?
          | |- context [match Py.int ?x with _ => _ end] => destruct (Py.int x) eqn:?
          end; simpl).

(** [reset(val=v)]: the slider takes [v] brought into its window, the
    label shows [v], and nothing else of the panel changes. *)
Lemma local_reset_value (v : float) (p : Panel.t) :
  match Panel.local_reset (Some v) false p with
  | Ok _ p' =>
      Panel.steady p' = Panel.steady p /\
      FloatSlider._value (Panel.slider p') = FloatSlider.clamp (Panel.slider p) v /\
      FloatSlider._label (Panel.slider p') = Some v /\
      FloatSlider.signalsBlocked (Panel.slider p') = false
  | Raised _ p' => Panel.steady p' = Panel.steady p
  end.
Proof.
  destruct p as [i [q b en tr lo hi x l] tmn tmx fx ft st ov ol].
  run_local. unfold FloatSlider.clamp. simpl.
  destruct (v <? lo) eqn:H1; simpl.
  { split_ifs; auto. }
  destruct (hi <? v) eqn:H2; simpl.
  { split_ifs; auto. }
  split_ifs; auto.
Qed.

(** [reset(val=v, limits=True)] on the panel alone, step by step. *)
Section LocalResetLimits.

Import FloatSlider.

Variable p0 : Panel.t.

(** The panels that differ from [p0] in the limit fields, the slider's
    window (now [lo], [hi]) and the slider's moving parts. *)
Definition shaped (lo hi : float) (tmn tmx : SpinBox.t) (p : Panel.t) : Prop :=
  p = Panel.mk (Panel.par p0)
        (mk (int_value (Panel.slider p)) (signalsBlocked (Panel.slider p))
            (enabled (Panel.slider p0)) (tracking (Panel.slider p0))
            lo hi (_value (Panel.slider p)) (_label (Panel.slider p)))
        tmn tmx (Panel.fix_checked p0) (Panel.fit_checked p0)
        (Panel.step p0) (Panel.original_value p0) (Panel.original_limits p0).

Definition blocked (p : Panel.t) : Prop := signalsBlocked (Panel.slider p) = true.

Definition shapely (p : Panel.t) : Prop :=
  exists lo hi tmn tmx, shaped lo hi tmn tmx p.

Local Abbreviation self0 := (fun p : Panel.t => p).
Local Abbreviation store0 := (fun (p : Panel.t) (_ : Panel.t) => p).
Local Abbreviation minuit0 := (fun _ : Panel.t => Minuit.mk [] [] [] 0).
Local Abbreviation store_minuit0 := (fun (_ : Minuit.t) (p : Panel.t) => p).

Ltac open_shaped p H Hb :=
  intros p [H Hb];
  destruct p as [i [q b en tr lo1 hi1 x l] tmn1 tmx1 fx ft st ov ol];
  unfold shaped, blocked in *; simpl in *;
  injection H as -> -> -> -> -> -> -> -> -> -> -> ->; subst b;
  unfold hoare, shaped.

Ltac done_shaped :=
  cbv beta; unfold shapely, shaped; simpl;
  first [ reflexivity | split; reflexivity
        | do 4 eexists; simpl; reflexivity ].

Lemma shaped_shapely lo hi tmn tmx p : shaped lo hi tmn tmx p -> shapely p.
Proof. intros H. exists lo, hi, tmn, tmx. exact H. Qed.

Lemma block_shaped lo hi tmn tmx :
  hoare (shaped lo hi tmn tmx)
    (Panel.slider_blockSignals self0 store0 true)
    (fun _ p => shaped lo hi tmn tmx p /\ blocked p) shapely.
Proof.
  intros p H.
  destruct p as [i [q b en tr lo1 hi1 x l] tmn1 tmx1 fx ft st ov ol].
  unfold shaped, blocked in *; simpl in *.
  injection H as -> -> -> -> -> -> -> -> -> -> -> ->.
  split; reflexivity.
Qed.

Lemma setValue_shaped lo hi tmn tmx v :
  hoare (fun p => shaped lo hi tmn tmx p /\ blocked p)
    (Panel.slider_setValue self0 store0 minuit0 store_minuit0 (ret tt) v)
    (fun _ p => shaped lo hi tmn tmx p /\
                _value (Panel.slider p) =
                  (if v <? lo then lo else if hi <? v then hi else v))
    shapely.
Proof.
  open_shaped p H Hb. run_local.
  destruct (v <? lo); simpl; [split_ifs; done_shaped|].
  destruct (hi <? v); simpl; split_ifs; done_shaped.
Qed.

Lemma setMinimum_shaped lo hi tmn tmx m :
  hoare (fun p => shaped lo hi tmn tmx p /\ blocked p)
    (Panel.slider_setMinimum self0 store0 minuit0 store_minuit0 (ret tt) m)
    (fun _ p => shaped (if hi <=? m then lo else m) hi tmn tmx p)
    shapely.
Proof.
  open_shaped p H Hb. do 2 run_local.
  destruct (hi <=? m); simpl; [done_shaped|].
  destruct (x <? m); simpl; [split_ifs; done_shaped|].
  destruct (hi <? x); simpl; split_ifs; done_shaped.
Qed.

Lemma setMaximum_shaped lo hi tmn tmx m :
  hoare (fun p => shaped lo hi tmn tmx p /\ blocked p)
    (Panel.slider_setMaximum self0 store0 minuit0 store_minuit0 (ret tt) m)
    (fun _ p => shaped lo (if m <=? lo then hi else m) tmn tmx p)
    shapely.
Proof.
  open_shaped p H Hb. do 2 run_local.
  destruct (m <=? lo); simpl; [done_shaped|].
  destruct (x <? lo); simpl; [split_ifs; done_shaped|].
  destruct (m <? x); simpl; split_ifs; done_shaped.
Qed.

Lemma tmin_shaped lo hi tmn tmx (g : Panel.t -> SpinBox.t) b :
  (forall p, shaped lo hi tmn tmx p -> g p = b) ->
  hoare (shaped lo hi tmn tmx)
    (Panel.update self0 store0 (fun p => Panel.with_tmin (g p) p))
    (fun _ => shaped lo hi b tmx) shapely.
Proof.
  intros Hg p H. simpl. rewrite (Hg p H).
  unfold shaped in H. rewrite H. unfold shaped. reflexivity.
Qed.

Lemma tmax_shaped lo hi tmn tmx (g : Panel.t -> SpinBox.t) b :
  (forall p, shaped lo hi tmn tmx p -> g p = b) ->
  hoare (shaped lo hi tmn tmx)
    (Panel.update self0 store0 (fun p => Panel.with_tmax (g p) p))
    (fun _ => shaped lo hi tmn b) shapely.
Proof.
  intros Hg p H. simpl. rewrite (Hg p H).
  unfold shaped in H. rewrite H. unfold shaped. reflexivity.
Qed.

Lemma shaped_self :
  shaped (_min (Panel.slider p0)) (_max (Panel.slider p0))
    (Panel.tmin p0) (Panel.tmax p0) p0.
Proof.
  unfold shaped. destruct p0 as [i [q b en tr lo1 hi1 x l] tmn1 tmx1 fx ft st ov ol].
  reflexivity.
Qed.

Local Abbreviation box := SpinBox.quietly_set.

Lemma local_reset_limits_hoare (v : float) lo hi tmn tmx :
  let lo0 := fst (Panel.original_limits p0) in
  let hi0 := snd (Panel.original_limits p0) in
  let lo' := if hi <=? lo0 then lo else lo0 in
  let hi' := if hi0 <=? lo' then hi else hi0 in
  hoare (shaped lo hi tmn tmx)
    (Panel.local_reset (Some v) true)
    (fun _ p =>
       shaped lo' hi' (box lo0 tmn) (box hi0 tmx) p /\
       _value (Panel.slider p) = (if v <? lo' then lo' else if hi' <? v then hi' else v) /\
       _label (Panel.slider p) = Some v /\
       signalsBlocked (Panel.slider p) = false)
    shapely.
Proof.
  intros lo0 hi0 lo' hi'.
  unfold Panel.local_reset, Panel.reset.
  intros w Hw. unfold bind at 1. unfold gets at 1. cbv beta iota.
  assert (Hol : Panel.original_limits w = Panel.original_limits p0)
    by (rewrite Hw; reflexivity).
  rewrite Hol. fold lo0 hi0. clear Hol. revert w Hw.
  eapply Logic.hoare_bind.
  - eapply Logic.hoare_bind; [apply block_shaped|]. intros u.
    eapply Logic.hoare_bind; [apply setMinimum_shaped|]. intros u0.
    eapply Logic.hoare_bind; [apply block_shaped|]. intros u1.
    eapply Logic.hoare_bind; [apply setMaximum_shaped|]. intros u2.
    eapply Logic.hoare_bind;
      [apply tmin_shaped; intros p H; rewrite H; simpl; reflexivity|]. intros u3.
    eapply Logic.hoare_bind;
      [apply tmin_shaped; intros p H; rewrite H; simpl; reflexivity|]. intros u4.
    eapply Logic.hoare_bind;
      [apply tmin_shaped; intros p H; rewrite H; simpl; reflexivity|]. intros u5.
    eapply Logic.hoare_bind;
      [apply tmax_shaped; intros p H; rewrite H; simpl; reflexivity|]. intros u6.
    eapply Logic.hoare_bind;
      [apply tmax_shaped; intros p H; rewrite H; simpl; reflexivity|]. intros u7.
    apply tmax_shaped; intros p H; rewrite H; simpl; reflexivity.
  - intros u. cbv beta.
    eapply Logic.hoare_bind; [apply block_shaped|]. intros u0.
    eapply Logic.hoare_bind; [apply setValue_shaped|]. intros u1.
    intros p [H Hv].
    destruct p as [i [q b en tr lo1 hi1 x l] tmn1 tmx1 fx ft st ov ol].
    unfold shaped in *. simpl in *.
    injection H as -> -> -> -> -> -> -> -> -> -> -> ->. subst x.
    repeat split; reflexivity.
Qed.

(** The outcome of [reset(val=v, limits=True)] on [p0]. *)
Lemma local_reset_limits (v : float) :
  let s0 := Panel.slider p0 in
  let lo0 := fst (Panel.original_limits p0) in
  let hi0 := snd (Panel.original_limits p0) in
  let lo' := if _max s0 <=? lo0 then _min s0 else lo0 in
  let hi' := if hi0 <=? lo' then _max s0 else hi0 in
  match Panel.local_reset (Some v) true p0 with
  | Ok _ p =>
      shaped lo' hi' (box lo0 (Panel.tmin p0)) (box hi0 (Panel.tmax p0)) p /\
      _value (Panel.slider p) = (if v <? lo' then lo' else if hi' <? v then hi' else v) /\
      _label (Panel.slider p) = Some v /\
      signalsBlocked (Panel.slider p) = false
  | Raised _ p => shapely p
  end.
Proof.
  intros s0 lo0 hi0 lo' hi'.
  exact (@local_reset_limits_hoare v _ _ _ _ p0 shaped_self).
Qed.

End LocalResetLimits.

(** C7.  Construction: the initial step is a hundredth of the width of
    the limits when both are finite and 0.01 otherwise; a limit that is
    not finite is replaced by the value minus (plus) a hundred steps; the
    window so obtained and the value are kept as the panel's originals,
    whether or not the construction then completes.  With the value 5 and
    no limits the step is 0.01 and the window (4, 6). *)
Theorem init_original_window (m : Minuit.t) (i : nat) :
  let val := Minuit.value_at m i in
  let vmin := fst (Minuit.limits_at m i) in
  let vmax := snd (Minuit.limits_at m i) in
  let p := final (Panel.__init__ m i) in
  Panel.step p = (if Py.isfinite vmin && Py.isfinite vmax
                  then 1e-2 * (vmax - vmin) else 1e-2) /\
  Panel.original_limits p =
    (if Py.isfinite vmin then vmin else val - 100 * Panel.step p,
     if Py.isfinite vmax then vmax else val + 100 * Panel.step p) /\
  Panel.original_value p = val /\
  (val = 5 -> vmin = neg_infinity -> vmax = infinity ->
   Panel.step p = 1e-2 /\ Panel.original_limits p = (4, 6)) /\
  _guess_initial_step 5 neg_infinity infinity = 1e-2.
Proof.
  intros val vmin vmax p.
  assert (H : Panel.step p = _guess_initial_step val vmin vmax /\
              Panel.original_limits p =
                (if Py.isfinite vmin then vmin
                 else val - 100 * _guess_initial_step val vmin vmax,
                 if Py.isfinite vmax then vmax
                 else val + 100 * _guess_initial_step val vmin vmax) /\
              Panel.original_value p = val).
  { subst p. unfold Panel.__init__. fold val.
    destruct (Minuit.limits_at m i) as [lo hi] eqn:El. simpl in vmin, vmax.
    fold vmin vmax. unfold Panel.init_update.
    rewrite !final_bind_modify.
    match goal with
    | |- context [final (?c ?w)] =>
        apply (@preserves_final _ _
                 (fun q => Panel.step q = _guess_initial_step val vmin vmax /\
                           Panel.original_limits q =
                             (if Py.isfinite vmin then vmin
                              else val - 100 * _guess_initial_step val vmin vmax,
                              if Py.isfinite vmax then vmax
                              else val + 100 * _guess_initial_step val vmin vmax) /\
                           Panel.original_value q = val) c w)
    end.
    - repeat (match goal with
              | |- preserves _ (bind _ _) => apply preserves_bind; [|intros ?]
              end);
        first [ apply SliderLogic.setMinimum_keeps_all
              | apply SliderLogic.setMaximum_keeps_all
              | apply SliderLogic.setValue_keeps_all
              | apply preserves_modify; intros w Hw; exact Hw ];
        try (intros s w Hw; exact Hw);
        try (intros x; apply preserves_ret).
    - simpl. repeat split. }
  destruct H as (Hs & Hl & Hv).
  split; [exact Hs|]. split; [rewrite Hs; exact Hl|]. split; [exact Hv|].
  split; [|reflexivity].
  intros H5 Hlo Hhi. rewrite Hl, Hs, H5, Hlo, Hhi. split; reflexivity.
Qed.

(** The spec's example, run. *)
Lemma init_original_window_example :
  Panel.step (final (Panel.__init__ Sample.minuit1 0)) = 1e-2 /\
  Panel.original_limits (final (Panel.__init__ Sample.minuit1 0)) = (4, 6).
Proof.
  destruct (init_original_window Sample.minuit1 0) as (_ & _ & _ & H & _).
  apply H; reflexivity.
Defined.

End PanelLogic.

(** ** The slider *)

Module SliderFacts.

Import FloatSlider.
Open Scope float_scope.

Ltac run :=
  unfold setValue1, setMinimum1, setMaximum1, _float_to_int1, value1,
    setValue, setMinimum, setMaximum, value, QSlider_setValue,
    _emit_float_value_changed, emit_floatValueChanged, _float_to_int,
    _int_to_float, blockSignals, update, alone_slot, alone_store,
    bind, gets, modify, ret, raise, Py.gtb, Py.geb; simpl.

Ltac split_ifs :=
  repeat (match goal with
          | |- context [if ?b then _ else _] => destruct b eqn:?
          | |- context [match Py.int ?x with _ => _ end] => destruct (Py.int x) eqn:?
          end; simpl).

(** [setValue] never touches the window. *)
Lemma setValue1_window (v : float) (w : Alone) :
  _min (slider (final (setValue1 v w))) = _min (slider w) /\
  _max (slider (final (setValue1 v w))) = _max (slider w).
Proof.
  destruct w as [[p b en tr lo hi x l] d]. run. split_ifs; auto.
Qed.

(** Inside the window [setValue] keeps the number as it is and delivers
    no notification, whether or not the integer conversion succeeds. *)
Lemma setValue1_inside (v : float) (w : Alone) :
  (v <? _min (slider w)) = false ->
  (_max (slider w) <? v) = false ->
  _value (slider (final (setValue1 v w))) = v /\
  delivered (final (setValue1 v w)) = delivered w.
Proof.
  destruct w as [[p b en tr lo hi x l] d]. simpl. intros H1 H2.
  run. rewrite H1, H2. simpl. split_ifs; auto.
Qed.

(** Below the window: the number kept is the lower bound, or, when the
    integer value moves with signals open, what position 0 maps back to. *)
Lemma setValue1_below (v : float) (w : Alone) :
  let s := slider w in
  (v <? _min s) = true ->
  setValue1 v w = Ok tt (final (setValue1 v w)) /\
  _value (slider (final (setValue1 v w))) =
    (if negb (int_value s =? 0)%Z && negb (signalsBlocked s)
     then _min s + (Py.float_of_int 0 / 1e8) * (_max s - _min s)
     else _min s).
Proof.
  destruct w as [[p b en tr lo hi x l] d]. simpl. intros H.
  run. rewrite H. simpl.
  change (Z.max 0 (Z.min int_maximum 0))%Z with 0%Z.
  destruct (p =? 0)%Z, b; simpl; auto.
Qed.

(** Above the window, likewise with the upper bound and position 10^8. *)
Lemma setValue1_above (v : float) (w : Alone) :
  let s := slider w in
  (v <? _min s) = false -> Py.gtb v (_max s) = true ->
  setValue1 v w = Ok tt (final (setValue1 v w)) /\
  _value (slider (final (setValue1 v w))) =
    (if negb (int_value s =? int_maximum)%Z && negb (signalsBlocked s)
     then _min s + (Py.float_of_int int_maximum / 1e8) * (_max s - _min s)
     else _max s).
Proof.
  destruct w as [[p b en tr lo hi x l] d]. simpl. intros H1 H2.
  run. unfold Py.gtb in H2. rewrite H1, H2. simpl.
  change (Z.max 0 (Z.min int_maximum int_maximum))%Z with int_maximum.
  destruct (p =? int_maximum)%Z, b; simpl; auto.
Qed.

(** C1 (the code departs from it).  A slider with the window [-2, 0.1]
    holding 0 is asked for the value 5, above its maximum.  The claim has
    it keep and report the maximum 0.1.  The code keeps and reports
    [-2 + (0.1 - -2)], which floating-point rounding puts above 0.1: the
    unblocked [QSlider.setValue] in the clamping branch runs
    [_emit_float_value_changed] with the new position, and that replaces
    the stored bound by the number the position maps back to. *)
Theorem setValue_above_max_overshoots :
  let w := Sample.slider1 in
  let w' := final (setValue1 5 w) in
  _min (slider w) = -2 /\ _max (slider w) = 0.1 /\
  _value (slider w) = 0 /\ (_min (slider w) <? _max (slider w)) = true /\
  Py.gtb 5 (_max (slider w)) = true /\
  setValue1 5 w = Ok tt w' /\
  _value (slider w') = -2 + (0.1 - -2) /\
  (_value (slider w') =? _max (slider w')) = false /\
  (_max (slider w') <? _value (slider w')) = true /\
  delivered w' = _value (slider w') :: _value (slider w') :: delivered w.
Proof.
  vm_compute. repeat split; reflexivity.
Qed.

(** C9 (the code departs from it).  A slider with the window [-2, 1]
    holding 0.5 is given the maximum 0.1.  The claim has the value
    clamped into the new window, to 0.1.  The code moves the upper bound
    to 0.1 and then keeps and reports, twice, [-2 + (0.1 - -2)], which
    lies above 0.1: [setMaximum] goes through the clamping branch of
    [setValue], where the unblocked [QSlider.setValue] runs
    [_emit_float_value_changed] with the new position. *)
Theorem setMaximum_leaves_value_above_max :
  let w := Sample.slider2 in
  let w' := final (setMaximum1 0.1 w) in
  _min (slider w) = -2 /\ _max (slider w) = 1 /\ _value (slider w) = 0.5 /\
  (0.1 <=? _min (slider w)) = false /\
  setMaximum1 0.1 w = Ok tt w' /\
  _min (slider w') = -2 /\ _max (slider w') = 0.1 /\
  _value (slider w') = -2 + (0.1 - -2) /\
  (_value (slider w') =? _max (slider w')) = false /\
  (_max (slider w') <? _value (slider w')) = true /\
  delivered w' = _value (slider w') :: _value (slider w') :: delivered w.
Proof.
  vm_compute. repeat split; reflexivity.
Qed.

(** What the two setters do for every slider.  [setMinimum(m)] does
    nothing when [m >= max]; otherwise the lower bound becomes [m], the
    upper bound stays, and the current value goes through [setValue]: a
    value below [m] becomes [m] (the window's width being a finite
    number), a value inside the new window stays as it is and no
    notification goes out, and a value above the maximum becomes the
    maximum, or, when the integer position moves with the signals open,
    the number position 10^8 maps back to.  [setMaximum(m)] does nothing
    when [m <= min]; otherwise the upper bound becomes [m], the lower
    bound stays, a value inside the new window stays as it is without
    notification, and a value above [m] becomes [m], or, when the integer
    position moves with the signals open, [min + (m - min)] as the
    floating-point operations compute it. *)
Theorem setMinimum_setMaximum_guarded (m : float) (w : Alone) :
  let s := slider w in
  (Py.geb m (_max s) = true -> setMinimum1 m w = Ok tt w) /\
  (Py.geb m (_max s) = false ->
   let w' := final (setMinimum1 m w) in
   _min (slider w') = m /\ _max (slider w') = _max s /\
   ((_value s <? m) = true -> is_finite (_max s - m) = true ->
    (_value (slider w') =? m) = true) /\
   ((_value s <? m) = false -> Py.gtb (_value s) (_max s) = false ->
    _value (slider w') = _value s /\ delivered w' = delivered w) /\
   ((_value s <? m) = false -> Py.gtb (_value s) (_max s) = true ->
    _value (slider w') =
      (if negb (int_value s =? int_maximum)%Z && negb (signalsBlocked s)
       then m + (Py.float_of_int int_maximum / 1e8) * (_max s - m)
       else _max s))) /\
  ((m <=? _min s) = true -> setMaximum1 m w = Ok tt w) /\
  ((m <=? _min s) = false ->
   let w' := final (setMaximum1 m w) in
   _max (slider w') = m /\ _min (slider w') = _min s /\
   ((_value s <? _min s) = false -> Py.gtb (_value s) m = false ->
    _value (slider w') = _value s /\ delivered w' = delivered w) /\
   ((_value s <? _min s) = false -> Py.gtb (_value s) m = true ->
    _value (slider w') =
      (if negb (int_value s =? int_maximum)%Z && negb (signalsBlocked s)
       then _min s + (Py.float_of_int int_maximum / 1e8) * (m - _min s)
       else m))).
Proof.
  destruct w as [[p b en tr lo hi x l] d]. simpl. unfold Py.geb.
  split; [|split; [|split]].
  - intros H. run. rewrite H. reflexivity.
  - intros H.
    assert (E : setMinimum1 m (mkAlone (mk p b en tr lo hi x l) d)
                = setValue1 x (mkAlone (mk p b en tr m hi x l) d)).
    { run. rewrite H. reflexivity. }
    rewrite E. clear E.
    pose proof (setValue1_window x (mkAlone (mk p b en tr m hi x l) d)) as [Hlo Hhi].
    simpl in Hlo, Hhi.
    split; [exact Hlo|]. split; [exact Hhi|]. split; [|split].
    + intros Hv Hf.
      pose proof (setValue1_below (w:=mkAlone (mk p b en tr m hi x l) d) Hv) as [_ Hval].
      simpl in Hval. rewrite Hval.
      pose proof (FloatFacts.ltb_not_nan_r Hv) as Hn.
      destruct (negb (p =? 0)%Z && negb b).
      * apply FloatFacts.low_image; assumption.
      * exact Hn.
    + intros Hv Hg.
      apply (setValue1_inside (w:=mkAlone (mk p b en tr m hi x l) d)); assumption.
    + intros Hv Hg.
      pose proof (setValue1_above (w:=mkAlone (mk p b en tr m hi x l) d) Hv Hg)
        as [_ Hval].
      simpl in Hval. exact Hval.
  - intros H. run. rewrite H. reflexivity.
  - intros H.
    assert (E : setMaximum1 m (mkAlone (mk p b en tr lo hi x l) d)
                = setValue1 x (mkAlone (mk p b en tr lo m x l) d)).
    { run. rewrite H. reflexivity. }
    rewrite E. clear E.
    pose proof (setValue1_window x (mkAlone (mk p b en tr lo m x l) d)) as [Hlo Hhi].
    simpl in Hlo, Hhi.
    split; [exact Hhi|]. split; [exact Hlo|]. split.
    + intros Hv Hg.
      apply (setValue1_inside (w:=mkAlone (mk p b en tr lo m x l) d)); assumption.
    + intros Hv Hg.
      pose proof (setValue1_above (w:=mkAlone (mk p b en tr lo m x l) d) Hv Hg)
        as [_ Hval].
      simpl in Hval. exact Hval.
Qed.

(** An instance: on the window [-2, 1] at 0.5, [setMinimum(1)] and
    [setMaximum(-2)] change nothing, [setMinimum(0.75)] moves the lower
    bound and the value to 0.75, and [setMaximum(0.75)] moves the upper
    bound and leaves the value. *)
Lemma setMinimum_setMaximum_guarded_example :
  setMinimum1 1 Sample.slider2 = Ok tt Sample.slider2 /\
  setMaximum1 (-2) Sample.slider2 = Ok tt Sample.slider2 /\
  _min (slider (final (setMinimum1 0.75 Sample.slider2))) = 0.75 /\
  (_value (slider (final (setMinimum1 0.75 Sample.slider2))) =? 0.75) = true /\
  _max (slider (final (setMaximum1 0.75 Sample.slider2))) = 0.75 /\
  _value (slider (final (setMaximum1 0.75 Sample.slider2))) = 0.5.
Proof.
  destruct (setMinimum_setMaximum_guarded 1 Sample.slider2) as [H1 _].
  destruct (setMinimum_setMaximum_guarded (-2) Sample.slider2) as [_ [_ [H4 _]]].
  destruct (setMinimum_setMaximum_guarded 0.75 Sample.slider2) as [_ [H2 [_ H5]]].
  split; [apply H1; reflexivity|].
  split; [apply H4; reflexivity|].
  destruct (H2 eq_refl) as [Ha [_ [Hb _]]].
  split; [exact Ha|]. split; [apply Hb; reflexivity|].
  destruct (H5 eq_refl) as [Hc [_ [Hd _]]].
  split; [exact Hc|]. apply Hd; reflexivity.
Defined.

(** C4 (as the spec words it, refuted).  For 0.123456789 in the window
    [0, 1] the nearest position is 12345679; the code yields 12345678. *)
Lemma float_to_int_not_nearest :
  let w := Sample.slider0 in
  let v := 0.123456789 in
  (_min (slider w) <=? v) = true /\ (v <=? _max (slider w)) = true /\
  (_min (slider w) <? _max (slider w)) = true /\
  _float_to_int1 v w = Ok 12345678%Z w /\
  Spec.position (slider w) v = Some 12345679%Z /\
  _float_to_int1 v w <> match Spec.position (slider w) v with
                        | Some p => Ok p w
                        | None => Raised Py.ValueError w
                        end.
Proof.
  vm_compute. repeat split; try reflexivity. discriminate.
Qed.

(** C4 (amended).  The conversion yields the integer part of the quotient
    [(v - min) / (max - min) * 1e8] as the floating-point operations
    compute it, rounded toward zero, whenever the window has a non-zero
    width and the quotient is a finite number [q]. *)
Theorem float_to_int_truncates (v : float) (w : Alone) (q : Q) :
  let s := slider w in
  (_min s <=? v) = true -> (v <=? _max s) = true -> (_min s <? _max s) = true ->
  (_max s - _min s =? 0) = false ->
  Py.to_Q ((v - _min s) / (_max s - _min s) * 1e8) = Some q ->
  _float_to_int1 v w = Ok (Py.Qtrunc q) w.
Proof.
  simpl. intros _ _ _ Hd Hq. run. rewrite Hd.
  rewrite (FloatFacts.int_trunc Hq). reflexivity.
Qed.

Lemma float_to_int_truncates_witness :
  _float_to_int1 0.123456789 Sample.slider0 = Ok 12345678%Z Sample.slider0.
Proof.
  apply (@float_to_int_truncates 0.123456789 Sample.slider0
           (Qmake 6628035890302157 536870912));
    vm_compute; reflexivity.
Defined.

End SliderFacts.

(** ** The window *)

Module WindowLogic.

Import Logic MainWindow.
Close Scope float_scope.

(** Panel [i] of a window that has one: a well-behaved part of it. *)
Definition has_panel (i : nat) (w : t) : Prop := i < length (parameters w).

Lemma has_panel_store i p w : has_panel i w -> has_panel i (store_panel i p w).
Proof.
  unfold has_panel, store_panel. simpl. rewrite ListFacts.length_set_nth. auto.
Qed.

Lemma panel_store i p w : has_panel i w -> panel i (store_panel i p w) = p.
Proof.
  unfold has_panel, panel, store_panel. simpl. apply ListFacts.nth_set_nth_same.
Qed.

Lemma panel_store_other i j p w : i <> j -> panel j (store_panel i p w) = panel j w.
Proof.
  intros H. unfold panel, store_panel. simpl.
  apply ListFacts.nth_set_nth_other. exact H.
Qed.

Lemma store_store i p p' w : store_panel i p' (store_panel i p w) = store_panel i p' w.
Proof.
  unfold store_panel. simpl. rewrite ListFacts.set_nth_set_nth. reflexivity.
Qed.

Lemma store_panel_same i w : store_panel i (panel i w) w = w.
Proof.
  unfold store_panel, panel. rewrite ListFacts.set_nth_nth. destruct w; reflexivity.
Qed.

Section Session.

Variable E : External.

(** The knot in [do_fit] is sound: with any callback, and so with the
    session's own, [reset] of a panel of the window runs as it does on the
    panel alone. *)
Lemma window_reset_zoom (cb : M t unit) i val limits w :
  has_panel i w ->
  Panel.reset (panel i) (store_panel i) minuit with_minuit cb val limits w
  = zoom (panel i) (store_panel i) (Panel.local_reset val limits) w.
Proof.
  apply PanelLogic.reset_zoom with (D := has_panel i).
  - intros v w0. apply has_panel_store.
  - intros v w0. apply panel_store.
  - intros v v' w0. apply store_store.
  - intros w0. apply store_panel_same.
Qed.

Lemma reset_callback_irrelevant i val limits w :
  has_panel i w -> reset_of E i val limits w = panel_reset i val limits w.
Proof.
  intros H. unfold reset_of, panel_reset. rewrite !window_reset_zoom by exact H. reflexivity.
Qed.

(** What a property of the window must allow to survive a refresh: the
    panels keep their steady parts, and the minimizer stays within [R]. *)
Definition kept (B : list Panel.t) (R : Minuit.t -> Prop) (w : t) : Prop :=
  map Panel.steady (parameters w) = B /\ R (minuit w).

Lemma kept_has_panel B R w i : kept B R w -> i < length B -> has_panel i w.
Proof.
  intros [HB _] Hi. unfold has_panel. rewrite <- HB, length_map in Hi. exact Hi.
Qed.

Lemma kept_store B R w i p :
  kept B R w -> Panel.steady p = Panel.steady (panel i w) ->
  kept B R (store_panel i p w).
Proof.
  intros [HB HR] Hp. split; [|exact HR]. simpl.
  rewrite <- HB. apply ListFacts.map_set_nth with (d := Panel.blank i). exact Hp.
Qed.

Lemma panel_reset_keeps B R i v :
  i < length B -> preserves (kept B R) (panel_reset i (Some v) false).
Proof.
  intros Hi w Hw. unfold panel_reset.
  rewrite window_reset_zoom by (eapply kept_has_panel; eauto).
  unfold zoom. pose proof (PanelLogic.local_reset_value v (panel i w)) as H.
  destruct (Panel.local_reset (Some v) false (panel i w)) as [u p'|e p'].
  - apply kept_store; [exact Hw | apply H].
  - apply kept_store; [exact Hw | exact H].
Qed.

Lemma fit_spec w :
  fit E w = Ok (reports (algo_choice w))
              (with_minuit (algorithm E (algo_choice w) (minuit w))
                 (with_fit_calls ((algo_choice w, Minuit.fixed (minuit w)) :: fit_calls w) w)).
Proof.
  unfold fit, run, update_minuit, bind, gets, modify, ret.
  destruct (algo_choice w) eqn:Ha; simpl; reflexivity.
Qed.

(** The loop that refreshes the panels, with or without their limits. *)
Definition refresh (limits : bool) (i : nat) : M t unit :=
  m <- gets minuit ;;
  panel_reset i (Some (Minuit.value_at m i)) limits.

Definition refreshed_upto (limits : bool) (w0 : t) (j : nat) (w : t) : Prop :=
  rest w = rest w0 /\
  length (parameters w) = length (parameters w0) /\
  (forall k, k < j ->
     Panel.local_reset (Some (Minuit.value_at (minuit w0) k)) limits (panel k w0)
     = Ok tt (panel k w)) /\
  (forall k, j <= k -> panel k w = panel k w0).

Lemma rest_store i p w : rest (store_panel i p w) = rest w.
Proof. reflexivity. Qed.

Lemma rest_minuit w w' : rest w = rest w' -> minuit w = minuit w'.
Proof. intros H. apply (f_equal minuit) in H. exact H. Qed.

Lemma refresh_step limits w0 j :
  j < length (parameters w0) ->
  hoare (refreshed_upto limits w0 j) (refresh limits j)
    (fun _ => refreshed_upto limits w0 (S j))
    (fun w => rest w = rest w0 /\ length (parameters w) = length (parameters w0)).
Proof.
  intros Hj w (Hr & Hl & Hlt & Hge).
  assert (Hp : has_panel j w) by (unfold has_panel; lia).
  unfold refresh, bind, gets, panel_reset.
  rewrite window_reset_zoom by exact Hp. unfold zoom.
  rewrite (rest_minuit Hr), (Hge j (Nat.le_refl j)).
  destruct (Panel.local_reset (Some (Minuit.value_at (minuit w0) j)) limits (panel j w0))
    as [[] p'|e p'] eqn:El.
  - split; [rewrite rest_store; exact Hr|].
    split; [simpl; rewrite ListFacts.length_set_nth; exact Hl|].
    split.
    + intros k Hk. destruct (Nat.eq_dec k j) as [->|Hne].
      * rewrite panel_store by exact Hp. exact El.
      * rewrite panel_store_other by auto. apply Hlt. lia.
    + intros k Hk. rewrite panel_store_other by lia. apply Hge. lia.
  - split; [rewrite rest_store; exact Hr|].
    simpl. rewrite ListFacts.length_set_nth. exact Hl.
Qed.

Lemma refresh_loop limits w0 :
  hoare (fun w => w = w0)
    (for_range 0 (length (parameters w0)) (refresh limits))
    (fun _ => refreshed_upto limits w0 (length (parameters w0)))
    (fun w => rest w = rest w0 /\ length (parameters w) = length (parameters w0)).
Proof.
  eapply hoare_conseq.
  - eapply hoare_for_range with (I := refreshed_upto limits w0) (i := 0).
    intros j Hj. apply refresh_step. lia.
  - intros w ->. repeat split; auto. intros k Hk. lia.
  - intros u w H. rewrite Nat.add_0_r in H. exact H.
  - auto.
Qed.

(** [do_fit]'s first lines: what they return and leave behind. *)
Lemma do_fit_refresh_spec w0 :
  let w1 := with_minuit (algorithm E (algo_choice w0) (minuit w0))
              (with_fit_calls ((algo_choice w0, Minuit.fixed (minuit w0)) :: fit_calls w0) w0) in
  match do_fit_refresh E w0 with
  | Ok rs w => rs = reports (algo_choice w0) /\
               refreshed_upto false w1 (length (parameters w0)) w
  | Raised _ w => rest w = rest w1 /\ length (parameters w) = length (parameters w0)
  end.
Proof.
  intros w1. unfold do_fit_refresh.
  change (fun i : nat =>
            m <- gets minuit;; panel_reset i (Some (Minuit.value_at m i)) false)
    with (refresh false).
  unfold bind at 1. rewrite fit_spec. fold w1.
  unfold bind at 1. unfold gets at 1.
  change (length (parameters w1)) with (length (parameters w0)).
  unfold bind at 1.
  pose proof (@refresh_loop false w1 w1 eq_refl) as H.
  change (length (parameters w1)) with (length (parameters w0)) in H.
  destruct (for_range 0 (length (parameters w0)) (refresh false) w1) as [[] w|e w].
  - unfold ret. split; [reflexivity | exact H].
  - exact H.
Qed.

(** The loop that fixes the parameters not selected for the fit. *)
Lemma opt_out_loop n : forall i w,
  for_range i n (fun i =>
    x <- gets (panel i) ;;
    update_minuit (Minuit.set_fixed i (negb (Panel.fit_checked x)))) w
  = Ok tt (with_minuit
             (Minuit.with_fixed
                (opted_out i n (parameters w) (Minuit.fixed (minuit w))) (minuit w)) w).
Proof.
  induction n as [|n IH]; intros i w; simpl.
  - unfold ret. destruct w as [[v l f z] ps a u r c ov ol fc]. reflexivity.
  - unfold bind at 1. unfold bind at 1. unfold gets at 1.
    unfold update_minuit at 1. unfold modify at 1.
    rewrite IH. destruct w as [[v l f z] ps a u r c ov ol fc]. reflexivity.
Qed.

Lemma nth_opted_out_before n : forall i0 ps f i d,
  i < i0 -> nth i (opted_out i0 n ps f) d = nth i f d.
Proof.
  induction n as [|n IH]; intros i0 ps f i d Hi; simpl; [reflexivity|].
  rewrite IH by lia. apply ListFacts.nth_set_nth_other. lia.
Qed.

Lemma length_opted_out n : forall i0 ps f, length (opted_out i0 n ps f) = length f.
Proof.
  induction n as [|n IH]; intros i0 ps f; simpl; [reflexivity|].
  rewrite IH. apply ListFacts.length_set_nth.
Qed.

Lemma nth_opted_out n : forall i0 ps f i d,
  i0 <= i < n + i0 -> i < length f ->
  nth i (opted_out i0 n ps f) d = negb (Panel.fit_checked (nth i ps (Panel.blank i))).
Proof.
  induction n as [|n IH]; intros i0 ps f i d Hi Hl; simpl; [lia|].
  destruct (Nat.eq_dec i i0) as [->|Hne].
  - rewrite nth_opted_out_before by lia. apply ListFacts.nth_set_nth_same. exact Hl.
  - apply IH; [lia|]. rewrite ListFacts.length_set_nth. exact Hl.
Qed.

Lemma fit_keeps B (R : Minuit.t -> Prop) :
  (forall a m, R m -> R (algorithm E a m)) -> preserves (kept B R) (fit E).
Proof.
  intros HR w [HB Hm]. rewrite fit_spec. split; [exact HB | apply HR, Hm].
Qed.

Lemma do_fit_refresh_keeps B (R : Minuit.t -> Prop) :
  (forall a m, R m -> R (algorithm E a m)) ->
  preserves (kept B R) (do_fit_refresh E).
Proof.
  intros HR. unfold do_fit_refresh.
  apply preserves_bind; [apply fit_keeps, HR | intros rs].
  intros w Hw. unfold bind at 1. unfold gets at 1.
  assert (Hn : length (parameters w) = length B)
    by (destruct Hw as [<- _]; rewrite length_map; reflexivity).
  rewrite Hn. revert w Hw Hn.
  cut (preserves (kept B R)
         (for_range 0 (length B) (fun i =>
            m <- gets minuit ;; panel_reset i (Some (Minuit.value_at m i)) false) ;;
          ret rs)).
  { intros H w Hw _. exact (H w Hw). }
  apply preserves_bind; [|intros u; apply preserves_ret].
  apply preserves_for_range_upto. intros j Hj.
  apply preserves_bind; [apply preserves_gets | intros m].
  apply panel_reset_keeps. lia.
Qed.

(** The last two lines of [on_parameter_change]. *)
Definition replot (from_fit report_success : bool) : M t unit :=
  modify (with_canvas Blank) ;; plot_with_frame E from_fit report_success.

Lemma replot_spec ff rs w :
  replot ff rs w =
    if visualize E (minuit w) then Ok tt (with_canvas (FcnText ff (ff && rs)) w)
    else if raise_on_exception E then Raised Py.PlotError (with_canvas Blank w)
    else Ok tt (with_canvas Traceback w).
Proof.
  unfold replot, plot_with_frame, bind, gets, modify, ret, raise. simpl.
  destruct (visualize E (minuit w)); [reflexivity|].
  destruct (raise_on_exception E); reflexivity.
Qed.

(** A parameter change with no panel selected for the fit only redraws. *)
Lemma on_parameter_change_plain rs w :
  existsb Panel.fit_checked (parameters w) = false ->
  on_parameter_change E false rs w = replot false rs w.
Proof.
  intros H. unfold on_parameter_change, replot. simpl negb. cbv iota.
  unfold bind at 1. unfold bind at 1. unfold gets at 1. rewrite H.
  unfold ret. reflexivity.
Qed.

(** With a panel selected it runs the fit between fixing the other
    parameters and restoring the flags. *)
Lemma on_parameter_change_selected rs w :
  existsb Panel.fit_checked (parameters w) = true ->
  let saved := Minuit.fixed (minuit w) in
  let temp := opted_out 0 (length (parameters w)) (parameters w) saved in
  on_parameter_change E false rs w =
    match do_fit_refresh E (with_minuit (Minuit.with_fixed temp (minuit w)) w) with
    | Ok rs' w2 =>
        replot true rs'
          (with_minuit (Minuit.with_fixed saved (minuit w2))
             (with_results_text (Some (minuit w2)) w2))
    | Raised e w2 => Raised e w2
    end.
Proof.
  intros H saved temp. unfold on_parameter_change. simpl negb. cbv iota.
  unfold bind at 1. unfold bind at 1. unfold gets at 1. rewrite H.
  unfold bind at 1. unfold gets at 1.
  unfold bind at 1. rewrite opt_out_loop. fold saved temp.
  unfold bind at 1.
  destruct (do_fit_refresh E (with_minuit (Minuit.with_fixed temp (minuit w)) w))
    as [rs' w2|e w2]; [|reflexivity].
  unfold show_results, update_minuit, bind, modify, ret. simpl. reflexivity.
Qed.

Lemma replot_keeps B R ff rs : preserves (kept B R) (replot ff rs).
Proof.
  intros w Hw. rewrite replot_spec.
  destruct (visualize E (minuit w)); [exact Hw|].
  destruct (raise_on_exception E); exact Hw.
Qed.

(** A parameter change keeps the steady parts of the panels and any
    property of the minimizer that its algorithms and a change of the
    fixed flags keep. *)
Lemma on_parameter_change_keeps B (R : Minuit.t -> Prop) rs :
  (forall a m, R m -> R (algorithm E a m)) ->
  (forall f m, R m -> R (Minuit.with_fixed f m)) ->
  preserves (kept B R) (on_parameter_change E false rs).
Proof.
  intros HA HF w Hw.
  destruct (existsb Panel.fit_checked (parameters w)) eqn:Hsel.
  - rewrite (on_parameter_change_selected rs Hsel). cbv zeta.
    set (wt := with_minuit _ w).
    assert (Hwt : kept B R wt).
    { destruct Hw as [HB HR]. split; [exact HB | apply HF, HR]. }
    pose proof (do_fit_refresh_keeps HA Hwt) as H.
    destruct (do_fit_refresh E wt) as [rs' w2|e w2]; [|exact H].
    apply replot_keeps. destruct H as [HB HR]. split; [exact HB | apply HF, HR].
  - rewrite (on_parameter_change_plain rs Hsel). apply replot_keeps, Hw.
Qed.

(** What a parameter change does to the fixed flags: it leaves them as
    they were, unless the refresh after the fit raised, which leaves the
    flags set for the fit. *)
Lemma on_parameter_change_fixed rs w :
  keeps_fixed E ->
  let temp := opted_out 0 (length (parameters w)) (parameters w) (Minuit.fixed (minuit w)) in
  match on_parameter_change E false rs w with
  | Ok _ w' =>
      map Panel.steady (parameters w') = map Panel.steady (parameters w) /\
      Minuit.fixed (minuit w') = Minuit.fixed (minuit w)
  | Raised _ w' =>
      map Panel.steady (parameters w') = map Panel.steady (parameters w) /\
      (Minuit.fixed (minuit w') = Minuit.fixed (minuit w) \/
       (existsb Panel.fit_checked (parameters w) = true /\
        Minuit.fixed (minuit w') = temp))
  end.
Proof.
  intros HK temp.
  destruct (existsb Panel.fit_checked (parameters w)) eqn:Hsel.
  - rewrite (on_parameter_change_selected rs Hsel). cbv zeta. fold temp.
    set (wt := with_minuit _ w).
    assert (Hwt : kept (map Panel.steady (parameters w))
                    (fun m => Minuit.fixed m = temp) wt)
      by (split; reflexivity).
    assert (HA : forall a m, Minuit.fixed m = temp -> Minuit.fixed (algorithm E a m) = temp)
      by (intros a m <-; apply HK).
    pose proof (do_fit_refresh_keeps HA Hwt) as H.
    destruct (do_fit_refresh E wt) as [rs' w2|e w2].
    + destruct H as [HB _]. rewrite replot_spec. simpl minuit.
      destruct (visualize E _); [split; [exact HB | reflexivity]|].
      destruct (raise_on_exception E); (split; [exact HB | auto]).
    + destruct H as [HB HR]. split; [exact HB | right; split; [reflexivity | exact HR]].
  - rewrite (on_parameter_change_plain rs Hsel), replot_spec.
    destruct (visualize E (minuit w)); [split; reflexivity|].
    destruct (raise_on_exception E); (split; [reflexivity | auto]).
Qed.

Lemma steady_panel w w' j :
  map Panel.steady (parameters w') = map Panel.steady (parameters w) ->
  Panel.steady (panel j w') = Panel.steady (panel j w).
Proof.
  intros Hs. unfold panel.
  rewrite <- (map_nth Panel.steady (parameters w') (Panel.blank j) j).
  rewrite <- (map_nth Panel.steady (parameters w) (Panel.blank j) j).
  rewrite Hs. reflexivity.
Qed.

Lemma steady_length w w' :
  map Panel.steady (parameters w') = map Panel.steady (parameters w) ->
  length (parameters w') = length (parameters w).
Proof.
  intros Hs. apply (f_equal (@length _)) in Hs. rewrite !length_map in Hs. exact Hs.
Qed.

(** A parameter change that returns leaves the fixed flags as they were. *)
Lemma on_parameter_change_ok rs w w' :
  on_parameter_change E false rs w = Ok tt w' ->
  map Panel.steady (parameters w') = map Panel.steady (parameters w) /\
  Minuit.fixed (minuit w') = Minuit.fixed (minuit w).
Proof.
  intros Hrun.
  assert (Hk : kept (map Panel.steady (parameters w)) (fun _ => True) w') .
  { assert (H0 : kept (map Panel.steady (parameters w)) (fun _ => True) w)
      by (split; [reflexivity | exact I]).
    pose proof (@on_parameter_change_keeps (map Panel.steady (parameters w))
                  (fun _ => True) rs (fun _ _ _ => I) (fun _ _ _ => I) w H0) as H.
    rewrite Hrun in H. exact H. }
  split; [apply Hk|].
  destruct (existsb Panel.fit_checked (parameters w)) eqn:Hsel.
  - rewrite (on_parameter_change_selected rs Hsel) in Hrun. cbv zeta in Hrun.
    destruct (do_fit_refresh E _) as [rs' w2|e w2]; [|discriminate].
    rewrite replot_spec in Hrun. simpl minuit in Hrun.
    destruct (visualize E _); [injection Hrun as <-; reflexivity|].
    destruct (raise_on_exception E); [discriminate|].
    injection Hrun as <-; reflexivity.
  - rewrite (on_parameter_change_plain rs Hsel), replot_spec in Hrun.
    destruct (visualize E _); [injection Hrun as <-; reflexivity|].
    destruct (raise_on_exception E); [discriminate|].
    injection Hrun as <-; reflexivity.
Qed.

(** A redraw after a fit: the summary, then the plot. *)
Lemma on_parameter_change_from_fit rs w :
  let w1 := with_canvas Blank (with_results_text (Some (minuit w)) w) in
  on_parameter_change E true rs w =
    if visualize E (minuit w) then Ok tt (with_canvas (FcnText true rs) w1)
    else if raise_on_exception E then Raised Py.PlotError w1
    else Ok tt (with_canvas Traceback w1).
Proof.
  unfold on_parameter_change, show_results, plot_with_frame, bind, gets, modify, ret, raise.
  simpl. destruct (visualize E (minuit w)); [reflexivity|].
  destruct (raise_on_exception E); reflexivity.
Qed.

Lemma steady_fields p p' :
  Panel.steady p' = Panel.steady p ->
  Panel.par p' = Panel.par p /\
  Panel.tmin p' = Panel.tmin p /\ Panel.tmax p' = Panel.tmax p /\
  Panel.fix_checked p' = Panel.fix_checked p /\
  Panel.fit_checked p' = Panel.fit_checked p /\
  FloatSlider._min (Panel.slider p') = FloatSlider._min (Panel.slider p) /\
  FloatSlider._max (Panel.slider p') = FloatSlider._max (Panel.slider p) /\
  FloatSlider.enabled (Panel.slider p') = FloatSlider.enabled (Panel.slider p).
Proof.
  destruct p as [i [q b en tr lo hi x l] tmn tmx fx ft st ov ol].
  destruct p' as [i' [q' b' en' tr' lo' hi' x' l'] tmn' tmx' fx' ft' st' ov' ol'].
  unfold Panel.steady, FloatSlider.steady. simpl. intros H.
  injection H as -> -> -> -> -> -> -> -> -> -> -> ->. repeat split.
Qed.

(** A parameter change that returns, a panel being selected for the fit:
    one run of the algorithm on the flags of the selection, every panel
    refreshed from the outcome, the summary shown, the flags put back. *)
Lemma on_parameter_change_selected_ok rs w w' :
  existsb Panel.fit_checked (parameters w) = true ->
  on_parameter_change E false rs w = Ok tt w' ->
  let temp := opted_out 0 (length (parameters w)) (parameters w) (Minuit.fixed (minuit w)) in
  let fitted := algorithm E (algo_choice w) (Minuit.with_fixed temp (minuit w)) in
  fit_calls w' = (algo_choice w, temp) :: fit_calls w /\
  minuit w' = Minuit.with_fixed (Minuit.fixed (minuit w)) fitted /\
  results_text w' = Some fitted /\
  length (parameters w') = length (parameters w) /\
  (forall k, k < length (parameters w) ->
     Panel.local_reset (Some (Minuit.value_at fitted k)) false (panel k w)
     = Ok tt (panel k w')) /\
  canvas w' = (if visualize E (minuit w')
               then FcnText true (reports (algo_choice w)) else Traceback).
Proof.
  intros Hsel Hrun temp fitted.
  rewrite (on_parameter_change_selected rs Hsel) in Hrun. fold temp in Hrun.
  pose proof (do_fit_refresh_spec (with_minuit (Minuit.with_fixed temp (minuit w)) w)) as Hs.
  cbv zeta in Hs.
  destruct (do_fit_refresh E (with_minuit (Minuit.with_fixed temp (minuit w)) w))
    as [rs' w2|e w2]; [|discriminate].
  destruct Hs as (-> & Hr & Hl & Hlt & _).
  rewrite replot_spec in Hrun. simpl minuit in Hrun.
  assert (Hfc : fit_calls w2 = (algo_choice w, temp) :: fit_calls w)
    by (apply (f_equal fit_calls) in Hr; exact Hr).
  assert (Hm : minuit w2 = fitted) by (apply rest_minuit in Hr; exact Hr).
  simpl in Hl. simpl algo_choice in Hrun.
  destruct (visualize E (Minuit.with_fixed (Minuit.fixed (minuit w)) (minuit w2))) eqn:Hv.
  - injection Hrun as <-. simpl. rewrite Hv, Hm.
    split; [exact Hfc|]. split; [reflexivity|]. split; [reflexivity|].
    split; [exact Hl|]. split; [|reflexivity].
    intros k Hk. specialize (Hlt k Hk). simpl in Hlt. exact Hlt.
  - destruct (raise_on_exception E); [discriminate|].
    injection Hrun as <-. simpl. rewrite Hv, Hm.
    split; [exact Hfc|]. split; [reflexivity|]. split; [reflexivity|].
    split; [exact Hl|]. split; [|reflexivity].
    intros k Hk. specialize (Hlt k Hk). simpl in Hlt. exact Hlt.
Qed.

End Session.

(** C8 (as stated, refuted).  One parameter at 5 without limits: the
    panel's slider has the window [0, 6].  "Fit" moves the parameter to
    10; the slider then holds 6, not the post-fit value. *)
Lemma fit_button_slider_not_post_fit :
  let w := Sample.window1 in
  exists w',
    click_fit_button Sample.external1 w = Ok None w' /\
    Minuit.value_at (minuit w') 0 = 10%float /\
    FloatSlider._value (Panel.slider (panel 0 w')) = 6%float /\
    FloatSlider._value (Panel.slider (panel 0 w')) <> Minuit.value_at (minuit w') 0.
Proof.
  eexists. split; [vm_compute; reflexivity|].
  split; [reflexivity|]. split; [reflexivity|].
  vm_compute. intros H.
  assert (Hc : (6 =? 10)%float = true) by (rewrite H; reflexivity).
  vm_compute in Hc. discriminate.
Qed.

(** C8 (amended).  After a fit run from the "Fit" button the minimizer
    holds what the selected algorithm returned; every panel's slider holds
    the post-fit value of its parameter brought into the slider's window,
    the value label shows the post-fit value itself, and the panel's
    min/max fields and the slider's window are unchanged. *)
Theorem fit_button_refreshes (E : External) (w w' : t) (r : option bool) (i : nat) :
  click_fit_button E w = Ok r w' ->
  i < length (parameters w) ->
  let p := panel i w in
  let p' := panel i w' in
  let v := Minuit.value_at (minuit w') i in
  minuit w' = algorithm E (algo_choice w) (minuit w) /\
  FloatSlider._value (Panel.slider p') = FloatSlider.clamp (Panel.slider p) v /\
  FloatSlider._label (Panel.slider p') = Some v /\
  FloatSlider._min (Panel.slider p') = FloatSlider._min (Panel.slider p) /\
  FloatSlider._max (Panel.slider p') = FloatSlider._max (Panel.slider p) /\
  Panel.tmin p' = Panel.tmin p /\ Panel.tmax p' = Panel.tmax p.
Proof.
  unfold click_fit_button, do_fit. intros Hrun Hi.
  unfold bind at 1 in Hrun.
  pose proof (do_fit_refresh_spec E w) as Hspec. cbv zeta in Hspec.
  destruct (do_fit_refresh E w) as [rs w2|e w2]; [|discriminate].
  destruct Hspec as (-> & Hr & Hl & Hlt & _).
  unfold bind in Hrun. change (negb true) with false in Hrun. cbv beta iota in Hrun.
  rewrite on_parameter_change_from_fit in Hrun.
  assert (Hm : minuit w2 = algorithm E (algo_choice w) (minuit w))
    by (apply rest_minuit in Hr; exact Hr).
  assert (Hw' : parameters w' = parameters w2 /\ minuit w' = minuit w2).
  { destruct (visualize E (minuit w2)); [injection Hrun as _ <-; split; reflexivity|].
    destruct (raise_on_exception E); [discriminate|].
    injection Hrun as _ <-; split; reflexivity. }
  destruct Hw' as [Hps Hmw]. cbv zeta.
  assert (Hp' : panel i w' = panel i w2) by (unfold panel; rewrite Hps; reflexivity).
  rewrite Hp', Hmw, Hm.
  specialize (Hlt i Hi). simpl in Hlt.
  change (panel i (with_minuit (algorithm E (algo_choice w) (minuit w))
            (with_fit_calls ((algo_choice w, Minuit.fixed (minuit w)) :: fit_calls w) w)))
    with (panel i w) in Hlt.
  pose proof (PanelLogic.local_reset_value
                (Minuit.value_at (algorithm E (algo_choice w) (minuit w)) i) (panel i w)) as H.
  rewrite Hlt in H. destruct H as (Hs & Hv & Hlab & _).
  destruct (steady_fields Hs) as (_ & Htmin & Htmax & _ & _ & Hlo & Hhi & _).
  repeat split; assumption.
Qed.

(** An instance: the window of the counterexample. *)
Lemma fit_button_refreshes_witness :
  let w' := final (click_fit_button Sample.external1 Sample.window1) in
  FloatSlider._value (Panel.slider (panel 0 w')) =
    FloatSlider.clamp (Panel.slider (panel 0 Sample.window1)) (Minuit.value_at (minuit w') 0) /\
  FloatSlider._label (Panel.slider (panel 0 w')) = Some (Minuit.value_at (minuit w') 0) /\
  Panel.tmin (panel 0 w') = Panel.tmin (panel 0 Sample.window1).
Proof.
  assert (Hrun : click_fit_button Sample.external1 Sample.window1
                 = Ok None (final (click_fit_button Sample.external1 Sample.window1)))
    by (vm_compute; reflexivity).
  assert (Hi : 0 < length (parameters Sample.window1)) by (vm_compute; lia).
  destruct (fit_button_refreshes Hrun Hi) as (_ & Hv & Hl & _ & _ & Ht & _).
  cbv zeta. split; [exact Hv | split; [exact Hl | exact Ht]].
Defined.

(** *** The toggles *)

Section Toggles.

Variable E : External.
Hypothesis HK : keeps_fixed E.

Definition inv (w : t) : Prop := indexed w /\ exclusive w.

Lemma store_panel_beyond i p w : ~ has_panel i w -> store_panel i p w = w.
Proof.
  unfold has_panel, store_panel. intros H.
  rewrite ListFacts.set_nth_beyond by lia. destruct w; reflexivity.
Qed.

Lemma panel_beyond i w : ~ has_panel i w -> panel i w = Panel.blank i.
Proof.
  unfold has_panel, panel. intros H. apply nth_overflow. lia.
Qed.

(** Writing back a panel [p'] of parameter [i] that respects the
    exclusion, with flags [f'] that respect it for the other panels. *)
Lemma inv_store i p' f' w :
  inv w -> has_panel i w -> Panel.par p' = i ->
  Panel.fix_checked p' && Panel.fit_checked p' = false ->
  (Panel.fit_checked p' = true -> nth i f' false = false) ->
  (forall j, j <> i -> nth j f' false = nth j (Minuit.fixed (minuit w)) false) ->
  inv (store_panel i p' (with_minuit (Minuit.with_fixed f' (minuit w)) w)).
Proof.
  intros [Hidx Hex] Hi Hpar Hb Hf Hoth.
  assert (Hi' : has_panel i (with_minuit (Minuit.with_fixed f' (minuit w)) w)) by exact Hi.
  split.
  - intros j Hj. simpl in Hj. rewrite ListFacts.length_set_nth in Hj.
    destruct (Nat.eq_dec j i) as [->|Hne].
    + rewrite panel_store by exact Hi'. exact Hpar.
    + rewrite panel_store_other by auto. apply Hidx. exact Hj.
  - intros j Hj. simpl in Hj. rewrite ListFacts.length_set_nth in Hj.
    destruct (Nat.eq_dec j i) as [->|Hne].
    + rewrite panel_store by exact Hi'. split; [exact Hb | exact Hf].
    + rewrite panel_store_other by auto.
      destruct (Hex j Hj) as [H1 H2]. split; [exact H1|].
      intros Hfit. unfold Minuit.fixed_at. simpl. rewrite Hoth by exact Hne.
      apply H2, Hfit.
Qed.

(** The invariant reads only the buttons, the parameter of each panel and
    the fixed flags. *)
Lemma inv_transfer w w' :
  inv w ->
  map Panel.steady (parameters w') = map Panel.steady (parameters w) ->
  (forall j, j < length (parameters w) ->
     Panel.fit_checked (panel j w) = true -> Minuit.fixed_at (minuit w') j = false) ->
  inv w'.
Proof.
  intros [Hidx Hex] Hs Hf.
  assert (Hl : length (parameters w') = length (parameters w)).
  { apply (f_equal (@length _)) in Hs. rewrite !length_map in Hs. exact Hs. }
  assert (Hp : forall j, j < length (parameters w) ->
                 Panel.steady (panel j w') = Panel.steady (panel j w)).
  { intros j Hj. unfold panel.
    rewrite <- (map_nth Panel.steady (parameters w') (Panel.blank j) j).
    rewrite <- (map_nth Panel.steady (parameters w) (Panel.blank j) j).
    rewrite Hs. reflexivity. }
  split.
  - intros j Hj. rewrite Hl in Hj.
    destruct (steady_fields (Hp j Hj)) as (-> & _). apply Hidx, Hj.
  - intros j Hj. rewrite Hl in Hj.
    destruct (steady_fields (Hp j Hj)) as (_ & _ & _ & -> & -> & _).
    destruct (Hex j Hj) as [H1 H2]. split; [exact H1|].
    intros Hfit. apply Hf; assumption.
Qed.

Lemma fixed_at_opted_out w j :
  j < length (parameters w) ->
  Panel.fit_checked (panel j w) = true ->
  nth j (opted_out 0 (length (parameters w)) (parameters w) (Minuit.fixed (minuit w))) false
  = false.
Proof.
  intros Hj Hfit.
  destruct (Nat.lt_ge_cases j (length (Minuit.fixed (minuit w)))) as [Hl|Hl].
  - rewrite nth_opted_out by (try lia; exact Hl).
    unfold panel in Hfit. rewrite Hfit. reflexivity.
  - apply nth_overflow. rewrite length_opted_out. exact Hl.
Qed.

(** The session's callback keeps the invariant, however it ends. *)
Lemma callback_keeps_inv w : inv w -> inv (final (callback E w)).
Proof.
  intros Hinv. unfold callback.
  pose proof (@on_parameter_change_fixed E false w HK) as H. cbv zeta in H.
  destruct (on_parameter_change E false false w) as [[] w'|e w']; simpl.
  - destruct H as [Hs Hf]. apply (inv_transfer Hinv Hs).
    intros j Hj Hfit. unfold Minuit.fixed_at. rewrite Hf.
    destruct Hinv as [_ Hex]. apply (Hex j Hj), Hfit.
  - destruct H as [Hs [Hf|[_ Hf]]]; apply (inv_transfer Hinv Hs);
      intros j Hj Hfit; unfold Minuit.fixed_at; rewrite Hf.
    + destruct Hinv as [_ Hex]. apply (Hex j Hj), Hfit.
    + apply fixed_at_opted_out; assumption.
Qed.

Ltac run_toggle :=
  unfold click_fix, click_fit, on_fix_toggled, on_fit_toggled,
    Panel.on_fix_toggled, Panel.on_fit_toggled, Panel.slider_setEnabled,
    FloatSlider.setEnabled, FloatSlider.update, Panel.update, Panel.update_minuit,
    Panel.the_slider, Panel.store_slider, bind, gets, modify, ret.

(** What a click on "fix" leaves behind; it never raises. *)
Lemma click_fix_spec i w :
  has_panel i w ->
  let p := panel i w in
  let b := negb (Panel.fix_checked p) in
  let p' := if b then Panel.with_fit false (Panel.with_fix true p)
            else Panel.with_fix false p in
  click_fix i w
  = Ok tt (store_panel i p'
             (with_minuit
                (Minuit.with_fixed (set_nth (Panel.par p) b (Minuit.fixed (minuit w)))
                   (minuit w)) w)).
Proof.
  intros Hi p b p'. run_toggle. cbv beta.
  rewrite !panel_store by exact Hi. fold p. fold b. simpl Panel.fix_checked.
  subst p'. destruct b; simpl.
  - change (panel i (with_minuit ?m ?x)) with (panel i x).
    rewrite panel_store by exact Hi.
    rewrite <- (store_store i (Panel.with_fix true p)
                  (Panel.with_fit false (Panel.with_fix true p))
                  (with_minuit
                     (Minuit.with_fixed (set_nth (Panel.par p) true (Minuit.fixed (minuit w)))
                        (minuit w)) w)).
    reflexivity.
  - reflexivity.
Qed.

Lemma click_fix_keeps_inv i w : inv w -> inv (final (click_fix i w)).
Proof.
  intros Hinv. destruct (Nat.lt_ge_cases i (length (parameters w))) as [Hi|Hi].
  - rewrite (click_fix_spec Hi). cbv zeta. simpl final.
    assert (Hpar : Panel.par (panel i w) = i) by (destruct Hinv as [Hidx _]; apply Hidx, Hi).
    rewrite Hpar.
    destruct Hinv as [Hidx Hex]. destruct (Hex i Hi) as [Hb Hf].
    apply inv_store; try (split; assumption); try exact Hi.
    + destruct (negb (Panel.fix_checked (panel i w))); simpl; exact Hpar.
    + destruct (Panel.fix_checked (panel i w)); simpl; reflexivity.
    + destruct (Panel.fix_checked (panel i w)) eqn:Hfx; simpl.
      * intros _. apply ListFacts.nth_set_nth_default.
      * discriminate.
    + intros j Hne. apply ListFacts.nth_set_nth_other. auto.
  - assert (Hn : ~ has_panel i w) by (unfold has_panel; lia).
    run_toggle. cbv beta. rewrite !store_panel_beyond by exact Hn.
    rewrite (panel_beyond Hn). simpl.
    destruct Hinv as [Hidx Hex]. split.
    + exact Hidx.
    + intros j Hj. destruct (Hex j Hj) as [H1 H2]. split; [exact H1|].
      intros Hfit. unfold Minuit.fixed_at. simpl.
      simpl in Hj. rewrite ListFacts.nth_set_nth_other by lia. apply H2, Hfit.
Qed.

(** A click on "fit", up to the callback. *)
Lemma click_fit_spec i w :
  has_panel i w ->
  let p := panel i w in
  let b := negb (Panel.fit_checked p) in
  let p1 := Panel.with_slider (FloatSlider.with_enabled (negb b) (Panel.slider p))
              (Panel.with_fit b p) in
  let p' := if b then Panel.with_fix false p1 else p1 in
  let f' := if b then set_nth (Panel.par p) false (Minuit.fixed (minuit w))
            else Minuit.fixed (minuit w) in
  click_fit E i w
  = callback E (store_panel i p' (with_minuit (Minuit.with_fixed f' (minuit w)) w)).
Proof.
  intros Hi p b p1 p' f'. run_toggle. cbv beta.
  rewrite !panel_store by exact Hi. fold p. fold b. simpl Panel.fit_checked.
  subst p' f' p1. destruct b; simpl;
    rewrite ?store_store; rewrite ?panel_store by exact Hi; [reflexivity|].
  subst p. f_equal. unfold store_panel, panel.
  destruct w as [[v l f z] ps a u r c ov ol fc]. reflexivity.
Qed.

Lemma click_fit_keeps_inv i w : inv w -> inv (final (click_fit E i w)).
Proof.
  intros Hinv. destruct (Nat.lt_ge_cases i (length (parameters w))) as [Hi|Hi].
  - rewrite (click_fit_spec Hi). cbv zeta. apply callback_keeps_inv.
    assert (Hpar : Panel.par (panel i w) = i) by (destruct Hinv as [Hidx _]; apply Hidx, Hi).
    rewrite Hpar.
    apply inv_store; try exact Hinv; try exact Hi.
    + destruct (negb (Panel.fit_checked (panel i w))); simpl; exact Hpar.
    + destruct (Panel.fit_checked (panel i w)); simpl; [apply andb_false_r | reflexivity].
    + destruct (Panel.fit_checked (panel i w)); simpl.
      * discriminate.
      * intros _. apply ListFacts.nth_set_nth_default.
    + intros j Hne. destruct (negb (Panel.fit_checked (panel i w))); [|reflexivity].
      apply ListFacts.nth_set_nth_other. auto.
  - assert (Hn : ~ has_panel i w) by (unfold has_panel; lia).
    assert (Hc : click_fit E i w = callback E w).
    { run_toggle. cbv beta. rewrite !store_panel_beyond by exact Hn.
      rewrite (panel_beyond Hn). simpl. rewrite ?store_panel_beyond by exact Hn.
      reflexivity. }
    rewrite Hc. apply callback_keeps_inv, Hinv.
Qed.

Lemma toggles_keep_inv evs : forall w, inv w -> inv (final (toggles E evs w)).
Proof.
  induction evs as [|ev evs IH]; intros w Hinv; simpl.
  - exact Hinv.
  - unfold bind.
    assert (H1 : inv (final (toggle E ev w))).
    { destruct ev as [i|i]; simpl; [apply click_fix_keeps_inv | apply click_fit_keeps_inv];
        exact Hinv. }
    destruct (toggle E ev w) as [[] w1|e w1]; simpl in *; [apply IH, H1 | exact H1].
Qed.

(** Checking "fix": the parameter is fixed in the minimizer, "fit" is off. *)
Lemma click_fix_on i w :
  has_panel i w -> Panel.par (panel i w) = i ->
  i < length (Minuit.fixed (minuit w)) ->
  Panel.fix_checked (panel i w) = false ->
  let w' := final (click_fix i w) in
  Panel.fix_checked (panel i w') = true /\
  Panel.fit_checked (panel i w') = false /\
  Minuit.fixed_at (minuit w') i = true.
Proof.
  intros Hi Hpar Hl Hfx. rewrite (click_fix_spec Hi). cbv zeta. simpl final.
  rewrite Hfx, Hpar. simpl negb. cbv iota.
  rewrite panel_store by exact Hi. simpl.
  repeat split. unfold Minuit.fixed_at. simpl.
  apply ListFacts.nth_set_nth_same. exact Hl.
Qed.

(** Checking "fit": "fix" is off, the parameter is not fixed in the
    minimizer, and the slider is disabled, however the callback ends. *)
Lemma click_fit_on i w :
  has_panel i w -> Panel.par (panel i w) = i ->
  Panel.fit_checked (panel i w) = false ->
  let w' := final (click_fit E i w) in
  Panel.fit_checked (panel i w') = true /\
  Panel.fix_checked (panel i w') = false /\
  Minuit.fixed_at (minuit w') i = false /\
  FloatSlider.enabled (Panel.slider (panel i w')) = false.
Proof.
  intros Hi Hpar Hft. rewrite (click_fit_spec Hi). cbv zeta.
  rewrite Hft, Hpar. simpl negb. cbv iota.
  set (p' := Panel.with_fix false _).
  set (w1 := store_panel i p' _).
  assert (Hi1 : has_panel i w1) by (apply has_panel_store, Hi).
  assert (Hp1 : panel i w1 = p') by (apply panel_store, Hi).
  unfold callback.
  pose proof (@on_parameter_change_fixed E false w1 HK) as H. cbv zeta in H.
  assert (Hfields : forall w', map Panel.steady (parameters w') = map Panel.steady (parameters w1) ->
            Panel.fit_checked (panel i w') = true /\
            Panel.fix_checked (panel i w') = false /\
            FloatSlider.enabled (Panel.slider (panel i w')) = false).
  { intros w' Hs. pose proof (steady_panel i Hs) as Hsp. rewrite Hp1 in Hsp.
    destruct (steady_fields Hsp) as (_ & _ & _ & -> & -> & _ & _ & ->).
    repeat split. }
  assert (Hsame : nth i (Minuit.fixed (minuit w1)) false = false)
    by (simpl; apply ListFacts.nth_set_nth_default).
  destruct (on_parameter_change E false false w1) as [[] w'|e w']; simpl final.
  - destruct H as [Hs Hf]. destruct (Hfields w' Hs) as (H1 & H2 & H3).
    repeat split; try assumption. unfold Minuit.fixed_at. rewrite Hf. exact Hsame.
  - destruct H as [Hs Hf]. destruct (Hfields w' Hs) as (H1 & H2 & H3).
    repeat split; try assumption. unfold Minuit.fixed_at.
    destruct Hf as [Hf|[_ Hf]]; rewrite Hf; [exact Hsame|].
    apply fixed_at_opted_out; [exact Hi1 | rewrite Hp1; reflexivity].
Qed.

End Toggles.

(** *** Editing the limits *)

Section LimitEdits.

Variable E : External.
Hypothesis HL : keeps_limits E.

Definition limits_are (L : list (float * float)) (m : Minuit.t) : Prop :=
  Minuit.limits m = L.

Lemma callback_keeps_limits B L : preserves (kept B (limits_are L)) (callback E).
Proof.
  unfold callback. apply on_parameter_change_keeps.
  - intros a m Hm. unfold limits_are in *. rewrite HL. exact Hm.
  - intros f m Hm. exact Hm.
Qed.

Lemma on_val_change_keeps_limits B L i x :
  preserves (kept B (limits_are L)) (on_val_change E i x).
Proof.
  unfold on_val_change, Panel.on_val_change.
  apply preserves_bind; [apply preserves_gets | intros p].
  apply preserves_bind; [|intros u; apply callback_keeps_limits].
  apply preserves_modify. intros w [HB HR]. split; [exact HB | exact HR].
Qed.

Lemma panel_setValue_keeps B L i v :
  preserves (kept B (limits_are L))
    (Panel.slider_setValue (panel i) (store_panel i) minuit with_minuit (callback E) v).
Proof.
  unfold Panel.slider_setValue. apply SliderLogic.setValue_keeps.
  - intros f w Hf Hw. unfold Panel.store_slider, Panel.the_slider.
    apply kept_store; [exact Hw|].
    unfold Panel.steady. simpl. rewrite Hf. reflexivity.
  - intros x. apply on_val_change_keeps_limits.
Qed.

(** [slider.setMinimum(x)] on panel [i], its signal open: the lower bound
    moves as [FloatSlider.setMinimum] says, and the rest of the panels'
    steady parts and the minimizer's limits stay. *)
Lemma panel_setMinimum_final i x w :
  has_panel i w ->
  let p := panel i w in
  let s := Panel.slider p in
  let s1 := if (FloatSlider._max s <=? x)%float then s else FloatSlider.with_min x s in
  kept (map Panel.steady (parameters (store_panel i (Panel.with_slider s1 p) w)))
       (limits_are (Minuit.limits (minuit w)))
       (final (Panel.slider_setMinimum (panel i) (store_panel i) minuit with_minuit
                 (callback E) x w)).
Proof.
  intros Hi p s s1. unfold Panel.slider_setMinimum, FloatSlider.setMinimum.
  unfold bind at 1. unfold gets at 1. unfold Panel.the_slider at 1. fold p. fold s.
  subst s1. destruct (FloatSlider._max s <=? x)%float.
  - assert (Hp : Panel.with_slider s p = p) by (subst s; destruct p; reflexivity).
    rewrite Hp. unfold p. rewrite store_panel_same. split; reflexivity.
  - unfold bind at 1. unfold FloatSlider.update at 1. unfold modify at 1.
    unfold bind at 1. unfold gets at 1.
    apply preserves_final; [apply panel_setValue_keeps|].
    split; reflexivity.
Qed.

Lemma panel_setMaximum_final i x w :
  has_panel i w ->
  let p := panel i w in
  let s := Panel.slider p in
  let s1 := if Py.geb (FloatSlider._min s) x then s else FloatSlider.with_max x s in
  kept (map Panel.steady (parameters (store_panel i (Panel.with_slider s1 p) w)))
       (limits_are (Minuit.limits (minuit w)))
       (final (Panel.slider_setMaximum (panel i) (store_panel i) minuit with_minuit
                 (callback E) x w)).
Proof.
  intros Hi p s s1. unfold Panel.slider_setMaximum, FloatSlider.setMaximum.
  unfold bind at 1. unfold gets at 1. unfold Panel.the_slider at 1. fold p. fold s.
  subst s1. destruct (Py.geb (FloatSlider._min s) x).
  - assert (Hp : Panel.with_slider s p = p) by (subst s; destruct p; reflexivity).
    rewrite Hp. unfold p. rewrite store_panel_same. split; reflexivity.
  - unfold bind at 1. unfold FloatSlider.update at 1. unfold modify at 1.
    unfold bind at 1. unfold gets at 1.
    apply preserves_final; [apply panel_setValue_keeps|].
    split; reflexivity.
Qed.

(** The rejected edit: only the field changes. *)
Lemma on_min_change_rejects i w :
  has_panel i w ->
  let p := panel i w in
  Py.geb (SpinBox.value (Panel.tmin p)) (SpinBox.value (Panel.tmax p)) = true ->
  on_min_change E i w =
    Ok tt (store_panel i
             (Panel.with_tmin
                (SpinBox.quietly_set (fst (Minuit.limits_at (minuit w) (Panel.par p)))
                   (Panel.tmin p)) p) w).
Proof.
  intros Hi p Hrej. unfold on_min_change, Panel.on_min_change.
  unfold bind at 1. unfold gets at 1. fold p. rewrite Hrej.
  unfold Panel.update. unfold bind, gets, modify. cbv beta.
  repeat (rewrite ?store_store; rewrite ?panel_store by exact Hi).
  subst p. unfold SpinBox.quietly_set. destruct (panel i w); reflexivity.
Qed.

Lemma on_max_change_rejects i w :
  has_panel i w ->
  let p := panel i w in
  (SpinBox.value (Panel.tmax p) <=? SpinBox.value (Panel.tmin p))%float = true ->
  on_max_change E i w =
    Ok tt (store_panel i
             (Panel.with_tmax
                (SpinBox.quietly_set (snd (Minuit.limits_at (minuit w) (Panel.par p)))
                   (Panel.tmax p)) p) w).
Proof.
  intros Hi p Hrej. unfold on_max_change, Panel.on_max_change.
  unfold bind at 1. unfold gets at 1. fold p. rewrite Hrej.
  unfold Panel.update. unfold bind, gets, modify. cbv beta.
  repeat (rewrite ?store_store; rewrite ?panel_store by exact Hi).
  subst p. unfold SpinBox.quietly_set. destruct (panel i w); reflexivity.
Qed.

(** The accepted edit, however the handler ends. *)
Lemma on_min_change_accepts i w :
  has_panel i w ->
  let p := panel i w in
  let s := Panel.slider p in
  let lo := SpinBox.value (Panel.tmin p) in
  Py.geb lo (SpinBox.value (Panel.tmax p)) = false ->
  let r := on_min_change E i w in
  let p' := panel i (final r) in
  FloatSlider._min (Panel.slider p') =
    (if (FloatSlider._max s <=? lo)%float then FloatSlider._min s else lo) /\
  FloatSlider._max (Panel.slider p') = FloatSlider._max s /\
  Panel.tmin p' = Panel.tmin p /\ Panel.tmax p' = Panel.tmax p /\
  Minuit.limits (minuit (final r)) =
    (if returned r
     then set_nth (Panel.par p) (lo, snd (Minuit.limits_at (minuit w) (Panel.par p)))
            (Minuit.limits (minuit w))
     else Minuit.limits (minuit w)).
Proof.
  intros Hi p s lo Hacc r p'.
  assert (Hr : r = match Panel.slider_setMinimum (panel i) (store_panel i) minuit
                           with_minuit (callback E) lo w with
                   | Ok _ w1 =>
                       Ok tt (with_minuit
                                (Minuit.set_limits (Panel.par p)
                                   (lo, snd (Minuit.limits_at (minuit w1) (Panel.par p)))
                                   (minuit w1)) w1)
                   | Raised e w1 => Raised e w1
                   end).
  { subst r. unfold on_min_change, Panel.on_min_change.
    unfold bind at 1. unfold gets at 1. fold p. fold lo.
    rewrite Hacc. reflexivity. }
  subst p'. rewrite Hr. clear Hr r.
  pose proof (panel_setMinimum_final lo Hi) as Hk. cbv zeta in Hk.
  fold p in Hk. fold s in Hk.
  destruct (Panel.slider_setMinimum _ _ _ _ _ lo w) as [[] w1|e w1];
    simpl in Hk; destruct Hk as [HB HR]; unfold limits_are in HR;
    cbn [final returned];
    (assert (Hs : Panel.steady (panel i w1) =
                 Panel.steady (Panel.with_slider
                   (if (FloatSlider._max s <=? lo)%float then s
                    else FloatSlider.with_min lo s) p));
     [ unfold panel at 1;
       rewrite <- (map_nth Panel.steady (parameters w1) (Panel.blank i) i);
       rewrite HB; rewrite (map_nth Panel.steady); unfold parameters at 1; simpl;
       rewrite ListFacts.nth_set_nth_same by exact Hi; reflexivity |]);
    apply steady_fields in Hs;
    destruct Hs as (_ & Htmin & Htmax & _ & _ & Hmin & Hmax & _);
    change (panel i (with_minuit
              (Minuit.set_limits (Panel.par p)
                 (lo, snd (Minuit.limits_at (minuit w1) (Panel.par p))) (minuit w1)) w1))
      with (panel i w1);
    (split; [|split; [|split; [|split]]]);
    [ rewrite Hmin; simpl; destruct (FloatSlider._max s <=? lo)%float; reflexivity
    | rewrite Hmax; simpl; destruct (FloatSlider._max s <=? lo)%float; reflexivity
    | rewrite Htmin; reflexivity
    | rewrite Htmax; reflexivity
    | simpl; unfold Minuit.limits_at; rewrite HR; reflexivity
    | rewrite Hmin; simpl; destruct (FloatSlider._max s <=? lo)%float; reflexivity
    | rewrite Hmax; simpl; destruct (FloatSlider._max s <=? lo)%float; reflexivity
    | rewrite Htmin; reflexivity
    | rewrite Htmax; reflexivity
    | exact HR ].
Qed.

Lemma on_max_change_accepts i w :
  has_panel i w ->
  let p := panel i w in
  let s := Panel.slider p in
  let hi := SpinBox.value (Panel.tmax p) in
  (hi <=? SpinBox.value (Panel.tmin p))%float = false ->
  let r := on_max_change E i w in
  let p' := panel i (final r) in
  FloatSlider._max (Panel.slider p') =
    (if Py.geb (FloatSlider._min s) hi then FloatSlider._max s else hi) /\
  FloatSlider._min (Panel.slider p') = FloatSlider._min s /\
  Panel.tmin p' = Panel.tmin p /\ Panel.tmax p' = Panel.tmax p /\
  Minuit.limits (minuit (final r)) =
    (if returned r
     then set_nth (Panel.par p) (fst (Minuit.limits_at (minuit w) (Panel.par p)), hi)
            (Minuit.limits (minuit w))
     else Minuit.limits (minuit w)).
Proof.
  intros Hi p s hi Hacc r p'.
  assert (Hr : r = match Panel.slider_setMaximum (panel i) (store_panel i) minuit
                           with_minuit (callback E) hi w with
                   | Ok _ w1 =>
                       Ok tt (with_minuit
                                (Minuit.set_limits (Panel.par p)
                                   (fst (Minuit.limits_at (minuit w1) (Panel.par p)), hi)
                                   (minuit w1)) w1)
                   | Raised e w1 => Raised e w1
                   end).
  { subst r. unfold on_max_change, Panel.on_max_change.
    unfold bind at 1. unfold gets at 1. fold p. fold hi.
    rewrite Hacc. reflexivity. }
  subst p'. rewrite Hr. clear Hr r.
  pose proof (panel_setMaximum_final hi Hi) as Hk. cbv zeta in Hk.
  fold p in Hk. fold s in Hk.
  destruct (Panel.slider_setMaximum _ _ _ _ _ hi w) as [[] w1|e w1];
    simpl in Hk; destruct Hk as [HB HR]; unfold limits_are in HR;
    cbn [final returned];
    (assert (Hs : Panel.steady (panel i w1) =
                 Panel.steady (Panel.with_slider
                   (if Py.geb (FloatSlider._min s) hi then s
                    else FloatSlider.with_max hi s) p));
     [ unfold panel at 1;
       rewrite <- (map_nth Panel.steady (parameters w1) (Panel.blank i) i);
       rewrite HB; rewrite (map_nth Panel.steady); unfold parameters at 1; simpl;
       rewrite ListFacts.nth_set_nth_same by exact Hi; reflexivity |]);
    apply steady_fields in Hs;
    destruct Hs as (_ & Htmin & Htmax & _ & _ & Hmin & Hmax & _);
    change (panel i (with_minuit
              (Minuit.set_limits (Panel.par p)
                 (fst (Minuit.limits_at (minuit w1) (Panel.par p)), hi) (minuit w1)) w1))
      with (panel i w1);
    (split; [|split; [|split; [|split]]]);
    [ rewrite Hmax; simpl; destruct (Py.geb (FloatSlider._min s) hi); reflexivity
    | rewrite Hmin; simpl; destruct (Py.geb (FloatSlider._min s) hi); reflexivity
    | rewrite Htmin; reflexivity
    | rewrite Htmax; reflexivity
    | simpl; unfold Minuit.limits_at; rewrite HR; reflexivity
    | rewrite Hmax; simpl; destruct (Py.geb (FloatSlider._min s) hi); reflexivity
    | rewrite Hmin; simpl; destruct (Py.geb (FloatSlider._min s) hi); reflexivity
    | rewrite Htmin; reflexivity
    | rewrite Htmax; reflexivity
    | exact HR ].
Qed.

(** The slider's own methods raise only from [_float_to_int]. *)
Lemma slider_emit_total i v : total (FloatSlider._emit_float_value_changed
    (Panel.the_slider (panel i)) (Panel.store_slider (panel i) (store_panel i))
    (on_val_change E i) v).
Proof.
  unfold FloatSlider._emit_float_value_changed.
  apply total_bind.
  - destruct v; [|apply total_ret].
    apply total_bind; [|intros x; apply total_modify].
    apply total_bind; [apply total_gets | intros s; apply total_ret].
  - intros u. apply total_bind; [apply total_gets | intros x].
    apply total_bind; [apply total_modify | intros u'].
    apply total_bind; [apply total_gets | intros b].
    destruct b; [apply total_ret | apply total_contained].
Qed.

Lemma slider_QSlider_setValue_total i n : total (FloatSlider.QSlider_setValue
    (Panel.the_slider (panel i)) (Panel.store_slider (panel i) (store_panel i))
    (on_val_change E i) n).
Proof.
  unfold FloatSlider.QSlider_setValue.
  apply total_bind; [apply total_gets | intros s].
  apply total_if; [apply total_ret|].
  apply total_bind; [apply total_modify | intros u].
  apply total_if; [apply total_ret | apply total_contained].
Qed.

(** [slider.setValue(v)] on panel [i] returns unless [v] lies in the
    window and the conversion of [v] to an integer raises. *)
Lemma slider_setValue_returns i v w :
  has_panel i w ->
  let s := Panel.slider (panel i w) in
  returned (Panel.slider_setValue (panel i) (store_panel i) minuit with_minuit
              (callback E) v w) =
    (if (v <? FloatSlider._min s)%float then true
     else if Py.gtb v (FloatSlider._max s) then true
     else returned (FloatSlider._float_to_int1 v (FloatSlider.mkAlone s []))).
Proof.
  intros Hi s. unfold Panel.slider_setValue, FloatSlider.setValue.
  unfold bind at 1. unfold gets at 1.
  change (Panel.the_slider (panel i) w) with s.
  destruct (v <? FloatSlider._min s)%float.
  { apply total_bind; [apply total_modify | intros u].
    apply total_bind; [apply slider_QSlider_setValue_total | intros u'].
    apply slider_emit_total. }
  destruct (Py.gtb v (FloatSlider._max s)).
  { apply total_bind; [apply total_modify | intros u].
    apply total_bind; [apply slider_QSlider_setValue_total | intros u'].
    apply slider_emit_total. }
  unfold bind at 1. unfold FloatSlider.update at 1. unfold modify at 1.
  unfold bind at 1. unfold FloatSlider.blockSignals at 1.
  unfold FloatSlider.update at 1. unfold modify at 1.
  rewrite returned_bind_total.
  2:{ intros n. apply total_bind; [apply slider_QSlider_setValue_total | intros u].
      apply total_modify. }
  unfold FloatSlider._float_to_int1, FloatSlider._float_to_int.
  unfold bind, gets, raise, ret. unfold Panel.the_slider, Panel.store_slider.
  repeat (rewrite ?store_store; rewrite ?panel_store by exact Hi).
  cbn [Panel.slider Panel.with_slider FloatSlider.slider
       FloatSlider._min FloatSlider._max FloatSlider.with_signalsBlocked
       FloatSlider.with_value].
  fold s.
  destruct (FloatSlider._max s - FloatSlider._min s =? 0)%float; [reflexivity|].
  destruct (Py.int _); reflexivity.
Qed.

(** The accepted edit returns unless the slider's value lies in the new
    window and its conversion to an integer raises there. *)
Lemma on_min_change_returns i w :
  has_panel i w ->
  let p := panel i w in
  let s := Panel.slider p in
  let lo := SpinBox.value (Panel.tmin p) in
  Py.geb lo (SpinBox.value (Panel.tmax p)) = false ->
  returned (on_min_change E i w) =
    (if (FloatSlider._max s <=? lo)%float then true
     else if (FloatSlider._value s <? lo)%float then true
     else if Py.gtb (FloatSlider._value s) (FloatSlider._max s) then true
     else returned (FloatSlider._float_to_int1 (FloatSlider._value s)
                      (FloatSlider.mkAlone (FloatSlider.with_min lo s) []))).
Proof.
  intros Hi p s lo Hacc. unfold on_min_change, Panel.on_min_change.
  unfold bind at 1. unfold gets at 1. fold p. fold lo. rewrite Hacc.
  rewrite returned_bind_total.
  2:{ intros u. apply total_bind; [apply total_gets | intros m]. apply total_modify. }
  unfold Panel.slider_setMinimum, FloatSlider.setMinimum.
  unfold bind at 1. unfold gets at 1. unfold Panel.the_slider at 1. fold p. fold s.
  destruct (FloatSlider._max s <=? lo)%float; [reflexivity|].
  unfold bind at 1. unfold FloatSlider.update at 1. unfold modify at 1.
  unfold bind at 1. unfold gets at 1.
  pose proof (@slider_setValue_returns i (FloatSlider._value s)
                (store_panel i (Panel.with_slider (FloatSlider.with_min lo s) p) w)) as H.
  cbv zeta in H. rewrite panel_store in H by exact Hi.
  assert (Hv : forall s1,
    FloatSlider._value (Panel.the_slider (panel i)
      (Panel.store_slider (panel i) (store_panel i) s1 w)) = FloatSlider._value s1).
  { intros s1. unfold Panel.the_slider, Panel.store_slider.
    rewrite panel_store by exact Hi. reflexivity. }
  rewrite Hv. apply H.
  unfold has_panel, store_panel. simpl. rewrite ListFacts.length_set_nth. exact Hi.
Qed.

Lemma on_max_change_returns i w :
  has_panel i w ->
  let p := panel i w in
  let s := Panel.slider p in
  let hi := SpinBox.value (Panel.tmax p) in
  (hi <=? SpinBox.value (Panel.tmin p))%float = false ->
  returned (on_max_change E i w) =
    (if Py.geb (FloatSlider._min s) hi then true
     else if (FloatSlider._value s <? FloatSlider._min s)%float then true
     else if Py.gtb (FloatSlider._value s) hi then true
     else returned (FloatSlider._float_to_int1 (FloatSlider._value s)
                      (FloatSlider.mkAlone (FloatSlider.with_max hi s) []))).
Proof.
  intros Hi p s hi Hacc. unfold on_max_change, Panel.on_max_change.
  unfold bind at 1. unfold gets at 1. fold p. fold hi. rewrite Hacc.
  rewrite returned_bind_total.
  2:{ intros u. apply total_bind; [apply total_gets | intros m]. apply total_modify. }
  unfold Panel.slider_setMaximum, FloatSlider.setMaximum.
  unfold bind at 1. unfold gets at 1. unfold Panel.the_slider at 1. fold p. fold s.
  destruct (Py.geb (FloatSlider._min s) hi); [reflexivity|].
  unfold bind at 1. unfold FloatSlider.update at 1. unfold modify at 1.
  unfold bind at 1. unfold gets at 1.
  pose proof (@slider_setValue_returns i (FloatSlider._value s)
                (store_panel i (Panel.with_slider (FloatSlider.with_max hi s) p) w)) as H.
  cbv zeta in H. rewrite panel_store in H by exact Hi.
  assert (Hv : forall s1,
    FloatSlider._value (Panel.the_slider (panel i)
      (Panel.store_slider (panel i) (store_panel i) s1 w)) = FloatSlider._value s1).
  { intros s1. unfold Panel.the_slider, Panel.store_slider.
    rewrite panel_store by exact Hi. reflexivity. }
  rewrite Hv. apply H.
  unfold has_panel, store_panel. simpl. rewrite ListFacts.length_set_nth. exact Hi.
Qed.

End LimitEdits.

(** C2.  With a minimizer whose algorithms leave the fixed flags alone,
    the exclusion holds after any sequence of toggle events, however each
    of them ends: no panel has "fix" and "fit" both checked, and no
    parameter checked for the fit is fixed in the minimizer.  Checking
    "fix" fixes the parameter in the minimizer and unchecks "fit";
    checking "fit" unchecks "fix" and releases the parameter in the
    minimizer. *)
Theorem toggles_keep_exclusion (E : External) (evs : list Toggle) (w : t) :
  keeps_fixed E -> indexed w -> exclusive w ->
  (exclusive (final (toggles E evs w)) /\ indexed (final (toggles E evs w))) /\
  (forall i, has_panel i w -> i < length (Minuit.fixed (minuit w)) ->
     Panel.fix_checked (panel i w) = false ->
     let w1 := final (click_fix i w) in
     Panel.fix_checked (panel i w1) = true /\
     Panel.fit_checked (panel i w1) = false /\
     Minuit.fixed_at (minuit w1) i = true) /\
  (forall i, has_panel i w -> Panel.fit_checked (panel i w) = false ->
     let w1 := final (click_fit E i w) in
     Panel.fit_checked (panel i w1) = true /\
     Panel.fix_checked (panel i w1) = false /\
     Minuit.fixed_at (minuit w1) i = false).
Proof.
  intros HK Hidx Hex. split; [|split].
  - destruct (@toggles_keep_inv E HK evs w (conj Hidx Hex)) as [H1 H2].
    split; assumption.
  - intros i Hi Hl Hfx. apply click_fix_on; auto.
  - intros i Hi Hft.
    destruct (@click_fit_on E HK i w Hi (Hidx i Hi) Hft) as (H1 & H2 & H3 & _).
    cbv zeta. repeat split; assumption.
Qed.

Lemma external2_keeps_fixed : keeps_fixed Sample.external2.
Proof. intros [ | | ] m; reflexivity. Qed.

Lemma window2_indexed : indexed Sample.window2.
Proof.
  intros i Hi. change (length (parameters Sample.window2)) with 2 in Hi.
  destruct i as [|[|i]]; [reflexivity | reflexivity | lia].
Qed.

Lemma window2_exclusive : exclusive Sample.window2.
Proof.
  intros i Hi. change (length (parameters Sample.window2)) with 2 in Hi.
  destruct i as [|[|i]]; [split; [reflexivity | discriminate]
                         | split; [reflexivity | discriminate] | lia].
Qed.

Lemma toggles_keep_exclusion_witness :
  exclusive (final (toggles Sample.external2
                      [ToggleFit 1; ToggleFix 1; ToggleFix 0; ToggleFit 0] Sample.window2)).
Proof.
  apply (toggles_keep_exclusion
           [ToggleFit 1; ToggleFix 1; ToggleFix 0; ToggleFit 0]
           external2_keeps_fixed window2_indexed window2_exclusive).
Defined.

(** C10.  A parameter is fixed and its panel's "fix" is checked.
    Checking "fit" releases it in the minimizer and unchecks "fix";
    unchecking "fit" afterwards enables the slider again and leaves the
    parameter released and "fix" unchecked. *)
Theorem fit_off_does_not_refix (E : External) (i : nat) (w w1 w2 : t) :
  has_panel i w -> Panel.par (panel i w) = i ->
  Panel.fix_checked (panel i w) = true ->
  Panel.fit_checked (panel i w) = false ->
  Minuit.fixed_at (minuit w) i = true ->
  click_fit E i w = Ok tt w1 ->
  click_fit E i w1 = Ok tt w2 ->
  (Panel.fit_checked (panel i w1) = true /\
   Panel.fix_checked (panel i w1) = false /\
   Minuit.fixed_at (minuit w1) i = false /\
   FloatSlider.enabled (Panel.slider (panel i w1)) = false) /\
  (Panel.fit_checked (panel i w2) = false /\
   Panel.fix_checked (panel i w2) = false /\
   Minuit.fixed_at (minuit w2) i = false /\
   FloatSlider.enabled (Panel.slider (panel i w2)) = true).
Proof.
  intros Hi Hpar Hfx Hft Hfixed Hrun1 Hrun2.
  (* the first click *)
  rewrite (click_fit_spec E Hi) in Hrun1. cbv zeta in Hrun1.
  rewrite Hft, Hpar in Hrun1. simpl negb in Hrun1. cbv iota in Hrun1.
  unfold callback in Hrun1.
  destruct (on_parameter_change_ok Hrun1) as [Hs1 Hf1].
  pose proof (steady_panel i Hs1) as Hp1.
  rewrite panel_store in Hp1 by exact Hi.
  destruct (steady_fields Hp1) as (Hpar1 & _ & _ & Hfx1 & Hft1 & _ & _ & Hen1).
  simpl in Hpar1, Hfx1, Hft1, Hen1.
  assert (Hi1 : has_panel i w1).
  { unfold has_panel. rewrite (steady_length Hs1). simpl.
    rewrite ListFacts.length_set_nth. exact Hi. }
  assert (Hfa1 : Minuit.fixed_at (minuit w1) i = false).
  { unfold Minuit.fixed_at. rewrite Hf1. simpl. apply ListFacts.nth_set_nth_default. }
  split; [repeat split; assumption|].
  (* the second click *)
  rewrite (click_fit_spec E Hi1) in Hrun2. cbv zeta in Hrun2.
  rewrite Hft1 in Hrun2. simpl negb in Hrun2. cbv iota in Hrun2.
  unfold callback in Hrun2.
  destruct (on_parameter_change_ok Hrun2) as [Hs2 Hf2].
  pose proof (steady_panel i Hs2) as Hp2.
  rewrite panel_store in Hp2 by exact Hi1.
  destruct (steady_fields Hp2) as (_ & _ & _ & Hfx2 & Hft2 & _ & _ & Hen2).
  simpl in Hfx2, Hft2, Hen2.
  repeat split; try assumption.
  - rewrite Hfx2. exact Hfx1.
  - unfold Minuit.fixed_at. rewrite Hf2. simpl. exact Hfa1.
Qed.

Lemma fit_off_does_not_refix_witness :
  let w1 := final (click_fit Sample.external2 1 Sample.window2) in
  let w2 := final (click_fit Sample.external2 1 w1) in
  Minuit.fixed_at (minuit Sample.window2) 1 = true /\
  Minuit.fixed_at (minuit w2) 1 = false /\
  Panel.fix_checked (panel 1 w2) = false /\
  FloatSlider.enabled (Panel.slider (panel 1 w2)) = true.
Proof.
  assert (Hi : has_panel 1 Sample.window2) by (unfold has_panel; vm_compute; lia).
  assert (Hrun1 : click_fit Sample.external2 1 Sample.window2
                  = Ok tt (final (click_fit Sample.external2 1 Sample.window2)))
    by (vm_compute; reflexivity).
  assert (Hrun2 : click_fit Sample.external2 1
                    (final (click_fit Sample.external2 1 Sample.window2))
                  = Ok tt (final (click_fit Sample.external2 1
                             (final (click_fit Sample.external2 1 Sample.window2)))))
    by (vm_compute; reflexivity).
  destruct (@fit_off_does_not_refix Sample.external2 1 Sample.window2 _ _
              Hi eq_refl eq_refl eq_refl eq_refl Hrun1 Hrun2)
    as (_ & (_ & Hfx & Hfa & Hen)).
  cbv zeta. split; [reflexivity|]. split; [exact Hfa|]. split; [exact Hfx | exact Hen].
Defined.

(** C5 (as stated, refuted).  With "Simplex" chosen and the panel's "fit"
    button checked, a parameter change runs the fit and restores the
    flags, but the plot then shows no "success"/"FAILURE": [fit] returns
    [False] for Simplex. *)
Lemma simplex_reports_nothing :
  let w := Sample.window1_simplex in
  exists w',
    existsb Panel.fit_checked (parameters w) = true /\
    on_parameter_change Sample.external1 false false w = Ok tt w' /\
    fit_calls w' = (Simplex, [false]) :: fit_calls w /\
    Minuit.fixed (minuit w') = Minuit.fixed (minuit w) /\
    canvas w' = FcnText true false.
Proof.
  eexists. split; [reflexivity|]. split; [vm_compute; reflexivity|].
  repeat split; reflexivity.
Qed.

(** C5 (amended).  With at least one panel checked for the fit, a
    parameter change that returns has run the selected algorithm once, on
    fixed flags that are true for every panel not checked and false for
    the checked ones.  Every panel is then refreshed from the outcome: its
    slider holds the post-fit value of its parameter brought into the
    slider's window and its label shows the post-fit value, while the
    slider's window, the min/max fields and the buttons stay.  The results
    panel shows the minimizer as the fit left it; afterwards the
    minimizer's fixed flags are the saved ones again, everything else of
    the minimizer being what the algorithm returned, and the plot is
    redrawn, showing "success"/"FAILURE" when the algorithm is Migrad
    or Scipy, nothing of the kind for Simplex, and the traceback when the
    plot routine raised. *)
Theorem fit_selected_brackets_fixed (E : External) (rs : bool) (w w' : t) :
  existsb Panel.fit_checked (parameters w) = true ->
  on_parameter_change E false rs w = Ok tt w' ->
  let temp := opted_out 0 (length (parameters w)) (parameters w) (Minuit.fixed (minuit w)) in
  let fitted := algorithm E (algo_choice w) (Minuit.with_fixed temp (minuit w)) in
  fit_calls w' = (algo_choice w, temp) :: fit_calls w /\
  (forall i, i < length (parameters w) -> i < length (Minuit.fixed (minuit w)) ->
     nth i temp false = negb (Panel.fit_checked (panel i w))) /\
  Minuit.values (minuit w') = Minuit.values fitted /\
  Minuit.fixed (minuit w') = Minuit.fixed (minuit w) /\
  minuit w' = Minuit.with_fixed (Minuit.fixed (minuit w)) fitted /\
  results_text w' = Some fitted /\
  length (parameters w') = length (parameters w) /\
  (forall i, i < length (parameters w) ->
     let p := panel i w in
     let p' := panel i w' in
     let v := Minuit.value_at fitted i in
     FloatSlider._value (Panel.slider p') = FloatSlider.clamp (Panel.slider p) v /\
     FloatSlider._label (Panel.slider p') = Some v /\
     FloatSlider._min (Panel.slider p') = FloatSlider._min (Panel.slider p) /\
     FloatSlider._max (Panel.slider p') = FloatSlider._max (Panel.slider p) /\
     Panel.tmin p' = Panel.tmin p /\ Panel.tmax p' = Panel.tmax p /\
     Panel.fix_checked p' = Panel.fix_checked p /\
     Panel.fit_checked p' = Panel.fit_checked p) /\
  canvas w' = (if visualize E (minuit w')
               then FcnText true (reports (algo_choice w)) else Traceback).
Proof.
  intros Hsel Hrun temp fitted.
  destruct (@on_parameter_change_selected_ok E rs w w' Hsel Hrun)
    as (Hfc & Hm & Hres & Hlen & Hpan & Hcan).
  fold temp in Hfc, Hm, Hres, Hpan. fold fitted in Hm, Hres, Hpan.
  split; [exact Hfc|].
  split; [intros i Hi Hl; unfold temp, panel; apply nth_opted_out; [lia | exact Hl]|].
  split; [rewrite Hm; reflexivity|].
  split; [rewrite Hm; reflexivity|].
  split; [exact Hm|]. split; [exact Hres|]. split; [exact Hlen|].
  split; [|exact Hcan].
  intros i Hi p p' v.
  pose proof (PanelLogic.local_reset_value v (panel i w)) as H.
  unfold v in H. rewrite (Hpan i Hi) in H. destruct H as (Hs & Hv & Hlab & _).
  destruct (steady_fields Hs) as (_ & Htmin & Htmax & Hfx & Hft & Hlo & Hhi & _).
  repeat split; assumption.
Qed.

Lemma fit_selected_brackets_fixed_witness :
  let w := Sample.window1_simplex in
  let w' := final (on_parameter_change Sample.external1 false false w) in
  fit_calls w' = (Simplex, [false]) :: fit_calls w /\
  Minuit.fixed (minuit w') = Minuit.fixed (minuit w) /\
  Panel.tmin (panel 0 w') = Panel.tmin (panel 0 w).
Proof.
  assert (Hsel : existsb Panel.fit_checked (parameters Sample.window1_simplex) = true)
    by reflexivity.
  assert (Hrun : on_parameter_change Sample.external1 false false Sample.window1_simplex
                 = Ok tt (final (on_parameter_change Sample.external1 false false
                                   Sample.window1_simplex)))
    by (vm_compute; reflexivity).
  assert (Hi : 0 < length (parameters Sample.window1_simplex)) by (vm_compute; lia).
  destruct (fit_selected_brackets_fixed Hsel Hrun)
    as (Hc & _ & _ & Hf & _ & _ & _ & Hp & _).
  destruct (Hp 0 Hi) as (_ & _ & _ & _ & Ht & _).
  cbv zeta. split; [exact Hc|]. split; [exact Hf | exact Ht].
Defined.

(** C6 (as stated, refuted).  One parameter at 5 without limits; the
    fields show 4 and 6 and the slider has the window [0, 6].  The upper
    field is edited to 3: the edit is rejected and the field takes the
    stored upper limit, infinity, bounded by the field's range.  The lower
    field is then edited to 10: the edit is accepted and the minimizer's
    limits become (10, inf), but the slider's lower bound is still 0. *)
Lemma accepted_min_edit_leaves_slider :
  let w := final (edit_tmax Sample.external1 0 3 Sample.window1) in
  exists w',
    SpinBox.value (Panel.tmax (panel 0 w)) = Py.float_max /\
    edit_tmin Sample.external1 0 10 w = Ok tt w' /\
    SpinBox.value (Panel.tmin (panel 0 w')) = 10%float /\
    Py.geb 10 (SpinBox.value (Panel.tmax (panel 0 w'))) = false /\
    FloatSlider._min (Panel.slider (panel 0 w')) = 0%float /\
    FloatSlider._max (Panel.slider (panel 0 w')) = 6%float /\
    Minuit.limits_at (minuit w') 0 = (10%float, infinity).
Proof.
  eexists. split; [vm_compute; reflexivity|].
  split; [vm_compute; reflexivity|].
  repeat split; vm_compute; reflexivity.
Qed.

(** C6 (amended).  With a minimizer whose algorithms leave the limits
    alone.  A lower field holding [lo >= ] the upper field's value: the
    handler only sets the field, without notification, to the minimizer's
    stored lower limit rounded to the field's two decimals and bounded by
    the field's range; slider, other field and minimizer stay.  Otherwise,
    however the handler ends: the slider's lower bound is [lo], unless the
    slider's upper bound is [<= lo], and then the slider's window stays;
    the fields stay; the minimizer's limit pair of the parameter is
    ([lo], previous upper limit) when the handler returns and stays when
    it raises.  It raises only when the slider's value lies in the new
    window and the slider's conversion of it to an integer raises; what
    the slots of the value change raise does not come back to it.  The
    upper field likewise, with [hi <= ] the lower field's value rejected
    and the slider's upper bound kept when the slider's lower bound is
    [>= hi]. *)
Theorem limit_edits_checked (E : External) (i : nat) (w : t) :
  keeps_limits E ->
  has_panel i w ->
  let p := panel i w in
  let s := Panel.slider p in
  let lo := SpinBox.value (Panel.tmin p) in
  let hi := SpinBox.value (Panel.tmax p) in
  let lim := Minuit.limits_at (minuit w) (Panel.par p) in
  (Py.geb lo hi = true ->
     let b := SpinBox.quietly_set (fst lim) (Panel.tmin p) in
     on_min_change E i w = Ok tt (store_panel i (Panel.with_tmin b p) w) /\
     SpinBox.notified b = SpinBox.notified (Panel.tmin p) /\
     SpinBox.value b = SpinBox.bound (Panel.tmin p) (SpinBox.round (fst lim)) /\
     SpinBox.minimum b = SpinBox.minimum (Panel.tmin p) /\
     SpinBox.maximum b = SpinBox.maximum (Panel.tmin p)) /\
  (Py.geb lo hi = false ->
     let r := on_min_change E i w in
     let p' := panel i (final r) in
     FloatSlider._min (Panel.slider p') =
       (if (FloatSlider._max s <=? lo)%float then FloatSlider._min s else lo) /\
     FloatSlider._max (Panel.slider p') = FloatSlider._max s /\
     Panel.tmin p' = Panel.tmin p /\ Panel.tmax p' = Panel.tmax p /\
     Minuit.limits (minuit (final r)) =
       (if returned r
        then set_nth (Panel.par p) (lo, snd lim) (Minuit.limits (minuit w))
        else Minuit.limits (minuit w)) /\
     returned r =
       (if (FloatSlider._max s <=? lo)%float then true
        else if (FloatSlider._value s <? lo)%float then true
        else if Py.gtb (FloatSlider._value s) (FloatSlider._max s) then true
        else returned (FloatSlider._float_to_int1 (FloatSlider._value s)
                         (FloatSlider.mkAlone (FloatSlider.with_min lo s) [])))) /\
  ((hi <=? lo)%float = true ->
     let b := SpinBox.quietly_set (snd lim) (Panel.tmax p) in
     on_max_change E i w = Ok tt (store_panel i (Panel.with_tmax b p) w) /\
     SpinBox.notified b = SpinBox.notified (Panel.tmax p) /\
     SpinBox.value b = SpinBox.bound (Panel.tmax p) (SpinBox.round (snd lim)) /\
     SpinBox.minimum b = SpinBox.minimum (Panel.tmax p) /\
     SpinBox.maximum b = SpinBox.maximum (Panel.tmax p)) /\
  ((hi <=? lo)%float = false ->
     let r := on_max_change E i w in
     let p' := panel i (final r) in
     FloatSlider._max (Panel.slider p') =
       (if Py.geb (FloatSlider._min s) hi then FloatSlider._max s else hi) /\
     FloatSlider._min (Panel.slider p') = FloatSlider._min s /\
     Panel.tmin p' = Panel.tmin p /\ Panel.tmax p' = Panel.tmax p /\
     Minuit.limits (minuit (final r)) =
       (if returned r
        then set_nth (Panel.par p) (fst lim, hi) (Minuit.limits (minuit w))
        else Minuit.limits (minuit w)) /\
     returned r =
       (if Py.geb (FloatSlider._min s) hi then true
        else if (FloatSlider._value s <? FloatSlider._min s)%float then true
        else if Py.gtb (FloatSlider._value s) hi then true
        else returned (FloatSlider._float_to_int1 (FloatSlider._value s)
                         (FloatSlider.mkAlone (FloatSlider.with_max hi s) [])))).
Proof.
  intros HL Hi p s lo hi lim.
  assert (Hq : forall x b,
    SpinBox.notified (SpinBox.quietly_set x b) = SpinBox.notified b /\
    SpinBox.value (SpinBox.quietly_set x b) = SpinBox.bound b (SpinBox.round x) /\
    SpinBox.minimum (SpinBox.quietly_set x b) = SpinBox.minimum b /\
    SpinBox.maximum (SpinBox.quietly_set x b) = SpinBox.maximum b).
  { intros x [v l h st bl n]. repeat split; reflexivity. }
  split; [|split; [|split]].
  - intros Hrej b. split; [apply (on_min_change_rejects E Hi Hrej)|]. apply Hq.
  - intros Hacc r p'.
    destruct (on_min_change_accepts HL Hi Hacc) as (H1 & H2 & H3 & H4 & H5).
    repeat (split; [assumption|]). apply (on_min_change_returns E Hi Hacc).
  - intros Hrej b. split; [apply (on_max_change_rejects E Hi Hrej)|]. apply Hq.
  - intros Hacc r p'.
    destruct (on_max_change_accepts HL Hi Hacc) as (H1 & H2 & H3 & H4 & H5).
    repeat (split; [assumption|]). apply (on_max_change_returns E Hi Hacc).
Qed.

Lemma external1_keeps_limits : keeps_limits Sample.external1.
Proof. intros [ | | ] m; reflexivity. Qed.

Lemma limit_edits_checked_witness :
  let p := panel 0 Sample.window1 in
  let w := store_panel 0 (Panel.with_tmin (SpinBox.setValue 4.5 (Panel.tmin p)) p)
             Sample.window1 in
  let w' := final (on_min_change Sample.external1 0 w) in
  keeps_limits Sample.external1 /\ has_panel 0 w /\
  FloatSlider._min (Panel.slider (panel 0 w')) = 4.5%float /\
  Minuit.limits (minuit w') = [(4.5%float, infinity)].
Proof.
  intros p w w'.
  assert (Hi : has_panel 0 w) by (unfold has_panel; vm_compute; lia).
  split; [exact external1_keeps_limits|]. split; [exact Hi|].
  destruct (limit_edits_checked external1_keeps_limits Hi) as (_ & Hacc & _).
  destruct (Hacc eq_refl) as (Hmin & _ & _ & _ & Hlim & _).
  split; [exact Hmin | exact Hlim].
Defined.

(** The reverted field shows two decimals: with the limits (0.123, 8)
    the lower field starts at 0.12; typing 9 into it is rejected, and the
    field goes back to 0.12, not to the stored limit 0.123. *)
Lemma rejected_edit_shows_two_decimals :
  let m := Minuit.mk [5%float] [(0.123%float, 8%float)] [false] 0 in
  let w := final (__init__ Sample.external1 m) in
  exists w',
    edit_tmin Sample.external1 0 9 w = Ok tt w' /\
    Minuit.limits_at (minuit w') 0 = (0.123%float, 8%float) /\
    SpinBox.value (Panel.tmin (panel 0 w)) = 0.12%float /\
    SpinBox.value (Panel.tmin (panel 0 w')) = 0.12%float /\
    FloatSlider._min (Panel.slider (panel 0 w')) = 0.123%float.
Proof.
  eexists. split; [vm_compute; reflexivity|].
  repeat split; vm_compute; reflexivity.
Qed.

(** *** The "Reset" button *)

(** The minimizer after the first three lines of the handler. *)
Definition restored (E : External) (w : t) : Minuit.t :=
  Minuit.with_limits (original_limits w)
    (Minuit.with_values (original_values w) (reset E (minuit w))).

Lemma on_reset_button_clicked_eq E w :
  on_reset_button_clicked E w =
    (for_range 0 (length (parameters w)) (refresh true) ;;
     on_parameter_change E false false) (with_minuit (restored E w) w).
Proof. reflexivity. Qed.

Lemma none_selected_nth (ps ps' : list Panel.t) :
  length ps' = length ps ->
  (forall k, k < length ps ->
     Panel.fit_checked (nth k ps' (Panel.blank k)) =
     Panel.fit_checked (nth k ps (Panel.blank k))) ->
  existsb Panel.fit_checked ps = false ->
  existsb Panel.fit_checked ps' = false.
Proof.
  intros Hl Hk Hsel.
  destruct (existsb Panel.fit_checked ps') eqn:Hex; [|reflexivity].
  apply existsb_exists in Hex. destruct Hex as (x & Hin & Hx).
  destruct (In_nth ps' x (Panel.blank 0) Hin) as (k & Hlt & Hnth).
  rewrite Hl in Hlt.
  specialize (Hk k Hlt).
  rewrite (nth_indep ps' (Panel.blank k) (Panel.blank 0)) in Hk by lia.
  rewrite Hnth, Hx in Hk.
  rewrite (existsb_nth Panel.fit_checked ps (Panel.blank k) Hlt Hsel) in Hk.
  discriminate.
Qed.

(** What [reset(val=v, limits=True)] leaves of a panel. *)
Lemma local_reset_limits_fields (v : float) (p p' : Panel.t) :
  Panel.local_reset (Some v) true p = Ok tt p' ->
  let s := Panel.slider p in
  let lo0 := fst (Panel.original_limits p) in
  let hi0 := snd (Panel.original_limits p) in
  let lo' := if (FloatSlider._max s <=? lo0)%float then FloatSlider._min s else lo0 in
  let hi' := if (hi0 <=? lo')%float then FloatSlider._max s else hi0 in
  Panel.fit_checked p' = Panel.fit_checked p /\
  Panel.tmin p' = SpinBox.quietly_set lo0 (Panel.tmin p) /\
  Panel.tmax p' = SpinBox.quietly_set hi0 (Panel.tmax p) /\
  FloatSlider._min (Panel.slider p') = lo' /\
  FloatSlider._max (Panel.slider p') = hi' /\
  FloatSlider._value (Panel.slider p') =
    (if (v <? lo')%float then lo' else if (hi' <? v)%float then hi' else v) /\
  FloatSlider._label (Panel.slider p') = Some v.
Proof.
  intros Hrun s lo0 hi0 lo' hi'.
  pose proof (PanelLogic.local_reset_limits p v) as H. cbv zeta in H.
  rewrite Hrun in H. destruct H as (Hs & Hv & Hl & _).
  fold s lo0 hi0 in Hs, Hv. fold lo' in Hs, Hv. fold hi' in Hs, Hv.
  unfold PanelLogic.shaped in Hs.
  split; [rewrite Hs; reflexivity|].
  split; [rewrite Hs; reflexivity|].
  split; [rewrite Hs; reflexivity|].
  split; [rewrite Hs; reflexivity|].
  split; [rewrite Hs; reflexivity|].
  split; [exact Hv | exact Hl].
Qed.

(** C3 (as stated, refuted).  One parameter at 5 without limits; the
    panel's captured window is (4, 6).  After "Reset" the panel's fields
    show 4 and 6, and the minimizer holds the limits it had at
    construction, (-inf, inf), not the finite window. *)
Lemma reset_button_keeps_infinite_limits :
  let w := Sample.window1 in
  exists w',
    click_reset_button Sample.external1 w = Ok tt w' /\
    Panel.original_limits (panel 0 w) = (4%float, 6%float) /\
    SpinBox.value (Panel.tmin (panel 0 w')) = 4%float /\
    SpinBox.value (Panel.tmax (panel 0 w')) = 6%float /\
    Minuit.limits_at (minuit w') 0 = (neg_infinity, infinity) /\
    Minuit.limits_at (minuit w') 0 <> Panel.original_limits (panel 0 w).
Proof.
  eexists. split; [vm_compute; reflexivity|].
  split; [vm_compute; reflexivity|].
  split; [vm_compute; reflexivity|].
  split; [vm_compute; reflexivity|].
  split; [vm_compute; reflexivity|].
  intros H. apply (f_equal (fun q => is_finite (fst q))) in H.
  vm_compute in H. discriminate.
Qed.

(** The selection read off another list of panels with the same "fit"
    buttons. *)
Lemma selected_nth (ps ps' : list Panel.t) :
  length ps' = length ps ->
  (forall k, k < length ps ->
     Panel.fit_checked (nth k ps' (Panel.blank k)) =
     Panel.fit_checked (nth k ps (Panel.blank k))) ->
  existsb Panel.fit_checked ps' = existsb Panel.fit_checked ps.
Proof.
  intros Hl Hk.
  destruct (existsb Panel.fit_checked ps) eqn:Hsel.
  - destruct (existsb Panel.fit_checked ps') eqn:Hsel'; [reflexivity|].
    assert (H : existsb Panel.fit_checked ps = false).
    { apply none_selected_nth with (ps := ps'); [symmetry; exact Hl | | exact Hsel'].
      intros k Hlt. symmetry. apply Hk. rewrite <- Hl. exact Hlt. }
    congruence.
  - apply none_selected_nth with (ps := ps); assumption.
Qed.

Lemma opted_out_ext n : forall i (ps ps' : list Panel.t) f,
  (forall k, i <= k < n + i ->
     Panel.fit_checked (nth k ps' (Panel.blank k)) =
     Panel.fit_checked (nth k ps (Panel.blank k))) ->
  opted_out i n ps' f = opted_out i n ps f.
Proof.
  induction n as [|n IH]; intros i ps ps' f H; simpl; [reflexivity|].
  rewrite (H i) by lia. apply IH. intros k Hk. apply H. lia.
Qed.

Lemma quietly_set_fields (x : float) (b : SpinBox.t) :
  SpinBox.value (SpinBox.quietly_set x b) = SpinBox.bound b (SpinBox.round x) /\
  SpinBox.notified (SpinBox.quietly_set x b) = SpinBox.notified b /\
  SpinBox.minimum (SpinBox.quietly_set x b) = SpinBox.minimum b /\
  SpinBox.maximum (SpinBox.quietly_set x b) = SpinBox.maximum b.
Proof. destruct b as [v l h st bl n]. repeat split; reflexivity. Qed.

(** The fields show two decimals: with the value 5.123456 and no limits
    the captured window is about (4.123456, 6.123456), and after "Reset"
    the fields hold 4.12 and 6.12. *)
Lemma reset_button_rounds_the_fields :
  let m := Minuit.mk [5.123456%float] [(neg_infinity, infinity)] [false] 0 in
  let w := final (__init__ Sample.external1 m) in
  exists w',
    click_reset_button Sample.external1 w = Ok tt w' /\
    (fst (Panel.original_limits (panel 0 w)) <? 4.1235)%float = true /\
    (4.1234 <? fst (Panel.original_limits (panel 0 w)))%float = true /\
    SpinBox.value (Panel.tmin (panel 0 w')) = 4.12%float /\
    SpinBox.value (Panel.tmax (panel 0 w')) = 6.12%float.
Proof.
  eexists. split; [vm_compute; reflexivity|].
  repeat split; vm_compute; reflexivity.
Qed.

(** C3 (amended).  The handler returns.  The minimizer is first put into
    its reset state with the values and the limits of the session's
    snapshot, the limits as the minimizer had them at construction,
    infinite ones included.  Every panel's fields take, without
    notification, the bounds of the panel's captured finite window
    rounded to the fields' two decimals and kept within each field's
    range; the slider's window takes the captured window through the
    guarded [setMinimum] and [setMaximum].  With no panel checked for the
    fit the minimizer stays so, no fit runs, the slider holds the
    restored value brought into that window and the label shows the
    restored value.  With a panel checked for the fit the closing
    parameter change runs the selected algorithm once from the restored
    state, on the fixed flags of the selection, and puts the fixed flags
    back; the slider then holds the post-fit value brought into that
    window and the label shows the post-fit value. *)
Theorem reset_button_restores (E : External) (w w' : t) (i : nat) :
  click_reset_button E w = Ok tt w' ->
  i < length (parameters w) ->
  let p := panel i w in
  let p' := panel i w' in
  let s := Panel.slider p in
  let lo0 := fst (Panel.original_limits p) in
  let hi0 := snd (Panel.original_limits p) in
  let lo' := if (FloatSlider._max s <=? lo0)%float then FloatSlider._min s else lo0 in
  let hi' := if (hi0 <=? lo')%float then FloatSlider._max s else hi0 in
  let m0 := Minuit.with_limits (original_limits w)
              (Minuit.with_values (original_values w) (reset E (minuit w))) in
  let temp := opted_out 0 (length (parameters w)) (parameters w) (Minuit.fixed m0) in
  let fitted := algorithm E (algo_choice w) (Minuit.with_fixed temp m0) in
  let sel := existsb Panel.fit_checked (parameters w) in
  let v := if sel then Minuit.value_at fitted i
           else nth i (original_values w) 0%float in
  minuit w' = (if sel then Minuit.with_fixed (Minuit.fixed m0) fitted else m0) /\
  fit_calls w' = (if sel then (algo_choice w, temp) :: fit_calls w else fit_calls w) /\
  Panel.tmin p' = SpinBox.quietly_set lo0 (Panel.tmin p) /\
  Panel.tmax p' = SpinBox.quietly_set hi0 (Panel.tmax p) /\
  SpinBox.value (Panel.tmin p') = SpinBox.bound (Panel.tmin p) (SpinBox.round lo0) /\
  SpinBox.value (Panel.tmax p') = SpinBox.bound (Panel.tmax p) (SpinBox.round hi0) /\
  SpinBox.notified (Panel.tmin p') = SpinBox.notified (Panel.tmin p) /\
  SpinBox.notified (Panel.tmax p') = SpinBox.notified (Panel.tmax p) /\
  FloatSlider._min (Panel.slider p') = lo' /\
  FloatSlider._max (Panel.slider p') = hi' /\
  FloatSlider._value (Panel.slider p') =
    (if (v <? lo')%float then lo' else if (hi' <? v)%float then hi' else v) /\
  FloatSlider._label (Panel.slider p') = Some v.
Proof.
  intros Hrun Hi p p' s lo0 hi0 lo' hi' m0 temp fitted sel v.
  unfold click_reset_button in Hrun. rewrite on_reset_button_clicked_eq in Hrun.
  change (restored E w) with m0 in Hrun.
  set (w1 := with_minuit m0 w) in Hrun.
  unfold bind at 1 in Hrun.
  pose proof (@refresh_loop true w1 w1 eq_refl) as H.
  change (length (parameters w1)) with (length (parameters w)) in H.
  destruct (for_range 0 (length (parameters w)) (refresh true) w1) as [[] w2|e w2];
    [|discriminate].
  destruct H as (Hr & Hl & Hlt & _).
  change (length (parameters w1)) with (length (parameters w)) in Hl.
  assert (Hft : forall k, k < length (parameters w) ->
            Panel.fit_checked (panel k w2) = Panel.fit_checked (panel k w)).
  { intros k Hk. apply Hlt in Hk.
    apply local_reset_limits_fields in Hk. cbv zeta in Hk.
    destruct Hk as (Hf & _). exact Hf. }
  assert (Hsel2 : existsb Panel.fit_checked (parameters w2) = sel)
    by (apply selected_nth; [exact Hl | exact Hft]).
  assert (Hm2 : minuit w2 = m0) by (apply rest_minuit in Hr; exact Hr).
  assert (Hfc2 : fit_calls w2 = fit_calls w)
    by (apply (f_equal fit_calls) in Hr; exact Hr).
  assert (Ha2 : algo_choice w2 = algo_choice w)
    by (apply (f_equal algo_choice) in Hr; exact Hr).
  pose proof (Hlt i Hi) as Hpi. apply local_reset_limits_fields in Hpi.
  cbv zeta in Hpi.
  change (panel i w1) with p in Hpi. fold s lo0 hi0 in Hpi. fold lo' in Hpi. fold hi' in Hpi.
  change (Minuit.value_at (minuit w1) i) with (nth i (original_values w) 0%float) in Hpi.
  destruct Hpi as (_ & Ht1 & Ht2 & H1 & H2 & H3 & H4).
  destruct (quietly_set_fields lo0 (Panel.tmin p)) as (Hv1 & Hn1 & _).
  destruct (quietly_set_fields hi0 (Panel.tmax p)) as (Hv2 & Hn2 & _).
  subst v. destruct sel eqn:Hsel.
  - (* a panel is checked: the closing handler runs the fit *)
    destruct (@on_parameter_change_selected_ok E false w2 w' Hsel2 Hrun)
      as (Hfc & Hm & _ & _ & Hpan & _).
    assert (Htemp : opted_out 0 (length (parameters w2)) (parameters w2)
                      (Minuit.fixed (minuit w2)) = temp).
    { rewrite Hl, Hm2. unfold temp. apply opted_out_ext.
      intros k Hk. apply Hft. lia. }
    rewrite ?Htemp, ?Ha2 in Hfc, Hm, Hpan. rewrite ?Hm2 in Hm, Hpan.
    fold fitted in Hm, Hpan.
    rewrite Hl in Hpan. specialize (Hpan i Hi).
    pose proof (PanelLogic.local_reset_value (Minuit.value_at fitted i) (panel i w2)) as Hq.
    rewrite Hpan in Hq. destruct Hq as (Hs & Hval & Hlab & _).
    destruct (steady_fields Hs) as (_ & Htmin & Htmax & _ & _ & Hlo & Hhi & _).
    unfold FloatSlider.clamp in Hval. rewrite H1, H2 in Hval.
    subst p'.
    split; [exact Hm|]. split; [rewrite Hfc, Hfc2; reflexivity|].
    split; [rewrite Htmin; exact Ht1|]. split; [rewrite Htmax; exact Ht2|].
    split; [rewrite Htmin, Ht1; exact Hv1|]. split; [rewrite Htmax, Ht2; exact Hv2|].
    split; [rewrite Htmin, Ht1; exact Hn1|]. split; [rewrite Htmax, Ht2; exact Hn2|].
    split; [rewrite Hlo; exact H1|]. split; [rewrite Hhi; exact H2|].
    split; [exact Hval | exact Hlab].
  - (* no panel is checked: the closing handler only redraws *)
    rewrite (on_parameter_change_plain E false Hsel2) in Hrun.
    rewrite replot_spec in Hrun.
    assert (Hw' : panel i w' = panel i w2 /\ minuit w' = minuit w2 /\
                  fit_calls w' = fit_calls w2).
    { destruct (visualize E (minuit w2)).
      - injection Hrun as <-. repeat split; reflexivity.
      - destruct (raise_on_exception E); [discriminate|].
        injection Hrun as <-. repeat split; reflexivity. }
    destruct Hw' as (Hp & Hm & Hfc).
    subst p'. rewrite Hp.
    split; [rewrite Hm; exact Hm2|]. split; [rewrite Hfc; exact Hfc2|].
    split; [exact Ht1|]. split; [exact Ht2|].
    split; [rewrite Ht1; exact Hv1|]. split; [rewrite Ht2; exact Hv2|].
    split; [rewrite Ht1; exact Hn1|]. split; [rewrite Ht2; exact Hn2|].
    split; [exact H1|]. split; [exact H2|].
    split; [exact H3 | exact H4].
Qed.

Lemma reset_button_restores_witness :
  let w := Sample.window1 in
  let w' := final (click_reset_button Sample.external1 w) in
  minuit w' = Sample.minuit1 /\
  FloatSlider._min (Panel.slider (panel 0 w')) = 4%float /\
  FloatSlider._value (Panel.slider (panel 0 w')) = 5%float.
Proof.
  assert (Hrun : click_reset_button Sample.external1 Sample.window1
                 = Ok tt (final (click_reset_button Sample.external1 Sample.window1)))
    by (vm_compute; reflexivity).
  assert (Hi : 0 < length (parameters Sample.window1)) by (vm_compute; lia).
  destruct (reset_button_restores Hrun Hi)
    as (Hm & _ & _ & _ & _ & _ & _ & _ & Hmin & _ & Hv & _).
  cbv zeta. split; [exact Hm|]. split; [exact Hmin | exact Hv].
Defined.

End WindowLogic.

(** ** More on floats *)

Module FloatOrder.

Open Scope float_scope.

Lemma SFcompare_numbers (x y : spec_float) :
  x <> S754_nan -> y <> S754_nan -> SFcompare x y <> None.
Proof.
  destruct x as [sx|sx| |sx mx ex], y as [sy|sy| |sy my ey]; simpl;
    intros Hx Hy; congruence.
Qed.

(** Among numbers, [a <= b] fails only when [b < a]. *)
Lemma leb_false_ltb (a b : float) :
  (a =? a) = true -> (b =? b) = true -> (a <=? b) = false -> (b <? a) = true.
Proof.
  intros Ha Hb. apply FloatFacts.not_nan_SF in Ha. apply FloatFacts.not_nan_SF in Hb.
  rewrite FloatAxioms.leb_spec, FloatAxioms.ltb_spec. unfold SFleb, SFltb.
  rewrite (FloatFacts.SFcompare_antisym (Prim2SF a) (Prim2SF b)).
  pose proof (SFcompare_numbers Ha Hb) as Hc.
  destruct (SFcompare (Prim2SF a) (Prim2SF b)) as [[ | | ]|]; simpl; congruence.
Qed.

Lemma ltb_not_nan_l (a b : float) : (a <? b) = true -> (a =? a) = true.
Proof.
  rewrite FloatAxioms.ltb_spec, FloatAxioms.eqb_spec. unfold SFltb, SFeqb.
  destruct (Prim2SF a) as [s|s| |s m e] eqn:E.
  - reflexivity.
  - destruct s; reflexivity.
  - simpl. discriminate.
  - intros _. rewrite FloatFacts.SFcompare_refl; [reflexivity | discriminate].
Qed.

(** Every comparison with nan is false. *)
Lemma ltb_nan_r (a : float) : (a <? nan) = false.
Proof.
  rewrite FloatAxioms.ltb_spec. unfold SFltb.
  change (Prim2SF nan) with S754_nan. destruct (Prim2SF a); reflexivity.
Qed.

Lemma leb_nan_r (a : float) : (a <=? nan) = false.
Proof.
  rewrite FloatAxioms.leb_spec. unfold SFleb.
  change (Prim2SF nan) with S754_nan. destruct (Prim2SF a); reflexivity.
Qed.

Lemma ltb_nan_l (a : float) : (nan <? a) = false.
Proof. rewrite FloatAxioms.ltb_spec. reflexivity. Qed.

Lemma leb_nan_l (a : float) : (nan <=? a) = false.
Proof. rewrite FloatAxioms.leb_spec. reflexivity. Qed.

(** Arithmetic on nan gives nan. *)
Lemma sub_nan_l (a : float) : nan - a = nan.
Proof. apply Prim2SF_inj. rewrite FloatAxioms.sub_spec. reflexivity. Qed.

Lemma sub_nan_r (a : float) : a - nan = nan.
Proof.
  apply Prim2SF_inj. rewrite FloatAxioms.sub_spec.
  change (Prim2SF nan) with S754_nan. destruct (Prim2SF a); reflexivity.
Qed.

Lemma div_nan_l (a : float) : nan / a = nan.
Proof. apply Prim2SF_inj. rewrite FloatAxioms.div_spec. reflexivity. Qed.

(** A float is nan, an infinity or a finite number. *)
Lemma classes (x : float) :
  x = nan \/ x = infinity \/ x = neg_infinity \/ is_finite x = true.
Proof.
  destruct (Prim2SF x) as [s|s| |s m e] eqn:E.
  - right. right. right. unfold is_finite, is_nan, is_infinity.
    rewrite !FloatAxioms.eqb_spec, FloatAxioms.abs_spec, E. reflexivity.
  - destruct s.
    + right. right. left. apply Prim2SF_inj. rewrite E. reflexivity.
    + right. left. apply Prim2SF_inj. rewrite E. reflexivity.
  - left. apply Prim2SF_inj. rewrite E. reflexivity.
  - right. right. right. unfold is_finite, is_nan, is_infinity.
    rewrite !FloatAxioms.eqb_spec, FloatAxioms.abs_spec, E. simpl.
    unfold SFeqb. rewrite FloatFacts.SFcompare_refl by discriminate. reflexivity.
Qed.

Lemma finite_abs_not_infinity (x : float) :
  is_finite x = true -> (abs x =? infinity) = false.
Proof.
  intros H. unfold is_finite, is_infinity in H.
  rewrite negb_true_iff, orb_false_iff in H. apply H.
Qed.

End FloatOrder.

(** ** The helper functions *)

Module HelperFacts.

Open Scope float_scope.

(** [_make_finite] returns a finite number unchanged, replaces an
    infinity by the largest float of the same sign and lets nan through;
    so its result is finite for every number, and applying it twice is
    applying it once. *)
Theorem make_finite_bounds (x : float) :
  (is_finite x = true -> _make_finite x = x) /\
  _make_finite infinity = Py.float_max /\
  _make_finite neg_infinity = - Py.float_max /\
  _make_finite nan = nan /\
  (x <> nan -> is_finite (_make_finite x) = true) /\
  _make_finite (_make_finite x) = _make_finite x.
Proof.
  assert (Hfin : forall y, is_finite y = true -> _make_finite y = y).
  { intros y Hy. unfold _make_finite.
    rewrite (FloatOrder.finite_abs_not_infinity Hy). reflexivity. }
  split; [apply Hfin|].
  split; [vm_compute; reflexivity|].
  split; [vm_compute; reflexivity|].
  split; [vm_compute; reflexivity|].
  split.
  - intros Hn.
    destruct (FloatOrder.classes x) as [->|[->|[->|Hf]]];
      [congruence | vm_compute; reflexivity | vm_compute; reflexivity |].
    rewrite (Hfin x Hf). exact Hf.
  - destruct (FloatOrder.classes x) as [->|[->|[->|Hf]]];
      [vm_compute; reflexivity | vm_compute; reflexivity | vm_compute; reflexivity |].
    rewrite (Hfin x Hf). apply Hfin, Hf.
Qed.

End HelperFacts.

(** ** More on the slider alone *)

Module SliderBounds.

Import FloatSlider.
Open Scope float_scope.

Local Ltac run := SliderFacts.run.
Local Ltac split_ifs := SliderFacts.split_ifs.

(** The window of the slider has its bounds in order. *)
Definition ordered (w : Alone) : Prop := (_min (slider w) <? _max (slider w)) = true.

(** The guards of [setMinimum] and [setMaximum] keep the window in order:
    from a window with [min < max], whatever number is passed to
    [setValue], [setMinimum] or [setMaximum], and however the call ends,
    [min < max] still holds. *)
Theorem window_stays_ordered (w : Alone) (m : float) :
  ordered w -> (m =? m) = true ->
  ordered (final (setValue1 m w)) /\
  ordered (final (setMinimum1 m w)) /\
  ordered (final (setMaximum1 m w)).
Proof.
  unfold ordered. intros Ho Hm.
  pose proof (FloatOrder.ltb_not_nan_l Ho) as Hlo.
  pose proof (FloatFacts.ltb_not_nan_r Ho) as Hhi.
  split; [|split].
  - destruct (SliderFacts.setValue1_window m w) as [-> ->]. exact Ho.
  - destruct w as [[p b en tr lo hi x l] d]. simpl in *.
    destruct (hi <=? m) eqn:Hg.
    + assert (E : setMinimum1 m (mkAlone (mk p b en tr lo hi x l) d)
                  = Ok tt (mkAlone (mk p b en tr lo hi x l) d))
        by (run; rewrite Hg; reflexivity).
      rewrite E. exact Ho.
    + assert (E : setMinimum1 m (mkAlone (mk p b en tr lo hi x l) d)
                  = setValue1 x (mkAlone (mk p b en tr m hi x l) d))
        by (run; rewrite Hg; reflexivity).
      rewrite E.
      destruct (SliderFacts.setValue1_window x (mkAlone (mk p b en tr m hi x l) d))
        as [-> ->]. simpl.
      apply FloatOrder.leb_false_ltb; assumption.
  - destruct w as [[p b en tr lo hi x l] d]. simpl in *.
    destruct (m <=? lo) eqn:Hg.
    + assert (E : setMaximum1 m (mkAlone (mk p b en tr lo hi x l) d)
                  = Ok tt (mkAlone (mk p b en tr lo hi x l) d))
        by (run; rewrite Hg; reflexivity).
      rewrite E. exact Ho.
    + assert (E : setMaximum1 m (mkAlone (mk p b en tr lo hi x l) d)
                  = setValue1 x (mkAlone (mk p b en tr lo m x l) d))
        by (run; rewrite Hg; reflexivity).
      rewrite E.
      destruct (SliderFacts.setValue1_window x (mkAlone (mk p b en tr lo m x l) d))
        as [-> ->]. simpl.
      apply FloatOrder.leb_false_ltb; assumption.
Qed.

Lemma window_stays_ordered_witness :
  ordered Sample.slider2 /\
  ordered (final (setMinimum1 0.75 Sample.slider2)) /\
  ordered (final (setMaximum1 (-3) Sample.slider2)).
Proof.
  assert (Ho : ordered Sample.slider2) by (vm_compute; reflexivity).
  split; [exact Ho|].
  split.
  - exact (proj1 (proj2 (@window_stays_ordered Sample.slider2 0.75 Ho eq_refl))).
  - exact (proj2 (proj2 (@window_stays_ordered Sample.slider2 (-3) Ho eq_refl))).
Defined.

(** The guards do not reject nan: [setMinimum(nan)] makes nan the lower
    bound and [setMaximum(nan)] the upper bound, whatever the slider's
    state, and the window is no longer in order. *)
Theorem nan_passes_the_guards (w : Alone) :
  let w1 := final (setMinimum1 nan w) in
  let w2 := final (setMaximum1 nan w) in
  (_min (slider w1) = nan /\ _max (slider w1) = _max (slider w) /\ ~ ordered w1) /\
  (_max (slider w2) = nan /\ _min (slider w2) = _min (slider w) /\ ~ ordered w2).
Proof.
  destruct w as [[p b en tr lo hi x l] d]. unfold ordered. cbv zeta.
  assert (E1 : setMinimum1 nan (mkAlone (mk p b en tr lo hi x l) d)
               = setValue1 x (mkAlone (mk p b en tr nan hi x l) d))
    by (run; rewrite FloatOrder.leb_nan_r; reflexivity).
  assert (E2 : setMaximum1 nan (mkAlone (mk p b en tr lo hi x l) d)
               = setValue1 x (mkAlone (mk p b en tr lo nan x l) d))
    by (run; rewrite FloatOrder.leb_nan_l; reflexivity).
  rewrite E1, E2.
  destruct (SliderFacts.setValue1_window x (mkAlone (mk p b en tr nan hi x l) d))
    as [-> ->].
  destruct (SliderFacts.setValue1_window x (mkAlone (mk p b en tr lo nan x l) d))
    as [-> ->].
  simpl. rewrite FloatOrder.ltb_nan_l, FloatOrder.ltb_nan_r.
  repeat split; try reflexivity; discriminate.
Qed.

(** Inside the window [setValue(v)] stores [v] itself and notifies
    nobody, in every state of the slider; when it returns, the signals
    are open again and the integer position is the converted value kept
    within 0 .. 10^8. *)
Theorem setValue_inside_exact (v : float) (w : Alone) :
  (v <? _min (slider w)) = false -> Py.gtb v (_max (slider w)) = false ->
  let r := setValue1 v w in
  value1 (final r) = Ok v (final r) /\
  delivered (final r) = delivered w /\
  _label (slider (final r)) = _label (slider w) /\
  (forall w', r = Ok tt w' ->
     signalsBlocked (slider w') = false /\
     exists p, _float_to_int1 v w = Ok p w /\
               int_value (slider w') = Z.max 0 (Z.min int_maximum p)).
Proof.
  destruct w as [[p b en tr lo hi x l] d]. simpl. unfold Py.gtb.
  intros H1 H2. run. rewrite H1, H2. simpl.
  destruct (hi - lo =? 0); simpl.
  { do 3 (split; [reflexivity|]). intros w' H. discriminate. }
  destruct (Py.int ((v - lo) / (hi - lo) * 1e8)) as [e|q]; simpl.
  { do 3 (split; [reflexivity|]). intros w' H. discriminate. }
  destruct (p =? Z.max 0 (Z.min int_maximum q))%Z eqn:Hp; simpl;
    (do 3 (split; [reflexivity|]); intros w' H; injection H as <-; simpl;
     split; [reflexivity|]; exists q; split; [reflexivity|]).
  - apply Z.eqb_eq in Hp. exact Hp.
  - reflexivity.
Qed.

Lemma setValue_inside_exact_witness :
  value1 (final (setValue1 0.25 Sample.slider2))
  = Ok 0.25 (final (setValue1 0.25 Sample.slider2)).
Proof.
  exact (proj1 (@setValue_inside_exact 0.25 Sample.slider2 eq_refl eq_refl)).
Defined.

(** Below the window [setValue(v)] returns with the value equal to the
    lower bound (the window's width being a finite number), the integer
    position at 0 and the label showing the value.  With the signals open
    it notifies once, or twice when the integer position moves, each time
    with the value it ends with; with the signals blocked it does not
    notify. *)
Theorem setValue_below_lands_on_min (v : float) (w : Alone) :
  let s := slider w in
  (v <? _min s) = true -> is_finite (_max s - _min s) = true ->
  let w' := final (setValue1 v w) in
  let x := _value (slider w') in
  setValue1 v w = Ok tt w' /\
  (x =? _min s) = true /\
  int_value (slider w') = 0%Z /\
  _label (slider w') = Some x /\
  delivered w' =
    (if signalsBlocked s then []
     else if (int_value s =? 0)%Z then [x] else [x; x]) ++ delivered w.
Proof.
  destruct w as [[p b en tr lo hi x l] d]. simpl. intros Hv Hf.
  pose proof (FloatFacts.ltb_not_nan_r Hv) as Hn.
  pose proof (FloatFacts.low_image Hn Hf) as Hlow.
  run. rewrite Hv. simpl.
  change (Z.max 0 (Z.min int_maximum 0))%Z with 0%Z.
  destruct (p =? 0)%Z eqn:Hp, b; simpl; repeat split; auto;
    apply Z.eqb_eq in Hp; exact Hp.
Qed.

Lemma setValue_below_lands_on_min_witness :
  let w' := final (setValue1 (-5) Sample.slider2) in
  (_value (slider w') =? -2) = true /\
  delivered w' = [_value (slider w'); _value (slider w')] ++ delivered Sample.slider2.
Proof.
  destruct (@setValue_below_lands_on_min (-5) Sample.slider2 eq_refl eq_refl)
    as (_ & Hx & _ & _ & Hd).
  split; [exact Hx | exact Hd].
Defined.

(** [setValue(nan)] always raises, [ValueError] unless the window has no
    width: nan passes both comparisons, is stored as the value, and the
    conversion to the integer position fails after the signals were
    blocked, so they stay blocked. *)
Theorem setValue_nan_raises (w : Alone) :
  let s := slider w in
  let w' := final (setValue1 nan w) in
  setValue1 nan w =
    Raised (if _max s - _min s =? 0 then Py.ZeroDivisionError else Py.ValueError) w' /\
  _value (slider w') = nan /\
  signalsBlocked (slider w') = true /\
  int_value (slider w') = int_value s /\
  delivered w' = delivered w.
Proof.
  destruct w as [[p b en tr lo hi x l] d]. simpl.
  run. rewrite FloatOrder.ltb_nan_l, FloatOrder.ltb_nan_r. simpl.
  destruct (hi - lo =? 0); simpl; [repeat split; reflexivity|].
  rewrite FloatOrder.sub_nan_l, FloatOrder.div_nan_l. simpl.
  repeat split; reflexivity.
Qed.

End SliderBounds.

(** ** More on the panel *)

Module PanelFacts.

Import Logic.
Open Scope float_scope.

(** The slider's window and flags, and the captured window, while the
    panel is built. *)
Definition win (a b : float) (L : float * float) (p : Panel.t) : Prop :=
  FloatSlider._min (Panel.slider p) = a /\
  FloatSlider._max (Panel.slider p) = b /\
  FloatSlider.enabled (Panel.slider p) = true /\
  Panel.original_limits p = L.

Lemma init_setValue_win a b L v :
  preserves (win a b L)
    (FloatSlider.setValue Panel.slider Panel.init_store_slider Panel.init_slot v).
Proof.
  apply SliderLogic.setValue_keeps.
  - intros f w Hf (H1 & H2 & H3 & H4).
    pose proof (Hf (Panel.slider w)) as Hs.
    unfold win, Panel.init_store_slider. simpl.
    destruct (f (Panel.slider w)) as [q' b' en' tr' lo' hi' x' l'].
    destruct (Panel.slider w) as [q0 b0 en0 tr0 lo0 hi0 x0 l0].
    unfold FloatSlider.steady in Hs. simpl in *.
    injection Hs as -> -> -> ->. auto.
  - intros x. apply preserves_ret.
Qed.

Lemma init_setMinimum_win a b L m :
  hoare (win a b L)
    (FloatSlider.setMinimum Panel.slider Panel.init_store_slider Panel.init_slot m)
    (fun _ => win (if b <=? m then a else m) b L) (fun _ => True).
Proof.
  intros w Hw. pose proof Hw as (Ha & Hb & He & Ht).
  unfold FloatSlider.setMinimum. unfold bind at 1. unfold gets at 1.
  rewrite Hb. destruct (b <=? m); [exact Hw|].
  unfold bind at 1. unfold FloatSlider.update at 1. unfold modify at 1.
  unfold bind at 1. unfold gets at 1.
  set (w1 := Panel.init_store_slider _ w).
  assert (H1 : win m b L w1) by (unfold win, w1; simpl; auto).
  pose proof (@init_setValue_win m b L (FloatSlider._value (Panel.slider w1)) w1 H1) as H.
  destruct (FloatSlider.setValue _ _ _ _ w1); [exact H | exact I].
Qed.

Lemma init_setMaximum_win a b L m :
  hoare (win a b L)
    (FloatSlider.setMaximum Panel.slider Panel.init_store_slider Panel.init_slot m)
    (fun _ => win a (if Py.geb a m then b else m) L) (fun _ => True).
Proof.
  intros w Hw. pose proof Hw as (Ha & Hb & He & Ht).
  unfold FloatSlider.setMaximum. unfold bind at 1. unfold gets at 1.
  rewrite Ha. destruct (Py.geb a m); [exact Hw|].
  unfold bind at 1. unfold FloatSlider.update at 1. unfold modify at 1.
  unfold bind at 1. unfold gets at 1.
  set (w1 := Panel.init_store_slider _ w).
  assert (H1 : win a m L w1) by (unfold win, w1; simpl; auto).
  pose proof (@init_setValue_win a m L (FloatSlider._value (Panel.slider w1)) w1 H1) as H.
  destruct (FloatSlider.setValue _ _ _ _ w1); [exact H | exact I].
Qed.

(** What the construction leaves of the buttons, however it ends. *)
Lemma init_buttons (m : Minuit.t) (i : nat) :
  let p := final (Panel.__init__ m i) in
  Panel.par p = i /\
  Panel.fix_checked p = Minuit.fixed_at m i /\
  Panel.fit_checked p = false.
Proof.
  cbv zeta. unfold Panel.__init__.
  destruct (Minuit.limits_at m i) as [lo hi].
  unfold Panel.init_update. rewrite !final_bind_modify.
  match goal with
  | |- context [final (?c ?w)] =>
      apply (@preserves_final _ _
               (fun q => Panel.par q = i /\
                         Panel.fix_checked q = Minuit.fixed_at m i /\
                         Panel.fit_checked q = false) c w)
  end.
  - repeat (match goal with
            | |- preserves _ (bind _ _) => apply preserves_bind; [|intros ?]
            end);
      first [ apply SliderLogic.setMinimum_keeps_all
            | apply SliderLogic.setMaximum_keeps_all
            | apply SliderLogic.setValue_keeps_all
            | apply preserves_modify; intros w Hw; exact Hw ];
      try (intros s w Hw; exact Hw);
      try (intros x; apply preserves_ret).
  - simpl. repeat split.
Qed.

Lemma run_bind_modify {W B} (f : W -> W) (k : unit -> M W B) w :
  bind (modify f) k w = k tt (f w).
Proof. reflexivity. Qed.

(** A panel that has been built: "fix" shows the parameter's fixed flag,
    "fit" is unchecked, the slider is enabled and its label shows the
    parameter's value.  The slider's window is the captured window only
    where the guards of [setMinimum] and [setMaximum] let it in, the
    slider starting from the window [0, 1]: a captured lower bound [>= 1]
    leaves the slider's lower bound at 0, and a captured upper bound not
    above the slider's lower bound leaves the upper bound at 1. *)
Theorem init_slider_window (m : Minuit.t) (i : nat) (p : Panel.t) :
  Panel.__init__ m i = Ok tt p ->
  let lo := fst (Panel.original_limits p) in
  let hi := snd (Panel.original_limits p) in
  let a := if 1 <=? lo then 0 else lo in
  Panel.par p = i /\
  Panel.fix_checked p = Minuit.fixed_at m i /\
  Panel.fit_checked p = false /\
  FloatSlider._min (Panel.slider p) = a /\
  FloatSlider._max (Panel.slider p) = (if Py.geb a hi then 1 else hi) /\
  FloatSlider.enabled (Panel.slider p) = true /\
  FloatSlider._label (Panel.slider p) = Some (Minuit.value_at m i).
Proof.
  intros Hrun.
  pose proof (init_buttons m i) as Hb. rewrite Hrun in Hb. simpl in Hb.
  destruct Hb as (Hpar & Hfix & Hfit).
  cbv zeta. split; [exact Hpar|]. split; [exact Hfix|]. split; [exact Hfit|].
  clear Hpar Hfix Hfit.
  unfold Panel.__init__ in Hrun.
  destruct (Minuit.limits_at m i) as [vmin vmax].
  unfold Panel.init_update in Hrun. rewrite !run_bind_modify in Hrun.
  set (val := Minuit.value_at m i) in *.
  set (step_ := _guess_initial_step val vmin vmax) in *.
  set (vmin2 := if Py.isfinite vmin then vmin else val - 100 * step_) in *.
  set (vmax2 := if Py.isfinite vmax then vmax else val + 100 * step_) in *.
  match type of Hrun with
  | ?c ?w = _ =>
      assert (H : hoare (win 0 1 (vmin2, vmax2)) c
                    (fun _ q => win (if 1 <=? vmin2 then 0 else vmin2)
                                  (if Py.geb (if 1 <=? vmin2 then 0 else vmin2) vmax2
                                   then 1 else vmax2) (vmin2, vmax2) q /\
                                FloatSlider._label (Panel.slider q) = Some val)
                    (fun _ => True));
      [| assert (Hw : win 0 1 (vmin2, vmax2) w) by (repeat split);
         specialize (H w Hw); rewrite Hrun in H ]
  end.
  - eapply hoare_bind; [apply init_setMinimum_win|]. intros u.
    eapply hoare_bind; [apply init_setMaximum_win|]. intros u0.
    eapply hoare_bind;
      [eapply hoare_conseq;
         [apply init_setValue_win | intros w Hw; exact Hw
         | intros a w Hw; exact Hw | intros w Hw; exact I]|].
    intros u1.
    eapply hoare_bind;
      [apply hoare_modify with
         (Q := fun _ q => win (if 1 <=? vmin2 then 0 else vmin2)
                            (if Py.geb (if 1 <=? vmin2 then 0 else vmin2) vmax2
                             then 1 else vmax2) (vmin2, vmax2) q /\
                          FloatSlider._label (Panel.slider q) = Some val);
       intros w (H1 & H2 & H3 & H4); repeat split; assumption|].
    intros u2.
    eapply hoare_bind;
      [apply hoare_modify with
         (Q := fun _ q => win (if 1 <=? vmin2 then 0 else vmin2)
                            (if Py.geb (if 1 <=? vmin2 then 0 else vmin2) vmax2
                             then 1 else vmax2) (vmin2, vmax2) q /\
                          FloatSlider._label (Panel.slider q) = Some val);
       intros w Hw; exact Hw|].
    intros u3. apply hoare_modify. intros w Hw. exact Hw.
  - destruct H as ((H1 & H2 & H3 & H4) & H5).
    rewrite H4. simpl fst. simpl snd.
    repeat split; assumption.
Qed.

Lemma init_slider_window_witness :
  let p := final (Panel.__init__ Cases.minuit3 0) in
  Panel.original_limits p = (2, 8) /\
  FloatSlider._min (Panel.slider p) = 0 /\
  FloatSlider._max (Panel.slider p) = 8.
Proof.
  assert (Hrun : Panel.__init__ Cases.minuit3 0
                 = Ok tt (final (Panel.__init__ Cases.minuit3 0)))
    by (vm_compute; reflexivity).
  destruct (init_slider_window Hrun) as (_ & _ & _ & Hlo & Hhi & _).
  cbv zeta. split; [vm_compute; reflexivity|]. split; [exact Hlo | exact Hhi].
Defined.

End PanelFacts.

(** ** More on the window *)

Module SessionFacts.

Import MainWindow Logic WindowLogic.

(** [reset] of a panel never reaches the panel's callback and never
    touches the minimizer: with any callback it runs as with none, and
    however it ends, the minimizer, the plot, the results and every other
    panel are as they were. *)
Theorem reset_is_silent (cb : M t unit) (i : nat) (val : option float)
    (limits : bool) (w : t) :
  has_panel i w ->
  let r := Panel.reset (panel i) (store_panel i) minuit with_minuit cb val limits w in
  r = panel_reset i val limits w /\
  rest (final r) = rest w /\
  length (parameters (final r)) = length (parameters w) /\
  (forall j, j <> i -> panel j (final r) = panel j w).
Proof.
  intros Hi r. subst r. unfold panel_reset.
  rewrite !window_reset_zoom by exact Hi. unfold zoom.
  split; [reflexivity|].
  destruct (Panel.local_reset val limits (panel i w)) as [u p'|e p']; simpl;
    (split; [reflexivity|]); (split; [apply ListFacts.length_set_nth|]);
    intros j Hj; apply ListFacts.nth_set_nth_other; congruence.
Qed.

Lemma reset_is_silent_witness :
  let w := Sample.window1 in
  let r := reset_of Sample.external1 0 (Some 7%float) true w in
  r = panel_reset 0 (Some 7%float) true w /\ rest (final r) = rest w.
Proof.
  assert (Hi : has_panel 0 Sample.window1) by (unfold has_panel; vm_compute; lia).
  destruct (@reset_is_silent (callback Sample.external1) 0 (Some 7%float) true
              Sample.window1 Hi) as (H1 & H2 & _).
  split; [exact H1 | exact H2].
Defined.

(** *** Construction *)

Lemma build_panels_ok (m : Minuit.t) (n : nat) : forall i ps ps',
  build_panels m i n ps = Ok tt ps' ->
  length ps' = length ps + n /\
  (forall k d, k < length ps -> nth k ps' d = nth k ps d) /\
  (forall k d, k < n -> Panel.__init__ m (i + k) = Ok tt (nth (length ps + k) ps' d)).
Proof.
  induction n as [|n IH]; intros i ps ps' H; simpl in H.
  - injection H as <-. split; [lia|]. split; [reflexivity|]. intros k d Hk. lia.
  - destruct (Panel.__init__ m i) as [[] p|e p] eqn:Ep; [|discriminate].
    apply IH in H. destruct H as (Hl & Hold & Hnew).
    rewrite length_app in Hl, Hold, Hnew. simpl in Hl, Hold, Hnew.
    split; [lia|]. split.
    + intros k d Hk. rewrite Hold by lia. apply app_nth1. exact Hk.
    + intros k d Hk. destruct k as [|k].
      * rewrite Nat.add_0_r. rewrite Nat.add_0_r.
        rewrite Hold by lia. rewrite app_nth2 by lia.
        rewrite Nat.sub_diag. exact Ep.
      * replace (i + S k) with (S i + k) by lia.
        replace (length ps + S k) with (length ps + 1 + k) by lia.
        apply Hnew. lia.
Qed.

Lemma init_spec (E : External) (m : Minuit.t) (w : t) :
  __init__ E m = Ok tt w ->
  minuit w = m /\
  length (parameters w) = Minuit.npar m /\
  (forall i, i < Minuit.npar m -> Panel.__init__ m i = Ok tt (panel i w)) /\
  indexed w /\ exclusive w /\
  (forall i, i < Minuit.npar m ->
     Panel.fix_checked (panel i w) = Minuit.fixed_at m i /\
     Panel.fit_checked (panel i w) = false) /\
  original_values w = Minuit.values m /\
  original_limits w = Minuit.limits m /\
  fit_calls w = [] /\
  canvas w = (if visualize E m then FcnText false false else Traceback).
Proof.
  unfold __init__. intros H.
  destruct (build_panels m 0 (Minuit.npar m) []) as [[] ps|e ps] eqn:Eb; [|discriminate].
  apply build_panels_ok in Eb. destruct Eb as (Hl & _ & Hnew). simpl in Hl, Hnew.
  assert (Hps : parameters w = ps /\ minuit w = m /\
                original_values w = Minuit.values m /\
                original_limits w = Minuit.limits m /\ fit_calls w = [] /\
                canvas w = (if visualize E m then FcnText false false else Traceback)).
  { unfold plot_with_frame in H. unfold bind, modify, gets, raise in H. simpl in H.
    destruct (visualize E m).
    - injection H as <-. repeat split.
    - destruct (raise_on_exception E); [discriminate|].
      injection H as <-. repeat split. }
  destruct Hps as (Hps & Hm & Hov & Hol & Hfc & Hcv).
  assert (Hpanel : forall i, i < Minuit.npar m -> Panel.__init__ m i = Ok tt (panel i w)).
  { intros i Hi. unfold panel. rewrite Hps. apply (Hnew i (Panel.blank i) Hi). }
  assert (Hbtn : forall i, i < Minuit.npar m ->
            Panel.par (panel i w) = i /\
            Panel.fix_checked (panel i w) = Minuit.fixed_at m i /\
            Panel.fit_checked (panel i w) = false).
  { intros i Hi. pose proof (PanelFacts.init_buttons m i) as Hb.
    rewrite (Hpanel i Hi) in Hb. exact Hb. }
  assert (Hlen : length (parameters w) = Minuit.npar m) by (rewrite Hps; exact Hl).
  split; [exact Hm|]. split; [exact Hlen|]. split; [exact Hpanel|].
  split; [intros i Hi; rewrite Hlen in Hi; apply (Hbtn i Hi)|].
  split.
  { intros i Hi. rewrite Hlen in Hi. destruct (Hbtn i Hi) as (_ & _ & Hfit).
    rewrite Hfit. split; [apply andb_false_r | discriminate]. }
  split; [intros i Hi; apply (Hbtn i Hi)|].
  repeat split; assumption.
Qed.

(** A window that has been built holds one built panel per parameter, in
    the minimizer's order, none checked for the fit and each "fix" button
    showing its parameter's fixed flag, so the exclusion of "fix" and
    "fit" holds from the start; the snapshot for "Reset" is the
    minimizer's values and limits; the minimizer itself is untouched and
    the optimizer has not run. *)
Theorem window_construction (E : External) (m : Minuit.t) (w : t) :
  __init__ E m = Ok tt w ->
  minuit w = m /\
  length (parameters w) = Minuit.npar m /\
  (forall i, i < Minuit.npar m -> Panel.__init__ m i = Ok tt (panel i w)) /\
  indexed w /\ exclusive w /\
  (forall i, i < Minuit.npar m ->
     Panel.fix_checked (panel i w) = Minuit.fixed_at m i /\
     Panel.fit_checked (panel i w) = false) /\
  original_values w = Minuit.values m /\
  original_limits w = Minuit.limits m /\
  fit_calls w = [] /\
  canvas w = (if visualize E m then FcnText false false else Traceback).
Proof. exact (@init_spec E m w). Qed.

Lemma window_construction_witness :
  indexed Sample.window2 /\ exclusive Sample.window2 /\
  original_limits Sample.window2 = Minuit.limits Sample.minuit2.
Proof.
  assert (Hrun : __init__ Sample.external2 Sample.minuit2 = Ok tt Sample.window2)
    by (vm_compute; reflexivity).
  destruct (window_construction Hrun) as (_ & _ & _ & Hi & He & _ & _ & Hl & _).
  split; [exact Hi|]. split; [exact He | exact Hl].
Defined.

(** *** The buttons of a panel *)

(** Checking "fix" on a panel just checked for the fit unchecks "fit"
    without running its slot: the slider, disabled when "fit" was
    checked, stays disabled, nothing is plotted and the optimizer does
    not run.  The click itself never raises. *)
Theorem fix_after_fit_leaves_slider_disabled (E : External) (i : nat) (w w1 : t) :
  has_panel i w ->
  Panel.fit_checked (panel i w) = false ->
  click_fit E i w = Ok tt w1 ->
  let w2 := final (click_fix i w1) in
  click_fix i w1 = Ok tt w2 /\
  Panel.fix_checked (panel i w2) = true /\
  Panel.fit_checked (panel i w2) = false /\
  FloatSlider.enabled (Panel.slider (panel i w2)) = false /\
  canvas w2 = canvas w1 /\ fit_calls w2 = fit_calls w1.
Proof.
  intros Hi Hft Hrun.
  rewrite (click_fit_spec E Hi) in Hrun. cbv zeta in Hrun.
  rewrite Hft in Hrun. simpl negb in Hrun. cbv iota in Hrun.
  unfold callback in Hrun.
  destruct (on_parameter_change_ok Hrun) as [Hs _].
  pose proof (steady_panel i Hs) as Hp.
  rewrite panel_store in Hp by exact Hi.
  destruct (steady_fields Hp) as (_ & _ & _ & Hfx & Hfit & _ & _ & Hen).
  simpl in Hfx, Hfit, Hen.
  assert (Hi1 : has_panel i w1).
  { unfold has_panel in *. rewrite (steady_length Hs). simpl.
    rewrite ListFacts.length_set_nth. exact Hi. }
  cbv zeta. rewrite (click_fix_spec Hi1). cbv zeta. simpl final.
  rewrite Hfx. simpl negb. cbv iota.
  split; [reflexivity|].
  rewrite panel_store by (apply Hi1). simpl.
  repeat split. exact Hen.
Qed.

Lemma fix_after_fit_leaves_slider_disabled_witness :
  let w1 := final (click_fit Sample.external2 0 Sample.window2) in
  let w2 := final (click_fix 0 w1) in
  Panel.fit_checked (panel 0 w2) = false /\
  FloatSlider.enabled (Panel.slider (panel 0 w2)) = false.
Proof.
  assert (Hi : has_panel 0 Sample.window2) by (unfold has_panel; vm_compute; lia).
  assert (Hrun : click_fit Sample.external2 0 Sample.window2
                 = Ok tt (final (click_fit Sample.external2 0 Sample.window2)))
    by (vm_compute; reflexivity).
  destruct (@fix_after_fit_leaves_slider_disabled Sample.external2 0 Sample.window2 _
              Hi eq_refl Hrun) as (_ & _ & Hft & Hen & _).
  split; [exact Hft | exact Hen].
Defined.

(** *** A slider's value change *)

Lemma on_val_change_plain (E : External) (i : nat) (v : float) (w : t) :
  existsb Panel.fit_checked (parameters w) = false ->
  let w1 := with_minuit (Minuit.set_value (Panel.par (panel i w)) v (minuit w)) w in
  on_val_change E i v w =
    if visualize E (minuit w1) then Ok tt (with_canvas (FcnText false false) w1)
    else if raise_on_exception E then Raised Py.PlotError (with_canvas Blank w1)
    else Ok tt (with_canvas Traceback w1).
Proof.
  intros Hsel w1. unfold on_val_change, Panel.on_val_change.
  unfold bind at 1. unfold gets at 1. unfold bind at 1.
  unfold Panel.update_minuit at 1. unfold modify at 1.
  fold w1. unfold callback.
  rewrite (on_parameter_change_plain E false (w := w1) Hsel).
  apply replot_spec.
Qed.

(** With no panel checked for the fit, [on_val_change(v)] writes [v] into
    the minimizer at the panel's parameter and redraws: the optimizer is
    not run and no panel changes.  The plot shows FCN without a status,
    or the traceback when the plot routine raises; under
    [raise_on_exception] the exception leaves the handler, the value
    already written. *)
Theorem value_change_writes_and_redraws (E : External) (i : nat) (v : float) (w : t) :
  existsb Panel.fit_checked (parameters w) = false ->
  let w1 := with_minuit (Minuit.set_value (Panel.par (panel i w)) v (minuit w)) w in
  on_val_change E i v w =
    if visualize E (minuit w1) then Ok tt (with_canvas (FcnText false false) w1)
    else if raise_on_exception E then Raised Py.PlotError (with_canvas Blank w1)
    else Ok tt (with_canvas Traceback w1).
Proof. exact (@on_val_change_plain E i v w). Qed.

Lemma value_change_writes_and_redraws_witness :
  minuit (final (on_val_change Sample.external1 0 5.5%float Sample.window1))
  = Minuit.set_value 0 5.5%float Sample.minuit1.
Proof.
  rewrite (@value_change_writes_and_redraws Sample.external1 0 5.5%float
             Sample.window1 eq_refl).
  reflexivity.
Defined.

(** *** The "Fit" button *)

(** The "Fit" button runs the chosen algorithm exactly once, on the fixed
    flags the minimizer has at that moment: the "fit" boxes of the panels
    play no part.  When the handler returns it has returned [None], the
    results text is that of the post-fit minimizer, and the plot shows the
    status for Migrad and Scipy, none for Simplex, or the traceback. *)
Theorem fit_button_runs_once (E : External) (w w' : t) (r : option bool) :
  click_fit_button E w = Ok r w' ->
  r = None /\
  fit_calls w' = (algo_choice w, Minuit.fixed (minuit w)) :: fit_calls w /\
  results_text w' = Some (minuit w') /\
  canvas w' = (if visualize E (minuit w')
               then FcnText true (reports (algo_choice w)) else Traceback).
Proof.
  unfold click_fit_button, do_fit. intros Hrun.
  unfold bind at 1 in Hrun.
  pose proof (do_fit_refresh_spec E w) as Hspec. cbv zeta in Hspec.
  destruct (do_fit_refresh E w) as [rs w2|e w2]; [|discriminate].
  destruct Hspec as (-> & Hr & _).
  unfold bind in Hrun. change (negb true) with false in Hrun. cbv beta iota in Hrun.
  rewrite on_parameter_change_from_fit in Hrun.
  assert (Hfc : fit_calls w2 = (algo_choice w, Minuit.fixed (minuit w)) :: fit_calls w)
    by (apply (f_equal fit_calls) in Hr; exact Hr).
  destruct (visualize E (minuit w2)) eqn:Hv.
  - injection Hrun as <- <-. simpl. rewrite Hv. repeat split. exact Hfc.
  - destruct (raise_on_exception E); [discriminate|].
    injection Hrun as <- <-. simpl. rewrite Hv. repeat split. exact Hfc.
Qed.

Lemma fit_button_runs_once_witness :
  let w := Sample.window1_simplex in
  fit_calls (final (click_fit_button Sample.external1 w))
  = (Simplex, [false]) :: fit_calls w.
Proof.
  assert (Hrun : click_fit_button Sample.external1 Sample.window1_simplex
                 = Ok None (final (click_fit_button Sample.external1 Sample.window1_simplex)))
    by (vm_compute; reflexivity).
  destruct (fit_button_runs_once Hrun) as (_ & Hfc & _).
  exact Hfc.
Defined.

(** *** A fit that fails while the panels are refreshed *)

(** The handler has no [finally]: with [raise_on_exception] off (so that
    the plot cannot raise), a parameter change with panels checked for
    the fit that raises has run the optimizer on the temporary flags and
    has not put the saved ones back: the minimizer keeps the flags the
    algorithm left, made from "fixed unless checked for the fit". *)
Theorem failed_fit_leaves_flags (E : External) (rs : bool) (w w' : t) (e : Py.Exn) :
  raise_on_exception E = false ->
  existsb Panel.fit_checked (parameters w) = true ->
  on_parameter_change E false rs w = Raised e w' ->
  let temp := opted_out 0 (length (parameters w)) (parameters w)
                (Minuit.fixed (minuit w)) in
  Minuit.fixed (minuit w') =
    Minuit.fixed (algorithm E (algo_choice w) (Minuit.with_fixed temp (minuit w))) /\
  fit_calls w' = (algo_choice w, temp) :: fit_calls w /\
  (forall i, i < length (parameters w) -> i < length (Minuit.fixed (minuit w)) ->
     nth i temp false = negb (Panel.fit_checked (panel i w))).
Proof.
  intros Hno Hsel Hrun temp.
  rewrite (on_parameter_change_selected E rs Hsel) in Hrun. fold temp in Hrun.
  pose proof (do_fit_refresh_spec E (with_minuit (Minuit.with_fixed temp (minuit w)) w)) as Hs.
  cbv zeta in Hs.
  destruct (do_fit_refresh E (with_minuit (Minuit.with_fixed temp (minuit w)) w))
    as [rs' w2|e2 w2].
  - rewrite replot_spec in Hrun. rewrite Hno in Hrun.
    destruct (visualize E _); discriminate.
  - injection Hrun as <- <-. destruct Hs as [Hr _].
    split; [apply rest_minuit in Hr; rewrite Hr; reflexivity|].
    split; [apply (f_equal fit_calls) in Hr; exact Hr|].
    intros i Hi Hl. unfold temp. rewrite nth_opted_out by lia. reflexivity.
Qed.

Lemma failed_fit_leaves_flags_witness :
  let w := Cases.window_nan in
  let w' := final (on_parameter_change Cases.external_nan false false w) in
  on_parameter_change Cases.external_nan false false w = Raised Py.ValueError w' /\
  fit_calls w' = (Migrad, [false]) :: fit_calls w.
Proof.
  assert (Hrun : on_parameter_change Cases.external_nan false false Cases.window_nan
                 = Raised Py.ValueError
                     (final (on_parameter_change Cases.external_nan false false
                               Cases.window_nan)))
    by (vm_compute; reflexivity).
  destruct (@failed_fit_leaves_flags Cases.external_nan false Cases.window_nan _ _
              eq_refl eq_refl Hrun) as (_ & Hfc & _).
  split; [exact Hrun | exact Hfc].
Defined.

(** *** The "Continuous" button *)

Definition tracked (b : bool) (p : Panel.t) : Panel.t :=
  Panel.with_slider (FloatSlider.with_tracking b (Panel.slider p)) p.

Definition tracked_upto (b : bool) (w0 : t) (j : nat) (w : t) : Prop :=
  rest w = rest w0 /\
  length (parameters w) = length (parameters w0) /\
  (forall k, k < j -> k < length (parameters w0) -> panel k w = tracked b (panel k w0)) /\
  (forall k, j <= k -> panel k w = panel k w0).

Lemma tracking_loop (b : bool) (w0 : t) :
  hoare (fun w => w = w0)
    (for_range 0 (length (parameters w0)) (fun i =>
       FloatSlider.setTracking (Panel.the_slider (panel i))
         (Panel.store_slider (panel i) (store_panel i)) b))
    (fun _ => tracked_upto b w0 (length (parameters w0)))
    (fun _ => False).
Proof.
  eapply hoare_conseq.
  - eapply hoare_for_range with (I := tracked_upto b w0) (X := fun _ => False) (i := 0).
    intros j Hj w (Hr & Hl & Hlt & Hge).
    assert (Hp : has_panel j w) by (unfold has_panel; lia).
    unfold FloatSlider.setTracking, FloatSlider.update, modify,
      Panel.store_slider, Panel.the_slider.
    split; [rewrite rest_store; exact Hr|].
    split; [simpl; rewrite ListFacts.length_set_nth; exact Hl|].
    split.
    + intros k Hk Hk0. destruct (Nat.eq_dec k j) as [->|Hne].
      * rewrite panel_store by exact Hp. rewrite (Hge j (Nat.le_refl j)). reflexivity.
      * rewrite panel_store_other by auto. apply Hlt; lia.
    + intros k Hk. rewrite panel_store_other by lia. apply Hge. lia.
  - intros w ->. repeat split; auto. intros k Hk. lia.
  - intros u w H. rewrite Nat.add_0_r in H. exact H.
  - auto.
Qed.

(** A click on "Continuous" flips the button and gives every slider the
    button's new state as its tracking flag; it never raises and changes
    nothing else: not the minimizer, the plot, nor anything else of the
    panels. *)
Theorem continuous_click_sets_tracking (w : t) :
  let b := negb (update_button w) in
  exists w',
    Events.click_update_button w = Ok tt w' /\
    rest w' = with_update_button b (rest w) /\
    length (parameters w') = length (parameters w) /\
    (forall i, i < length (parameters w) -> panel i w' = tracked b (panel i w)).
Proof.
  intros b. unfold Events.click_update_button, on_update_button_clicked.
  unfold bind at 1. unfold modify at 1. unfold bind at 1. unfold gets at 1.
  set (w0 := with_update_button (negb (update_button w)) w).
  change (update_button w0) with b.
  pose proof (@tracking_loop b w0 w0 eq_refl) as H.
  destruct (for_range 0 (length (parameters w0)) _ w0) as [[] w'|e w']; [|contradiction].
  exists w'. split; [reflexivity|].
  destruct H as (Hr & Hl & Hlt & _).
  split; [exact Hr|]. split; [exact Hl|].
  intros i Hi. apply (Hlt i); exact Hi.
Qed.

(** *** Dragging a slider *)

Lemma none_selected_store (i : nat) (p' : Panel.t) (w : t) :
  Panel.fit_checked p' = Panel.fit_checked (panel i w) ->
  existsb Panel.fit_checked (parameters w) = false ->
  existsb Panel.fit_checked (parameters (store_panel i p' w)) = false.
Proof.
  intros Hp Hsel.
  apply none_selected_nth with (ps := parameters w);
    [simpl; apply ListFacts.length_set_nth | | exact Hsel].
  intros k Hk. simpl. destruct (Nat.eq_dec k i) as [->|Hne].
  - rewrite ListFacts.nth_set_nth_same by exact Hk. exact Hp.
  - rewrite ListFacts.nth_set_nth_other by congruence. reflexivity.
Qed.

Lemma drag_run (E : External) (i : nat) (p : Z) (w : t) :
  has_panel i w ->
  let s := Panel.slider (panel i w) in
  let p' := Z.max 0 (Z.min FloatSlider.int_maximum p) in
  FloatSlider.enabled s = true ->
  FloatSlider.signalsBlocked s = false ->
  FloatSlider.int_value s <> p' ->
  let x := (FloatSlider._min s
            + (Py.float_of_int p' / 1e8) * (FloatSlider._max s - FloatSlider._min s))%float in
  final (Events.drag_slider E i p w) =
    final (on_val_change E i x
      (store_panel i
         (Panel.with_slider
            (FloatSlider.with_label (Some x)
               (FloatSlider.with_value x (FloatSlider.with_int_value p' s)))
            (panel i w)) w)).
Proof.
  intros Hi s p' Hen Hbl Hne x. subst s p' x.
  apply Z.eqb_neq in Hne.
  unfold Events.drag_slider, FloatSlider.QSlider_setValue,
    FloatSlider._emit_float_value_changed, FloatSlider._int_to_float,
    FloatSlider.emit_floatValueChanged, FloatSlider.update,
    Panel.store_slider, Panel.the_slider.
  unfold bind, gets, modify, ret, contained. cbv beta.
  rewrite Hen, Hne, Hbl. cbv beta.
  repeat (rewrite ?store_store; rewrite ?panel_store by exact Hi).
  cbn [Panel.slider Panel.with_slider FloatSlider.with_int_value FloatSlider.with_value
       FloatSlider.with_label FloatSlider._min FloatSlider._max FloatSlider._value
       FloatSlider.signalsBlocked FloatSlider.int_value FloatSlider.enabled
       FloatSlider.tracking FloatSlider._label
       Panel.par Panel.tmin Panel.tmax Panel.fix_checked Panel.fit_checked Panel.step
       Panel.original_value Panel.original_limits].
  rewrite Hbl.
  match goal with
  | |- _ = final ?r =>
      transitivity (final (contained (contained (fun _ : t => r)) w));
        [reflexivity | unfold contained; destruct r; reflexivity]
  end.
Qed.

(** The user drags an enabled slider to a new integer position, no panel
    being checked for the fit.  The position, kept within 0 .. 10^8, is
    mapped linearly into the window, and the slider's value, its label
    and the minimizer's value of the parameter all become that one
    number; the optimizer is not run.  This holds however the redraw
    ends. *)
Theorem drag_sets_one_number (E : External) (i : nat) (p : Z) (w : t) :
  has_panel i w ->
  existsb Panel.fit_checked (parameters w) = false ->
  let s := Panel.slider (panel i w) in
  let p' := Z.max 0 (Z.min FloatSlider.int_maximum p) in
  FloatSlider.enabled s = true ->
  FloatSlider.signalsBlocked s = false ->
  FloatSlider.int_value s <> p' ->
  let x := (FloatSlider._min s
            + (Py.float_of_int p' / 1e8) * (FloatSlider._max s - FloatSlider._min s))%float in
  let w' := final (Events.drag_slider E i p w) in
  let s' := Panel.slider (panel i w') in
  FloatSlider.int_value s' = p' /\
  FloatSlider._value s' = x /\
  FloatSlider._label s' = Some x /\
  minuit w' = Minuit.set_value (Panel.par (panel i w)) x (minuit w) /\
  fit_calls w' = fit_calls w.
Proof.
  intros Hi Hsel s p' Hen Hbl Hne x.
  rewrite (drag_run E Hi Hen Hbl Hne). fold s p'. fold x.
  set (w3 := store_panel i _ w).
  assert (Hsel3 : existsb Panel.fit_checked (parameters w3) = false)
    by (apply none_selected_store; [reflexivity | exact Hsel]).
  assert (Hp3 : panel i w3 = Panel.with_slider
                  (FloatSlider.with_label (Some x)
                     (FloatSlider.with_value x (FloatSlider.with_int_value p' s)))
                  (panel i w))
    by (unfold w3; rewrite panel_store by exact Hi; reflexivity).
  rewrite (on_val_change_plain E i x Hsel3). cbv zeta.
  destruct (visualize E _); [|destruct (raise_on_exception E)]; simpl final;
    change (panel i (with_canvas ?c (with_minuit ?m w3))) with (panel i w3);
    rewrite Hp3; simpl; repeat split.
Qed.

Lemma drag_sets_one_number_witness :
  let w' := final (Events.drag_slider Sample.external1 0 50000000 Sample.window1) in
  FloatSlider._value (Panel.slider (panel 0 w')) = 3%float /\
  Minuit.values (minuit w') = [3%float].
Proof.
  assert (Hi : has_panel 0 Sample.window1) by (unfold has_panel; vm_compute; lia).
  assert (Hne : FloatSlider.int_value (Panel.slider (panel 0 Sample.window1))
                <> Z.max 0 (Z.min FloatSlider.int_maximum 50000000))
    by (vm_compute; discriminate).
  destruct (@drag_sets_one_number Sample.external1 0 50000000 Sample.window1
              Hi eq_refl eq_refl eq_refl Hne) as (_ & Hv & _ & Hm & _).
  split.
  - rewrite Hv. vm_compute. reflexivity.
  - rewrite Hm. vm_compute. reflexivity.
Defined.

(** *** Raising the lower limit above the value *)

Lemma bind_ok {W A B} (c : M W A) (k : A -> M W B) w b w' :
  bind c k w = Ok b w' -> exists a w1, c w = Ok a w1 /\ k a w1 = Ok b w'.
Proof.
  unfold bind. destruct (c w) as [a w1|e w1]; [|discriminate].
  intros H. exists a, w1. split; [reflexivity | exact H].
Qed.

(** What a value change leaves, however the redraw ends, no panel being
    checked for the fit. *)
Lemma on_val_change_final (E : External) (i : nat) (v : float) (w : t) :
  existsb Panel.fit_checked (parameters w) = false ->
  let w' := final (on_val_change E i v w) in
  parameters w' = parameters w /\
  minuit w' = Minuit.set_value (Panel.par (panel i w)) v (minuit w).
Proof.
  intros Hsel. rewrite (on_val_change_plain E i v Hsel). cbv zeta.
  destruct (visualize E _); [|destruct (raise_on_exception E)]; split; reflexivity.
Qed.

Lemma contained_ok {W A} (c : M W A) (w w' : W) :
  contained c w = Ok tt w' -> w' = final (c w).
Proof. unfold contained. destruct (c w); intros H; injection H as <-; reflexivity. Qed.

(** [_emit_float_value_changed()] on an open slider: the label, then the
    panel's handler. *)
Lemma emit_none_run (E : External) (i : nat) (w : t) :
  has_panel i w ->
  let sl := Panel.slider (panel i w) in
  FloatSlider.signalsBlocked sl = false ->
  FloatSlider._emit_float_value_changed (Panel.the_slider (panel i))
    (Panel.store_slider (panel i) (store_panel i)) (on_val_change E i) None w
  = contained (on_val_change E i (FloatSlider._value sl))
      (store_panel i
         (Panel.with_slider (FloatSlider.with_label (Some (FloatSlider._value sl)) sl)
            (panel i w)) w).
Proof.
  intros Hi sl Hbl. subst sl.
  unfold FloatSlider._emit_float_value_changed, FloatSlider.emit_floatValueChanged,
    FloatSlider.update, Panel.store_slider, Panel.the_slider.
  unfold bind, gets, modify, ret. cbv beta.
  repeat (rewrite ?store_store; rewrite ?panel_store by exact Hi).
  cbn [Panel.slider Panel.with_slider FloatSlider.with_label FloatSlider.signalsBlocked].
  rewrite Hbl. reflexivity.
Qed.

(** [slider.setMinimum(lo)] when the guard lets it in and the value is
    below [lo]: down to the two notifications of the clamping branch. *)
Lemma setMinimum_below_run (E : External) (i : nat) (lo : float) (w : t) :
  has_panel i w ->
  let p := panel i w in
  let s := Panel.slider p in
  (FloatSlider._max s <=? lo)%float = false ->
  (FloatSlider._value s <? lo)%float = true ->
  Panel.slider_setMinimum (panel i) (store_panel i) minuit with_minuit (callback E) lo w
  = (FloatSlider.QSlider_setValue (Panel.the_slider (panel i))
       (Panel.store_slider (panel i) (store_panel i)) (on_val_change E i) 0 ;;
     FloatSlider._emit_float_value_changed (Panel.the_slider (panel i))
       (Panel.store_slider (panel i) (store_panel i)) (on_val_change E i) None)
      (store_panel i
         (Panel.with_slider (FloatSlider.with_value lo (FloatSlider.with_min lo s)) p) w).
Proof.
  intros Hi p s Hguard Hbelow. subst s p.
  unfold Panel.slider_setMinimum, FloatSlider.setMinimum, FloatSlider.setValue.
  unfold bind at 1. unfold gets at 1. unfold Panel.the_slider at 1.
  rewrite Hguard.
  unfold bind at 1. unfold FloatSlider.update at 1. unfold modify at 1.
  unfold bind at 1. unfold gets at 1.
  unfold bind at 1. unfold gets at 1.
  unfold Panel.store_slider at 1 2 3. unfold Panel.the_slider at 1 2 3 4.
  rewrite !panel_store by exact Hi.
  cbn [Panel.slider Panel.with_slider FloatSlider.with_min FloatSlider._min
       FloatSlider._value FloatSlider._max].
  rewrite Hbelow.
  unfold bind at 1. unfold FloatSlider.update at 1. unfold modify at 1.
  unfold Panel.store_slider, Panel.the_slider.
  repeat (rewrite ?store_store; rewrite ?panel_store by exact Hi).
  cbn [Panel.slider Panel.with_slider FloatSlider.with_min FloatSlider._min].
  reflexivity.
Qed.

(** An accepted edit of the lower limit to a number above the slider's
    value, no panel being checked for the fit and the slider's signals
    open: the clamping [setValue] inside [setMinimum] notifies the panel,
    so when the handler returns the slider's value equals the new lower
    bound and the minimizer holds that same value for the parameter, next
    to the new limit pair. *)
Theorem raised_lower_limit_moves_value (E : External) (i : nat) (w w' : t) :
  has_panel i w ->
  existsb Panel.fit_checked (parameters w) = false ->
  let p := panel i w in
  let s := Panel.slider p in
  let lo := SpinBox.value (Panel.tmin p) in
  Py.geb lo (SpinBox.value (Panel.tmax p)) = false ->
  (FloatSlider._max s <=? lo)%float = false ->
  (FloatSlider._value s <? lo)%float = true ->
  is_finite (FloatSlider._max s - lo)%float = true ->
  FloatSlider.signalsBlocked s = false ->
  on_min_change E i w = Ok tt w' ->
  let s' := Panel.slider (panel i w') in
  FloatSlider._min s' = lo /\
  (FloatSlider._value s' =? lo)%float = true /\
  Minuit.values (minuit w') =
    set_nth (Panel.par p) (FloatSlider._value s') (Minuit.values (minuit w)) /\
  Minuit.limits (minuit w') =
    set_nth (Panel.par p) (lo, snd (Minuit.limits_at (minuit w) (Panel.par p)))
      (Minuit.limits (minuit w)).
Proof.
  intros Hi Hsel p s lo Hacc Hguard Hbelow Hfin Hbl Hrun.
  pose proof (FloatFacts.ltb_not_nan_r Hbelow) as Hn.
  pose proof (FloatFacts.low_image Hn Hfin) as Hlow.
  (* down to the slider's [setValue] *)
  unfold on_min_change, Panel.on_min_change in Hrun.
  unfold bind at 1 in Hrun. unfold gets at 1 in Hrun.
  fold p in Hrun. fold lo in Hrun. rewrite Hacc in Hrun.
  apply bind_ok in Hrun. destruct Hrun as ([] & wa & Hset & Hlim).
  unfold bind, gets, Panel.update_minuit, modify in Hlim. injection Hlim as <-.
  rewrite (@setMinimum_below_run E i lo w Hi Hguard Hbelow) in Hset.
  fold p in Hset. fold s in Hset.
  set (s2 := FloatSlider.with_value lo (FloatSlider.with_min lo s)) in Hset.
  set (w2 := store_panel i (Panel.with_slider s2 p) w) in Hset.
  assert (Hi2 : has_panel i w2) by (apply has_panel_store, Hi).
  assert (Hp2 : panel i w2 = Panel.with_slider s2 p) by (apply panel_store, Hi).
  assert (Hsel2 : existsb Panel.fit_checked (parameters w2) = false)
    by (apply none_selected_store; [reflexivity | exact Hsel]).
  assert (Hm2 : minuit w2 = minuit w) by reflexivity.
  apply bind_ok in Hset. destruct Hset as ([] & w3 & Hq & Hemit).
  (* the state after [QSlider.setValue(0)] *)
  assert (H3 : has_panel i w3 /\
               existsb Panel.fit_checked (parameters w3) = false /\
               Panel.par (panel i w3) = Panel.par p /\
               FloatSlider.signalsBlocked (Panel.slider (panel i w3)) = false /\
               FloatSlider._min (Panel.slider (panel i w3)) = lo /\
               (FloatSlider._value (Panel.slider (panel i w3)) =? lo)%float = true /\
               Minuit.limits (minuit w3) = Minuit.limits (minuit w) /\
               exists v, Minuit.values (minuit w3)
                         = set_nth (Panel.par p) v (Minuit.values (minuit w)) \/
                         Minuit.values (minuit w3) = Minuit.values (minuit w)).
  { destruct (FloatSlider.int_value s =? 0)%Z eqn:Hz.
    - assert (Hq' : w3 = w2).
      { unfold FloatSlider.QSlider_setValue in Hq.
        unfold bind at 1 in Hq. unfold gets at 1 in Hq.
        unfold Panel.the_slider at 1 in Hq. rewrite Hp2 in Hq.
        change (Z.max 0 (Z.min FloatSlider.int_maximum 0))%Z with 0%Z in Hq.
        cbn [Panel.slider Panel.with_slider FloatSlider.int_value s2
             FloatSlider.with_value FloatSlider.with_min] in Hq.
        rewrite Hz in Hq. injection Hq as <-. reflexivity. }
      subst w3. rewrite Hp2.
      split; [exact Hi2|]. split; [exact Hsel2|]. split; [reflexivity|].
      split; [exact Hbl|]. split; [reflexivity|]. split; [exact Hn|].
      split; [reflexivity|]. exists lo. right. reflexivity.
    - assert (Hne : FloatSlider.int_value (Panel.slider (panel i w2))
                    <> Z.max 0 (Z.min FloatSlider.int_maximum 0)).
      { rewrite Hp2. simpl. apply Z.eqb_neq. exact Hz. }
      assert (Hen2 : FloatSlider.signalsBlocked (Panel.slider (panel i w2)) = false)
        by (rewrite Hp2; exact Hbl).
      unfold FloatSlider.QSlider_setValue,
        FloatSlider._emit_float_value_changed, FloatSlider._int_to_float,
        FloatSlider.emit_floatValueChanged, FloatSlider.update,
        Panel.store_slider, Panel.the_slider in Hq.
      unfold bind, gets, modify, ret, contained in Hq. cbv beta in Hq.
      apply Z.eqb_neq in Hne. rewrite Hne, Hen2 in Hq. cbv beta in Hq.
      repeat (rewrite ?store_store in Hq; rewrite ?panel_store in Hq by exact Hi2).
      cbn [Panel.slider Panel.with_slider FloatSlider.with_int_value
           FloatSlider.with_value FloatSlider.with_label FloatSlider._min
           FloatSlider._max FloatSlider._value FloatSlider.signalsBlocked] in Hq.
      rewrite Hen2 in Hq.
      match type of Hq with
      | context [on_val_change E i ?x ?wq] =>
          set (wq0 := wq) in Hq; set (x0 := x) in Hq
      end.
      assert (Hq3 : w3 = final (on_val_change E i x0 wq0))
        by (destruct (on_val_change E i x0 wq0); injection Hq as <-; reflexivity).
      assert (Hselq : existsb Panel.fit_checked (parameters wq0) = false)
        by (apply none_selected_store; [reflexivity | exact Hsel2]).
      destruct (on_val_change_final E i x0 Hselq) as [Hps Hmq].
      rewrite <- Hq3 in Hps, Hmq.
      assert (Hpq : panel i wq0 =
                    Panel.with_slider
                      (FloatSlider.with_label (Some x0)
                         (FloatSlider.with_value x0
                            (FloatSlider.with_int_value
                               (Z.max 0 (Z.min FloatSlider.int_maximum 0))
                               (Panel.slider (panel i w2)))))
                      (panel i w2))
        by (unfold wq0; rewrite panel_store by exact Hi2; reflexivity).
      assert (Hp3 : panel i w3 = panel i wq0) by (unfold panel; rewrite Hps; reflexivity).
      assert (Hx0 : (x0 =? lo)%float = true).
      { unfold x0. rewrite Hp2. unfold s2. simpl. exact Hlow. }
      split.
      { unfold has_panel. rewrite Hps. apply has_panel_store, Hi2. }
      split; [rewrite Hps; exact Hselq|].
      rewrite Hp3, Hpq. rewrite Hp2. simpl.
      split; [reflexivity|]. split; [exact Hbl|]. split; [reflexivity|].
      split; [exact Hx0|].
      rewrite Hmq. simpl. split; [reflexivity|].
      exists x0. left. rewrite Hpq, Hp2. reflexivity. }
  destruct H3 as (Hi3 & Hsel3 & Hpar3 & Hbl3 & Hmin3 & Hval3 & Hlim3 & v3 & Hv3).
  (* the explicit [_emit_float_value_changed()] *)
  rewrite (emit_none_run E Hi3 Hbl3) in Hemit.
  match type of Hemit with
  | contained (on_val_change E i ?x) ?wq = _ => set (wq1 := wq) in Hemit
  end.
  apply contained_ok in Hemit.
  assert (Hselq : existsb Panel.fit_checked (parameters wq1) = false)
    by (apply none_selected_store; [reflexivity | exact Hsel3]).
  destruct (on_val_change_final E i (FloatSlider._value (Panel.slider (panel i w3))) Hselq)
    as [Hps Hmq].
  rewrite <- Hemit in Hps, Hmq.
  assert (Hpq : panel i wq1 =
                Panel.with_slider
                  (FloatSlider.with_label
                     (Some (FloatSlider._value (Panel.slider (panel i w3))))
                     (Panel.slider (panel i w3)))
                  (panel i w3))
    by (unfold wq1; rewrite panel_store by exact Hi3; reflexivity).
  assert (Hpa : panel i wa = panel i wq1) by (unfold panel; rewrite Hps; reflexivity).
  cbv zeta. change (panel i (with_minuit ?m wa)) with (panel i wa).
  rewrite Hpa, Hpq. simpl.
  split; [exact Hmin3|]. split; [exact Hval3|].
  rewrite Hmq. simpl. rewrite Hpq. simpl. rewrite Hpar3.
  split.
  - destruct Hv3 as [Hv3|Hv3]; rewrite Hv3; [|reflexivity].
    apply ListFacts.set_nth_set_nth.
  - unfold Minuit.limits_at. simpl. rewrite Hlim3. reflexivity.
Qed.

Lemma raised_lower_limit_moves_value_witness :
  let p := panel 0 Sample.window1 in
  let w := store_panel 0 (Panel.with_tmin (SpinBox.setValue 5.5%float (Panel.tmin p)) p)
             Sample.window1 in
  let w' := final (on_min_change Sample.external1 0 w) in
  (FloatSlider._value (Panel.slider (panel 0 w')) =? 5.5)%float = true /\
  Minuit.values (minuit w') = [FloatSlider._value (Panel.slider (panel 0 w'))].
Proof.
  intros p w w'.
  assert (Hi : has_panel 0 w) by (unfold has_panel; vm_compute; lia).
  assert (Hrun : on_min_change Sample.external1 0 w = Ok tt w')
    by (vm_compute; reflexivity).
  destruct (@raised_lower_limit_moves_value Sample.external1 0 w w' Hi
              eq_refl eq_refl eq_refl eq_refl eq_refl eq_refl Hrun)
    as (_ & Hv & Hm & _).
  split; [exact Hv | exact Hm].
Defined.

End SessionFacts.

(** ** What every state of a session satisfies *)

Module SessionInvariant.

Import MainWindow Logic WindowLogic Events.

Lemma preserves_intro {W A} (P : W -> Prop) (c : M W A) :
  (forall w, P w -> P (final (c w))) -> preserves P c.
Proof. intros H w Hw. specialize (H w Hw). destruct (c w); exact H. Qed.

(** The invariant: panel [i] is the panel of parameter [i], "fix" and
    "fit" exclude each other, no parameter checked for the fit is fixed,
    and there are [n] panels. *)
Definition sound (n : nat) (w : t) : Prop := inv w /\ length (parameters w) = n.

(** It reads only the buttons, the parameter of each panel, the number of
    panels and the fixed flags. *)
Lemma sound_transfer n w w' :
  sound n w ->
  length (parameters w') = length (parameters w) ->
  (forall j, j < n ->
     Panel.par (panel j w') = Panel.par (panel j w) /\
     Panel.fix_checked (panel j w') = Panel.fix_checked (panel j w) /\
     Panel.fit_checked (panel j w') = Panel.fit_checked (panel j w)) ->
  (forall j, j < n -> Panel.fit_checked (panel j w) = true ->
     Minuit.fixed_at (minuit w') j = false) ->
  sound n w'.
Proof.
  intros [[Hidx Hex] Hn] Hl Hb Hf. split; [|congruence].
  split.
  - intros j Hj. rewrite Hl, Hn in Hj. destruct (Hb j Hj) as (-> & _).
    apply Hidx. lia.
  - intros j Hj. rewrite Hl, Hn in Hj. destruct (Hb j Hj) as (_ & -> & ->).
    destruct (Hex j ltac:(lia)) as [H1 H2]. split; [exact H1|].
    intros Hfit. apply Hf; assumption.
Qed.

Lemma sound_store n i p' w :
  sound n w ->
  Panel.par p' = Panel.par (panel i w) ->
  Panel.fix_checked p' = Panel.fix_checked (panel i w) ->
  Panel.fit_checked p' = Panel.fit_checked (panel i w) ->
  sound n (store_panel i p' w).
Proof.
  intros Hs H1 H2 H3. pose proof Hs as [[Hidx Hex] Hn].
  apply (sound_transfer Hs).
  - simpl. apply ListFacts.length_set_nth.
  - intros j Hj. destruct (Nat.eq_dec j i) as [->|Hne].
    + rewrite panel_store by (unfold has_panel; lia). auto.
    + rewrite panel_store_other by auto. auto.
  - intros j Hj Hfit. apply (Hex j ltac:(lia)), Hfit.
Qed.

Lemma sound_same n w w' :
  sound n w -> parameters w' = parameters w ->
  Minuit.fixed (minuit w') = Minuit.fixed (minuit w) ->
  sound n w'.
Proof.
  intros Hs Hp Hf. pose proof Hs as [[Hidx Hex] Hn].
  apply (sound_transfer Hs).
  - rewrite Hp. reflexivity.
  - intros j Hj. unfold panel. rewrite Hp. auto.
  - intros j Hj Hfit. unfold Minuit.fixed_at. rewrite Hf.
    apply (Hex j ltac:(lia)), Hfit.
Qed.

Section Handlers.

Variable E : External.
Hypothesis HK : keeps_fixed E.
Hypothesis HR : forall m, Minuit.fixed (reset E m) = Minuit.fixed m.
Variable n : nat.

Lemma callback_sound w : sound n w -> sound n (final (callback E w)).
Proof.
  intros [Hinv Hn]. split; [apply (callback_keeps_inv HK), Hinv|].
  unfold callback.
  pose proof (on_parameter_change_fixed false w HK) as H. cbv zeta in H.
  destruct (on_parameter_change E false false w) as [[] w'|e w']; simpl;
    destruct H as [Hs _]; rewrite (steady_length Hs); exact Hn.
Qed.

Lemma on_val_change_sound i v : preserves (sound n) (on_val_change E i v).
Proof.
  apply preserves_intro. intros w Hw.
  unfold on_val_change, Panel.on_val_change.
  unfold bind at 1. unfold gets at 1. unfold bind at 1.
  unfold Panel.update_minuit at 1. unfold modify at 1.
  apply callback_sound. apply (sound_same Hw); reflexivity.
Qed.

Lemma store_slider_sound i s w :
  sound n w -> sound n (Panel.store_slider (panel i) (store_panel i) s w).
Proof. intros Hw. unfold Panel.store_slider. apply sound_store; auto. Qed.

Lemma drag_sound i p w : sound n w -> sound n (final (drag_slider E i p w)).
Proof.
  intros Hw. unfold drag_slider. unfold bind at 1. unfold gets at 1.
  destruct (FloatSlider.enabled _); [|exact Hw].
  apply preserves_final; [|exact Hw].
  apply SliderLogic.QSlider_setValue_keeps.
  - intros f w0 _ Hw0. apply store_slider_sound, Hw0.
  - intros x. apply on_val_change_sound.
Qed.

Lemma update_sound i (f : Panel.t -> Panel.t) :
  (forall q, Panel.par (f q) = Panel.par q /\
             Panel.fix_checked (f q) = Panel.fix_checked q /\
             Panel.fit_checked (f q) = Panel.fit_checked q) ->
  preserves (sound n) (Panel.update (panel i) (store_panel i) f).
Proof.
  intros Hf. apply preserves_modify. intros w Hw.
  destruct (Hf (panel i w)) as (H1 & H2 & H3). apply sound_store; assumption.
Qed.

Lemma update_minuit_sound (f : Minuit.t -> Minuit.t) :
  (forall m, Minuit.fixed (f m) = Minuit.fixed m) ->
  preserves (sound n) (Panel.update_minuit (W := t) minuit with_minuit f).
Proof.
  intros Hf. apply preserves_modify. intros w Hw.
  apply (sound_same Hw); [reflexivity | apply Hf].
Qed.

Lemma on_min_change_sound i : preserves (sound n) (on_min_change E i).
Proof.
  unfold on_min_change, Panel.on_min_change.
  apply preserves_bind; [apply preserves_gets | intros q].
  apply preserves_if.
  - apply preserves_bind; [apply update_sound; intros []; repeat split | intros u].
    apply preserves_bind; [apply preserves_gets | intros m].
    apply preserves_bind; [apply update_sound; intros []; repeat split | intros u0].
    apply update_sound; intros []; repeat split.
  - apply preserves_bind; [|intros u].
    + apply SliderLogic.setMinimum_keeps_all.
      * intros s w Hw. apply store_slider_sound, Hw.
      * intros x. apply on_val_change_sound.
    + apply preserves_bind; [apply preserves_gets | intros m].
      apply update_minuit_sound. intros m0. reflexivity.
Qed.

Lemma on_max_change_sound i : preserves (sound n) (on_max_change E i).
Proof.
  unfold on_max_change, Panel.on_max_change.
  apply preserves_bind; [apply preserves_gets | intros q].
  apply preserves_if.
  - apply preserves_bind; [apply update_sound; intros []; repeat split | intros u].
    apply preserves_bind; [apply preserves_gets | intros m].
    apply preserves_bind; [apply update_sound; intros []; repeat split | intros u0].
    apply update_sound; intros []; repeat split.
  - apply preserves_bind; [|intros u].
    + apply SliderLogic.setMaximum_keeps_all.
      * intros s w Hw. apply store_slider_sound, Hw.
      * intros x. apply on_val_change_sound.
    + apply preserves_bind; [apply preserves_gets | intros m].
      apply update_minuit_sound. intros m0. reflexivity.
Qed.

Lemma edit_tmin_sound i x w : sound n w -> sound n (final (edit_tmin E i x w)).
Proof.
  intros Hw. unfold edit_tmin. unfold bind at 1. unfold gets at 1.
  unfold bind at 1. unfold modify at 1.
  assert (Hw1 : sound n (store_panel i
                  (Panel.with_tmin (SpinBox.setValue x (Panel.tmin (panel i w)))
                     (panel i w)) w))
    by (apply sound_store; [exact Hw | reflexivity | reflexivity | reflexivity]).
  destruct (Nat.eqb _ _); [exact Hw1|].
  apply preserves_final; [apply on_min_change_sound | exact Hw1].
Qed.

Lemma edit_tmax_sound i x w : sound n w -> sound n (final (edit_tmax E i x w)).
Proof.
  intros Hw. unfold edit_tmax. unfold bind at 1. unfold gets at 1.
  unfold bind at 1. unfold modify at 1.
  assert (Hw1 : sound n (store_panel i
                  (Panel.with_tmax (SpinBox.setValue x (Panel.tmax (panel i w)))
                     (panel i w)) w))
    by (apply sound_store; [exact Hw | reflexivity | reflexivity | reflexivity]).
  destruct (Nat.eqb _ _); [exact Hw1|].
  apply preserves_final; [apply on_max_change_sound | exact Hw1].
Qed.

(** The two toggles. *)
Lemma click_fix_sound i w : sound n w -> sound n (final (click_fix i w)).
Proof.
  intros [Hinv Hn]. split; [apply click_fix_keeps_inv, Hinv|].
  destruct (Nat.lt_ge_cases i (length (parameters w))) as [Hi|Hi].
  - rewrite (click_fix_spec Hi). cbv zeta. simpl.
    rewrite ListFacts.length_set_nth. exact Hn.
  - unfold click_fix, on_fix_toggled, Panel.on_fix_toggled, Panel.update,
      Panel.update_minuit, bind, gets, modify, ret.
    rewrite !store_panel_beyond by (unfold has_panel; simpl; lia).
    destruct (Panel.fix_checked _); simpl;
      rewrite ?ListFacts.length_set_nth; exact Hn.
Qed.

Lemma click_fit_sound i w : sound n w -> sound n (final (click_fit E i w)).
Proof.
  intros Hw. pose proof Hw as [Hinv Hn].
  split; [apply (click_fit_keeps_inv HK), Hinv|].
  unfold click_fit. unfold bind at 1. unfold modify at 1.
  unfold on_fit_toggled, Panel.on_fit_toggled.
  set (w1 := store_panel i _ w).
  assert (Hl1 : length (parameters w1) = n)
    by (unfold w1; simpl; rewrite ListFacts.length_set_nth; exact Hn).
  assert (Hlen : preserves (fun x => length (parameters x) = n)
            (p <- gets (panel i) ;;
             Panel.slider_setEnabled (panel i) (store_panel i)
               (negb (Panel.fit_checked p)) ;;
             (if Panel.fit_checked p
              then Panel.update (panel i) (store_panel i) (Panel.with_fix false) ;;
                   Panel.update_minuit minuit with_minuit
                     (Minuit.set_fixed (Panel.par p) false)
              else ret tt) ;;
             callback E)).
  { apply preserves_bind; [apply preserves_gets | intros q].
    apply preserves_bind; [|intros u].
    { apply preserves_modify. intros x Hx. unfold Panel.store_slider. simpl.
      rewrite ListFacts.length_set_nth. exact Hx. }
    apply preserves_bind; [|intros u0].
    { apply preserves_if; [|apply preserves_ret].
      apply preserves_bind; [|intros u1].
      - apply preserves_modify. intros x Hx. simpl.
        rewrite ListFacts.length_set_nth. exact Hx.
      - apply preserves_modify. intros x Hx. exact Hx. }
    apply preserves_intro. intros x Hx. unfold callback.
    pose proof (on_parameter_change_fixed false x HK) as H. cbv zeta in H.
    destruct (on_parameter_change E false false x) as [[] x'|e x']; simpl;
      destruct H as [Hs _]; rewrite (steady_length Hs); exact Hx. }
  apply (preserves_final Hlen Hl1).
Qed.

(** The refreshes of the panels keep their steady parts. *)
Lemma sound_kept w w2 :
  sound n w ->
  kept (map Panel.steady (parameters w))
       (fun m => Minuit.fixed m = Minuit.fixed (minuit w)) w2 ->
  sound n w2.
Proof.
  intros Hw [Hs Hf]. pose proof Hw as [[Hidx Hex] Hn].
  apply (sound_transfer Hw).
  - apply (steady_length Hs).
  - intros j Hj. pose proof (steady_panel j Hs) as Hp.
    destruct (steady_fields Hp) as (H1 & _ & _ & H2 & H3 & _). auto.
  - intros j Hj Hfit. unfold Minuit.fixed_at. rewrite Hf.
    apply (Hex j ltac:(lia)), Hfit.
Qed.

Lemma click_fit_button_sound w :
  sound n w -> sound n (final ((click_fit_button E ;; ret tt) w)).
Proof.
  intros Hw. unfold click_fit_button, do_fit.
  unfold bind at 1. unfold bind at 1.
  assert (Hk0 : kept (map Panel.steady (parameters w))
                  (fun m => Minuit.fixed m = Minuit.fixed (minuit w)) w)
    by (split; reflexivity).
  assert (HA : forall a m, Minuit.fixed m = Minuit.fixed (minuit w) ->
                 Minuit.fixed (algorithm E a m) = Minuit.fixed (minuit w))
    by (intros a m <-; apply HK).
  pose proof (do_fit_refresh_keeps HA Hk0) as H.
  destruct (do_fit_refresh E w) as [rs w2|e w2];
    [|simpl; apply (sound_kept Hw H)].
  pose proof (sound_kept Hw H) as Hw2.
  change (negb true) with false. cbv iota.
  unfold bind at 1. rewrite on_parameter_change_from_fit. cbv zeta.
  destruct (visualize E (minuit w2)); [|destruct (raise_on_exception E)];
    simpl; apply (sound_same Hw2); reflexivity.
Qed.

Lemma panel_reset_limits_sound j v :
  j < n -> preserves (sound n) (panel_reset j (Some v) true).
Proof.
  intros Hj. apply preserves_intro. intros w Hw.
  assert (Hp : has_panel j w) by (destruct Hw as [_ Hn]; unfold has_panel; lia).
  unfold panel_reset. rewrite window_reset_zoom by exact Hp. unfold zoom.
  pose proof (PanelLogic.local_reset_limits (panel j w) v) as H. cbv zeta in H.
  destruct (Panel.local_reset (Some v) true (panel j w)) as [u p'|e p']; simpl.
  - destruct H as (Hs & _). unfold PanelLogic.shaped in Hs.
    apply sound_store; [exact Hw | | |]; rewrite Hs; reflexivity.
  - destruct H as (lo & hi & tmn & tmx & Hs). unfold PanelLogic.shaped in Hs.
    apply sound_store; [exact Hw | | |]; rewrite Hs; reflexivity.
Qed.

Lemma click_reset_button_sound w :
  sound n w -> sound n (final (click_reset_button E w)).
Proof.
  intros Hw. unfold click_reset_button. rewrite on_reset_button_clicked_eq.
  apply preserves_final.
  - apply preserves_bind; [|intros u; apply preserves_intro; apply callback_sound].
    destruct Hw as [_ Hn]. rewrite Hn.
    apply preserves_for_range_upto. intros j Hj.
    unfold refresh. apply preserves_bind; [apply preserves_gets | intros m].
    apply panel_reset_limits_sound. lia.
  - apply (sound_same Hw); [reflexivity|]. simpl. apply HR.
Qed.

Lemma click_update_button_sound w :
  sound n w -> sound n (final (click_update_button w)).
Proof.
  intros Hw. unfold click_update_button, on_update_button_clicked.
  apply preserves_final; [|exact Hw].
  apply preserves_bind; [|intros u].
  - apply preserves_modify. intros x Hx. apply (sound_same Hx); reflexivity.
  - apply preserves_bind; [apply preserves_gets | intros x].
    apply preserves_for_range. intros j.
    apply preserves_modify. intros y Hy. apply store_slider_sound, Hy.
Qed.

Lemma event_sound ev w : sound n w -> sound n (final (event E ev w)).
Proof.
  intros Hw. destruct ev as [i p|i x|i x|i|i| | | |a]; simpl.
  - apply drag_sound, Hw.
  - apply edit_tmin_sound, Hw.
  - apply edit_tmax_sound, Hw.
  - apply click_fix_sound, Hw.
  - apply click_fit_sound, Hw.
  - apply click_fit_button_sound, Hw.
  - apply click_reset_button_sound, Hw.
  - apply click_update_button_sound, Hw.
  - apply (sound_same Hw); reflexivity.
Qed.

Lemma session_sound evs : forall w, sound n w -> sound n (session E evs w).
Proof.
  induction evs as [|ev evs IH]; intros w Hw; simpl; [exact Hw|].
  apply IH, event_sound, Hw.
Qed.

End Handlers.

(** With a minimizer whose fit algorithms and whose [reset] leave the
    fixed flags alone, every state a session reaches from a built window
    keeps what the window starts with: whatever the user does with
    sliders, limit fields, the panels' buttons, "Fit", "Reset",
    "Continuous" and the algorithm chooser, and whether each handler
    returns or raises, there is one panel per parameter, panel [i] is the
    panel of parameter [i], no panel has "fix" and "fit" both checked, and
    no parameter checked for the fit is fixed in the minimizer. *)
Theorem session_keeps_exclusion (E : External) (m : Minuit.t) (w0 : t)
    (evs : list Event) :
  keeps_fixed E ->
  (forall m', Minuit.fixed (reset E m') = Minuit.fixed m') ->
  __init__ E m = Ok tt w0 ->
  let w' := session E evs w0 in
  length (parameters w') = Minuit.npar m /\ indexed w' /\ exclusive w'.
Proof.
  intros HK HR Hinit.
  destruct (SessionFacts.init_spec Hinit) as (_ & Hl & _ & Hidx & Hex & _).
  assert (Hw : sound (Minuit.npar m) w0) by (split; [split; assumption | exact Hl]).
  destruct (session_sound HK HR evs Hw) as [[H1 H2] H3].
  cbv zeta. split; [exact H3|]. split; [exact H1 | exact H2].
Qed.

Lemma session_keeps_exclusion_witness :
  exclusive (session Sample.external2
               [ClickFit 0; Drag 1 1000; EditMin 1 0.25%float; ClickFitButton;
                ClickReset; ClickFix 0; ClickContinuous]
               Sample.window2).
Proof.
  assert (Hinit : __init__ Sample.external2 Sample.minuit2 = Ok tt Sample.window2)
    by (vm_compute; reflexivity).
  exact (proj2 (proj2 (@session_keeps_exclusion Sample.external2 Sample.minuit2
           Sample.window2
           [ClickFit 0; Drag 1 1000; EditMin 1 0.25%float; ClickFitButton;
            ClickReset; ClickFix 0; ClickContinuous]
           external2_keeps_fixed (fun m => eq_refl) Hinit))).
Defined.

End SessionInvariant.
